(** * IBSng backup bot: a shallow embedding of [bot.py] and [main.py]

    The orchestration core of the backup/restore bot is modelled as
    state-passing functions over an explicit [world]: the local file
    system, the persisted configuration file, the module-level globals
    of the script, and two output channels (what was printed, and which
    external effects were requested).

    Conventions of the model.
    - Timestamps are whole seconds ([Z]); every [time.time()] call reads
      a value supplied by the environment of the operation. The script
      computes with floats: the arithmetic of the model is the script's
      wherever the numbers are below [2^53] in absolute value, and an
      [int] too large for a float raises [OverflowError] in the model as
      it does in the script.
    - Names, paths and output lines are byte strings, read as UTF-8;
      only equality of their characters matters. The text of a command
      is decoded to code points before [str.split], [str.isdigit] and
      [int] classify its characters, with the tables of Unicode 14 (the
      database of Python 3.11).
    - Message texts sent to the chat are named by the constructor of
      [msg] that stands for the literal of the source.
    - The configuration file is missing, or holds text that [json.load]
      rejects, or holds a JSON object whose four documented keys, where
      present, hold values of the types the script writes (a string for
      the token and the chat id, a number of whole seconds for the
      timestamp, a whole number for the interval) or [null]. A file
      with JSON that is no object, or with values of other types under
      these keys, is outside the model: no world stands for it.
    - The file system holds regular files, addressed by their resolved
      component list. Directories, permissions and free space are not
      part of the map: whether a removal, a write or a directory listing
      goes through is told by the [io_faults] of the world, and so is
      whether a call of the chat API raises.
    - A request to the chat, to [curl] or to a script is recorded when
      it is made, whether or not it then fails.
    - Threads started by a handler are recorded as effects; the body of
      each thread is a function of its own, and every handler and thread
      body runs without another one in between its steps.

    [bot.py] as published stops the Python compiler inside
    [handle_restore_command]: the literal of the guidance message lacks
    a line continuation before its last part (line 500). Every other
    function is modelled from its own lines. [handle_restore_command]
    is modelled from [main.py] (lines 397-415), whose statements are
    those of [bot.py] with the continuation restored; the two differ in
    the message texts only.

    [main.py] is a variant of the same script: it has no [/time]
    command, its throttle reads [MIN_INTERVAL_HOURS] only, its flush
    threshold is 4000 and its document handler does not guard the
    download. The handlers and the executor are otherwise the same. *)

From Stdlib Require Import ZArith NArith Ascii String List Lia.
From stdpp Require Import gmap strings list pretty.

Open Scope Z_scope.

(** ** Python primitives *)

Module Py.

(** [s.startswith(pre)] *)
Fixpoint startswith (s pre : string) : bool :=
  match pre with
  | EmptyString => true
  | String a pre' =>
      match s with
      | EmptyString => false
      | String b s' => if decide (a = b) then startswith s' pre' else false
      end
  end.

(** [s.endswith(suf)] *)
Definition endswith (s suf : string) : bool :=
  startswith (String.rev s) (String.rev suf).

(** [s.split(c)] for a one-character separator: never empty. *)
Fixpoint split (c : ascii) (s : string) : list string :=
  match s with
  | EmptyString => [EmptyString]
  | String a s' =>
      if decide (a = c) then EmptyString :: split c s'
      else match split c s' with
           | h :: t => String a h :: t
           | [] => [String a EmptyString]
           end
  end.

(** [s.split(c, 1)[1]]: what follows the first [c]; [None] stands for
    the [IndexError] raised when [c] does not occur. *)
Fixpoint split1_snd (c : ascii) (s : string) : option string :=
  match s with
  | EmptyString => None
  | String a s' => if decide (a = c) then Some s' else split1_snd c s'
  end.

(** Truth value of a string and of a number. *)
Definition truthy_str (s : string) : bool :=
  match s with EmptyString => false | _ => true end.

Definition truthy_opt_str (o : option string) : bool :=
  match o with Some s => truthy_str s | None => false end.

Definition truthy_num (z : Z) : bool := negb (z =? 0).

(** [str(x)] for an optional string: [str(None)] is the word None. *)
Definition str_opt (o : option string) : string :=
  match o with Some s => s | None => "None" end.

(** [os.path.join(a, b)] of [posixpath]. *)
Definition os_path_join (a b : string) : string :=
  if startswith b "/" then b
  else if negb (truthy_str a) || endswith a "/" then a +:+ b
  else a +:+ "/" +:+ b.

(** *** Floats *)

(** An [int] is converted to a float when it meets one in a
    subtraction; the conversion rounds to nearest, ties to even, and
    raises [OverflowError] from [2^1024 - 2^970] on. *)
Definition FLOAT_LIMIT : Z := 2 ^ 1024 - 2 ^ 970.

Definition fits_float (x : Z) : bool := Z.abs x <? FLOAT_LIMIT.

(** Below [2^53] every integer is a float, and the float arithmetic of
    the script on such integers is exact. *)
Definition EXACT_LIMIT : Z := 2 ^ 53.

Definition exact (x : Z) : Prop := Z.abs x ≤ EXACT_LIMIT.

(** *** Text as code points *)

(** The payload of a continuation byte of UTF-8. *)
Definition continuation (a : ascii) : option N :=
  let b := N_of_ascii a in
  if ((128 <=? b) && (b <? 192))%N then Some (b - 128)%N else None.

(** The replacement character, read for a byte that starts no
    well-formed sequence. *)
Definition REPLACEMENT : N := 65533.

(** The code points of a UTF-8 string. *)
Fixpoint decode (s : string) : list N :=
  match s with
  | EmptyString => []
  | String a s1 =>
      let b := N_of_ascii a in
      if (b <? 128)%N then b :: decode s1
      else
        match s1 with
        | String a1 s2 =>
            match continuation a1 with
            | Some c1 =>
                if ((192 <=? b) && (b <? 224))%N
                then ((b - 192) * 64 + c1)%N :: decode s2
                else
                  match s2 with
                  | String a2 s3 =>
                      match continuation a2 with
                      | Some c2 =>
                          if ((224 <=? b) && (b <? 240))%N
                          then ((b - 224) * 4096 + c1 * 64 + c2)%N :: decode s3
                          else
                            match s3 with
                            | String a3 s4 =>
                                match continuation a3 with
                                | Some c3 =>
                                    if ((240 <=? b) && (b <? 248))%N
                                    then ((b - 240) * 262144 + c1 * 4096
                                          + c2 * 64 + c3)%N :: decode s4
                                    else REPLACEMENT :: decode s1
                                | None => REPLACEMENT :: decode s1
                                end
                            | EmptyString => REPLACEMENT :: decode s1
                            end
                      | None => REPLACEMENT :: decode s1
                      end
                  | EmptyString => REPLACEMENT :: decode s1
                  end
            | None => REPLACEMENT :: decode s1
            end
        | EmptyString => [REPLACEMENT]
        end
  end.

(** The characters [str.split()] cuts at: those for which
    [str.isspace] holds. *)
Definition WHITESPACE : list N :=
  [9; 10; 11; 12; 13; 28; 29; 30;
   31; 32; 133; 160; 5760; 8192; 8193; 8194;
   8195; 8196; 8197; 8198; 8199; 8200; 8201; 8202;
   8232; 8233; 8239; 8287; 12288]%N.

Definition isspace (c : N) : bool := existsb (N.eqb c) WHITESPACE.

(** The digit zero of every script of decimal digits; the nine
    characters after each are its digits one to nine. *)
Definition DECIMAL_ZEROS : list N :=
  [48; 1632; 1776; 1984; 2406; 2534; 2662; 2790;
   2918; 3046; 3174; 3302; 3430; 3558; 3664; 3792;
   3872; 4160; 4240; 6112; 6160; 6470; 6608; 6784;
   6800; 6992; 7088; 7232; 7248; 42528; 43216; 43264;
   43472; 43504; 43600; 44016; 65296; 66720; 68912; 69734;
   69872; 69942; 70096; 70384; 70736; 70864; 71248; 71360;
   71472; 71904; 72016; 72784; 73040; 73120; 92768; 92864;
   93008; 120782; 120792; 120802; 120812; 120822; 123200; 123632;
   125264; 130032]%N.

(** The value of a decimal digit: the characters [int] reads. *)
Definition decimal_value (c : N) : option Z :=
  match List.find (λ z, (z <=? c) && (c <? z + 10))%N DECIMAL_ZEROS with
  | Some z => Some (Z.of_N (c - z))
  | None => None
  end.

(** Digits that are not decimal digits (superscripts, circled digits
    and the like), as inclusive ranges: [str.isdigit] holds for them,
    [int] rejects them. *)
Definition OTHER_DIGITS : list (N * N) :=
  [(178, 179); (185, 185); (4969, 4977); (6618, 6618);
   (8304, 8304); (8308, 8313); (8320, 8329); (9312, 9320);
   (9332, 9340); (9352, 9360); (9450, 9450); (9461, 9469);
   (9471, 9471); (10102, 10110); (10112, 10120); (10122, 10130);
   (68160, 68163); (69216, 69224); (69714, 69722); (127232, 127242)]%N.

Definition other_digit (c : N) : bool :=
  existsb (λ r, (r.1 <=? c) && (c <=? r.2))%N OTHER_DIGITS.

Definition isdigit_char (c : N) : bool :=
  bool_decide (is_Some (decimal_value c)) || other_digit c.

(** [s.split()]: maximal runs of characters that are not whitespace. *)
Fixpoint split_ws_go (cur : option (list N)) (s : list N) : list (list N) :=
  match s with
  | [] => option_list ((λ l, rev l) <$> cur)
  | c :: s' =>
      if isspace c
      then option_list ((λ l, rev l) <$> cur) ++ split_ws_go None s'
      else split_ws_go (Some (c :: default [] cur)) s'
  end.

Definition split_ws (s : list N) : list (list N) := split_ws_go None s.

(** [s.isdigit()]: not empty, and digits only. *)
Definition isdigit (s : list N) : bool :=
  match s with [] => false | _ => forallb isdigit_char s end.

(** [int] refuses a numeral of more digits than this. *)
Definition MAX_STR_DIGITS : nat := 4300.

Fixpoint int_go (acc : Z) (s : list N) : option Z :=
  match s with
  | [] => Some acc
  | c :: s' =>
      match decimal_value c with
      | Some d => int_go (10 * acc + d) s'
      | None => None
      end
  end.

(** [int(s)] for a string for which [isdigit] holds; [None] stands for
    [ValueError]. *)
Definition int (s : list N) : option Z :=
  if (MAX_STR_DIGITS <? length s)%nat then None else int_go 0 s.

End Py.

(** ** Settings of the script *)

Definition BACKUP_DIR : string := "/tmp/ibsng_backup_files".
Definition RETENTION_DAYS : Z := 3.
Definition TEMP_DIR : string := "/tmp/ibsng_restore".
Definition DEFAULT_MIN_INTERVAL_HOURS : Z := 2.

(** ** The file system *)

Module Fs.

Record file := File { f_data : list Byte.byte; f_mtime : Z }.

(** A name that can be a directory entry. *)
Definition simple (n : string) : bool :=
  bool_decide (n ≠ "" ∧ n ≠ "." ∧ n ≠ ".." ∧ Py.split "/" n = [n]).

(** One step of path resolution on the stack of components seen so
    far (innermost first). *)
Definition walk (stack : list string) (c : string) : list string :=
  if decide (c = "" ∨ c = ".") then stack
  else if decide (c = "..") then tail stack
  else c :: stack.

(** The location a path string denotes, as the list of its components
    from the root; relative paths are resolved against the root. *)
Definition resolve (p : string) : list string :=
  rev (fold_left walk (Py.split "/" p) []).

Definition exists_ (fs : gmap (list string) file) (p : string) : bool :=
  bool_decide (is_Some (fs !! resolve p)).

Definition getsize (fs : gmap (list string) file) (p : string) : option Z :=
  (λ f, Z.of_nat (length (f_data f))) <$> fs !! resolve p.

Definition getmtime (fs : gmap (list string) file) (p : string) : option Z :=
  f_mtime <$> fs !! resolve p.

(** [os.remove(p)] where nothing hinders it: [None] stands for the
    [OSError] raised when there is no file. *)
Definition remove (fs : gmap (list string) file) (p : string)
  : option (gmap (list string) file) :=
  match fs !! resolve p with
  | Some _ => Some (delete (resolve p) fs)
  | None => None
  end.

(** [open(p, 'wb').write(data)] at time [now], where nothing hinders
    it. *)
Definition write (fs : gmap (list string) file) (p : string)
    (data : list Byte.byte) (now : Z) : gmap (list string) file :=
  <[resolve p := File data now]> fs.

(** The entry name of [k] inside directory [d], if [k] is a direct
    entry of [d]. *)
Definition entry_of (d k : list string) : option string :=
  match last k with
  | Some n =>
      if decide (k = d ++ [n]) then
        if simple n then Some n else None
      else None
  | None => None
  end.

(** The names of the files directly inside [d]: what [os.listdir(d)]
    returns when it returns. *)
Definition listdir (fs : gmap (list string) file) (d : string) : list string :=
  omap (λ kv, entry_of (resolve d) kv.1) (map_to_list fs).

(** [d] is a proper ancestor directory of location [k]. *)
Definition inside (d k : list string) : Prop :=
  ∃ rest, rest ≠ [] ∧ k = d ++ rest.

End Fs.

(** ** Configuration, messages and effects *)

(** The JSON object of [config.json]. For the first three keys an
    absent key and [null] both read as [None] through [dict.get(key)].
    The interval is read with a default, [dict.get(key, default)],
    which tells them apart: [None] is the absent key, [Some None] is
    [null], [Some (Some h)] is the number [h]. *)
Record cfg := Cfg {
  cfg_bot_token : option string;
  cfg_chat_id : option string;
  cfg_last_backup : option Z;
  cfg_min_interval_hours : option (option Z)
}.

Definition empty_config : cfg := Cfg None None None None.

(** What [CONFIG_FILE] holds: nothing; text that [json.load] rejects
    (not JSON, an empty or cut-off file); or an object. *)
Inductive stored := Missing | Malformed | Parsed (c : cfg).

(** A dictionary value held by a local variable: either the very object
    bound to the global [config], or a fresh one. *)
Inductive dict_ref := Global_config | Fresh (c : cfg).

Definition text := list ascii.

(** Texts sent to the chat, one constructor per literal of the source.
    The interval shown by the status message is [None] when the
    configuration holds [null]. *)
Inductive msg :=
| Unauthorized_msg
| Backup_start_msg
| Backup_error_msg
| Status_msg (last_backup : option Z) (now : Z) (min_interval : option Z)
| Help_msg
| Value_error_msg
| Time_success_msg (new_interval : Z)
| Save_error_msg
| Guide_msg
| Cancel_msg
| No_operation_msg
| Invalid_format_msg
| Start_restore_msg (file_name : string) (file_size : nat)
| Download_error_msg
| Code_block (body : text)
| Stderr_msg (body : text)
| Restore_success_msg
| Restore_error_msg (returncode : Z)
| Restore_exception_msg.

Inductive thread :=
| Run_backup_and_notify (chat : Z)
| Run_restore_process (file_path : string) (chat : Z).

(** External effects, in the order they were requested. *)
Inductive event :=
| Run_backup_script
| Curl_send_document (file_path token chat : string)
| Popen_restore_script (file_path : string)
| Reply_to (chat : Z) (m : msg)
| Send_message (chat : Z) (m : msg)
| Thread_start (t : thread).

(** Lines printed on standard output. *)
Inductive logline :=
| Log_error_reading_config
| Log_error_saving_config
| Log_sent_to_telegram
| Log_telegram_refused
| Log_curl_error
| Log_send_exception
| Log_last_backup_recent (min_interval_hours : Z)
| Log_time_remaining (hours minutes : Z)
| Log_starting_backup
| Log_backup_created (path : string) (size : Z)
| Log_sending_file
| Log_send_failed_not_updated
| Log_settings_not_found
| Log_deleting_local (path : string)
| Log_local_deleted
| Log_error_deleting_local (path : string)
| Log_deleting_old
| Log_deleted_old (filename : string)
| Log_cleanup_done
| Log_backup_not_created
| Log_script_error
| Log_backup_exception
| Log_temp_deleted (path : string)
| Log_temp_delete_error.

(** Value of [user_states[chat]]. *)
Inductive user_state := State_None | Waiting_restore.

#[global] Instance user_state_eq_dec : EqDecision user_state.
Proof. solve_decision. Defined.

(** ** What can go wrong outside the script *)

(** How [open(p, 'wb')] followed by [write] ends at a location: it goes
    through; [open] raises (no such directory, no permission) and
    nothing is touched; or [write] raises after [open] has emptied the
    file, which is left with part of the content. *)
Inductive write_fault :=
| No_fault
| Cannot_open
| Fails_after_open (partial : list Byte.byte).

(** - [api_raises k]: the call of the chat API that is request number
      [k] in the record of effects raises (the network, or the chat
      service refusing the message, as it does for a text over its
      length limit or with broken markup);
    - [remove_denied k]: [os.remove] raises [OSError] at location [k]
      even though something is there (a directory, or a directory that
      cannot be written);
    - [write_fault_at k]: how writing a new file at [k] ends;
    - [listdir_raises k]: [os.listdir] raises at [k] (no such
      directory, or one that cannot be read);
    - [config_truncated]: when writing [CONFIG_FILE] fails, it fails
      after [open] has emptied the file. *)
Record io_faults := Io_faults {
  api_raises : nat → bool;
  remove_denied : list string → bool;
  write_fault_at : list string → write_fault;
  listdir_raises : list string → bool;
  config_truncated : bool
}.

(** Nothing goes wrong. *)
Definition no_faults : io_faults :=
  Io_faults (λ _, false) (λ _, false) (λ _, No_fault) (λ _, false) false.

(** ** The world *)

(** [fs] and [config_file] are the disk; [config_writable] tells whether
    writing [CONFIG_FILE] goes through. [config], [bot_token],
    [chat_id], [MIN_INTERVAL_HOURS] and [user_states] are the globals of
    the script. [stdout] and [effects] record, oldest first, what was
    printed and which external effects were requested. [io] tells what
    goes wrong outside the script. *)
Record world := World {
  fs : gmap (list string) Fs.file;
  config_file : stored;
  config_writable : bool;
  config : cfg;
  bot_token : option string;
  chat_id : option string;
  MIN_INTERVAL_HOURS : Z;
  user_states : gmap Z user_state;
  stdout : list logline;
  effects : list event;
  io : io_faults
}.

Definition set_fs (f : gmap (list string) Fs.file) (w : world) : world :=
  World f (config_file w) (config_writable w) (config w) (bot_token w)
        (chat_id w) (MIN_INTERVAL_HOURS w) (user_states w) (stdout w) (effects w)
        (io w).

Definition set_config_file (s : stored) (w : world) : world :=
  World (fs w) s (config_writable w) (config w) (bot_token w)
        (chat_id w) (MIN_INTERVAL_HOURS w) (user_states w) (stdout w) (effects w)
        (io w).

Definition set_config (c : cfg) (w : world) : world :=
  World (fs w) (config_file w) (config_writable w) c (bot_token w)
        (chat_id w) (MIN_INTERVAL_HOURS w) (user_states w) (stdout w) (effects w)
        (io w).

Definition set_credentials (tok chat : option string) (w : world) : world :=
  World (fs w) (config_file w) (config_writable w) (config w) tok
        chat (MIN_INTERVAL_HOURS w) (user_states w) (stdout w) (effects w)
        (io w).

Definition set_MIN_INTERVAL_HOURS (h : Z) (w : world) : world :=
  World (fs w) (config_file w) (config_writable w) (config w) (bot_token w)
        (chat_id w) h (user_states w) (stdout w) (effects w) (io w).

Definition set_user_states (u : gmap Z user_state) (w : world) : world :=
  World (fs w) (config_file w) (config_writable w) (config w) (bot_token w)
        (chat_id w) (MIN_INTERVAL_HOURS w) u (stdout w) (effects w) (io w).

Definition add_stdout (l : logline) (w : world) : world :=
  World (fs w) (config_file w) (config_writable w) (config w) (bot_token w)
        (chat_id w) (MIN_INTERVAL_HOURS w) (user_states w) (stdout w ++ [l])
        (effects w) (io w).

Definition add_effect (e : event) (w : world) : world :=
  World (fs w) (config_file w) (config_writable w) (config w) (bot_token w)
        (chat_id w) (MIN_INTERVAL_HOURS w) (user_states w) (stdout w)
        (effects w ++ [e]) (io w).

Definition set_effects (l : list event) (w : world) : world :=
  World (fs w) (config_file w) (config_writable w) (config w) (bot_token w)
        (chat_id w) (MIN_INTERVAL_HOURS w) (user_states w) (stdout w) l (io w).

Definition set_io (i : io_faults) (w : world) : world :=
  World (fs w) (config_file w) (config_writable w) (config w) (bot_token w)
        (chat_id w) (MIN_INTERVAL_HOURS w) (user_states w) (stdout w)
        (effects w) i.

(** ** Computations over the world *)

Definition M (A : Type) : Type := world → A * world.

Definition ret {A} (x : A) : M A := λ w, (x, w).

Definition bind {A B} (m : M A) (f : A → M B) : M B :=
  λ w, let (a, w') := m w in f a w'.

Declare Scope M_scope.
Delimit Scope M_scope with M.
Bind Scope M_scope with M.

Notation "x ← y ; z" := (bind y (λ x, z))
  (at level 20, y at level 100, z at level 200, only parsing) : M_scope.
Notation "x ;; z" := (bind x (λ _, z))
  (at level 100, z at level 200, only parsing, right associativity) : M_scope.

Definition gets {A} (f : world → A) : M A := λ w, (f w, w).
Definition modify (f : world → world) : M unit := λ w, (tt, f w).
Definition print (l : logline) : M unit := modify (add_stdout l).
Definition emit (e : event) : M unit := modify (add_effect e).

(** A call of the chat API: the request is recorded, and the result
    tells whether the call returned ([true]) or raised ([false]). *)
Definition api_call (e : event) : M bool := λ w,
  (negb (api_raises (io w) (length (effects w))), add_effect e w).

Definition send_message (chat : Z) (t : msg) : M bool :=
  api_call (Send_message chat t).

(** The configuration a reference currently denotes. *)
Definition deref (r : dict_ref) : M cfg :=
  match r with
  | Global_config => gets config
  | Fresh c => ret c
  end.

(** [r['last_backup'] = v] and [r['min_interval_hours'] = v]: an
    assignment through the global object is seen by every holder. *)
Definition with_last_backup (v : Z) (c : cfg) : cfg :=
  Cfg (cfg_bot_token c) (cfg_chat_id c) (Some v) (cfg_min_interval_hours c).

Definition with_min_interval_hours (v : Z) (c : cfg) : cfg :=
  Cfg (cfg_bot_token c) (cfg_chat_id c) (cfg_last_backup c) (Some (Some v)).

Definition setitem (upd : cfg → cfg) (r : dict_ref) : M dict_ref :=
  match r with
  | Global_config =>
      (modify (λ w, set_config (upd (config w)) w);; ret Global_config)%M
  | Fresh c => ret (Fresh (upd c))
  end.

(** ** Local files *)

(** [os.remove(p)]; [false] stands for [OSError]. *)
Definition os_remove (p : string) : M bool := λ w,
  if remove_denied (io w) (Fs.resolve p) then (false, w)
  else
    match Fs.remove (fs w) p with
    | Some f' => (true, set_fs f' w)
    | None => (false, w)
    end.

(** [with open(p, 'wb') as f: f.write(data)]; [false] stands for the
    exception it raises. *)
Definition open_write (p : string) (data : list Byte.byte) (now : Z) : M bool :=
  λ w,
  match write_fault_at (io w) (Fs.resolve p) with
  | No_fault => (true, set_fs (Fs.write (fs w) p data now) w)
  | Cannot_open => (false, w)
  | Fails_after_open partial => (false, set_fs (Fs.write (fs w) p partial now) w)
  end.

(** [os.listdir(d)]; [None] stands for the exception it raises. *)
Definition os_listdir (d : string) : M (option (list string)) :=
  gets (λ w, if listdir_raises (io w) (Fs.resolve d) then None
             else Some (Fs.listdir (fs w) d)).

(** ** Config store *)

Definition load_config : M dict_ref := λ w,
  match config_file w with
  | Missing => (Global_config, w)
  | Parsed c =>
      (Global_config,
       set_credentials (cfg_bot_token c) (cfg_chat_id c) (set_config c w))
  | Malformed => (Fresh empty_config, add_stdout Log_error_reading_config w)
  end.

Definition save_config (config_data : dict_ref) : M bool :=
  (c ← deref config_data;
   writable ← gets config_writable;
   if writable then modify (set_config_file (Parsed c));; ret true
   else
     truncated ← gets (λ w, config_truncated (io w));
     (if truncated then modify (set_config_file Malformed) else ret tt);;
     print Log_error_saving_config;; ret false)%M.

(** ** Backup executor *)

(** What one run of the external backup script does: its exit status,
    what it printed, and the files it left on disk. *)
Record script_run := Script_run {
  sr_returncode : Z;
  sr_stdout : string;
  sr_files : list (string * Fs.file)
}.

(** How [subprocess.run] on the backup script ends: it raises before
    the script runs; it returns (with [check=True], a non-zero status
    is then turned into [CalledProcessError]); or the script runs, and
    [subprocess.run] raises another exception afterwards, as it does
    for output that cannot be decoded. *)
Inductive script_outcome :=
| Script_not_started
| Script_ran (r : script_run)
| Script_raised_after (files : list (string * Fs.file)).

(** What the [curl] upload does: non-zero exit, a reply that is not
    JSON, or a JSON reply with its [ok] field. *)
Inductive curl_run := Curl_failed | Curl_reply_unparsable | Curl_reply (ok : bool).

(** Environment of one backup execution. [now_check], [now_stamp] and
    [now_sweep] are the clock readings of the throttle check, of the
    timestamp update and of the retention sweep. *)
Record backup_env := Backup_env {
  now_check : Z;
  script : script_outcome;
  curl : curl_run;
  now_stamp : Z;
  now_sweep : Z
}.

Definition send_to_telegram (c : curl_run) (file_path bot_token chat_id : string)
  : M bool :=
  (emit (Curl_send_document file_path bot_token chat_id);;
   match c with
   | Curl_failed => print Log_curl_error;; ret false
   | Curl_reply_unparsable => print Log_send_exception;; ret false
   | Curl_reply true => print Log_sent_to_telegram;; ret true
   | Curl_reply false => print Log_telegram_refused;; ret false
   end)%M.

(** [None] stands for the exception that leaves the function:
    [OverflowError] when the recorded timestamp or the interval in
    seconds is an [int] too large for a float, [TypeError] when the
    interval is [null]. *)
Definition check_backup_interval (now : Z) (config_data : dict_ref)
  : M (option bool) :=
  (c ← deref config_data;
   fallback ← gets MIN_INTERVAL_HOURS;
   let last_backup := cfg_last_backup c in
   let min_interval_hours := default (Some fallback) (cfg_min_interval_hours c) in
   match last_backup with
   | Some last_backup =>
       if Py.truthy_num last_backup then
         let current_time := now in
         if negb (Py.fits_float last_backup) then ret None
         else
           let time_diff := current_time - last_backup in
           match min_interval_hours with
           | None => ret None
           | Some min_interval_hours =>
               let min_interval_seconds := min_interval_hours * 3600 in
               if time_diff <? min_interval_seconds then
                 if negb (Py.fits_float min_interval_seconds) then ret None
                 else
                   let remaining_time := min_interval_seconds - time_diff in
                   let hours := remaining_time / 3600 in
                   let minutes := (remaining_time mod 3600) / 60 in
                   print (Log_last_backup_recent min_interval_hours);;
                   print (Log_time_remaining hours minutes);;
                   ret (Some false)
               else ret (Some true)
           end
       else ret (Some true)
   | None => ret (Some true)
   end)%M.

(** The value of [backup_file_path] after the scan of the script's
    output: what follows the equals sign on the first line that starts
    with the marker, or [None]. *)
Definition find_backup_file_path (out : string) : option string :=
  match List.find (λ line, Py.startswith line "BACKUP_FILE_PATH=")
                  (Py.split "010" out) with
  | Some line => Py.split1_snd "=" line
  | None => None
  end.

(** [backup_file_path and os.path.exists(..) and os.path.getsize(..) > 0];
    on success, the path and the size. *)
Definition artifact_valid (f : gmap (list string) Fs.file)
    (backup_file_path : option string) : option (string * Z) :=
  match backup_file_path with
  | Some p =>
      if Py.truthy_str p && Fs.exists_ f p then
        match Fs.getsize f p with
        | Some size => if 0 <? size then Some (p, size) else None
        | None => None
        end
      else None
  | None => None
  end.

Definition write_all (files : list (string * Fs.file))
    (f : gmap (list string) Fs.file) : gmap (list string) Fs.file :=
  fold_left (λ acc pf, <[Fs.resolve pf.1 := pf.2]> acc) files f.

(** The loop over the names [os.listdir(BACKUP_DIR)] returned; [false]
    stands for an exception leaving the loop. *)
Fixpoint sweep (cutoff_time : Z) (names : list string) : M bool :=
  match names with
  | [] => ret true
  | filename :: rest =>
      if Py.endswith filename ".dump.gz" then
        let file_path := Py.os_path_join BACKUP_DIR filename in
        (mtime ← gets (λ w, Fs.getmtime (fs w) file_path);
         match mtime with
         | Some t =>
             if t <? cutoff_time then
               removed ← os_remove file_path;
               if removed then print (Log_deleted_old filename);; sweep cutoff_time rest
               else ret false
             else sweep cutoff_time rest
         | None => ret false
         end)%M
      else sweep cutoff_time rest
  end.

(** [None] stands for an exception that leaves the function: the one
    of the throttle check, which is made outside the [try]. *)
Definition run_backup_process (e : backup_env) (force : bool) : M (option bool) :=
  (config_data ← load_config;
   c ← deref config_data;
   let bot_token_local := cfg_bot_token c in
   let chat_id_local := cfg_chat_id c in
   proceed ← (if force then ret (Some true)
              else check_backup_interval (now_check e) config_data);
   match proceed with
   | None => ret None
   | Some false => ret (Some false)
   | Some true =>
     print Log_starting_backup;;
     emit Run_backup_script;;
     match script e with
     | Script_not_started => print Log_backup_exception;; ret (Some false)
     | Script_raised_after files =>
         modify (λ w, set_fs (write_all files (fs w)) w);;
         print Log_backup_exception;; ret (Some false)
     | Script_ran r =>
         modify (λ w, set_fs (write_all (sr_files r) (fs w)) w);;
         if negb (sr_returncode r =? 0) then print Log_script_error;; ret (Some false)
         else
           let backup_file_path := find_backup_file_path (sr_stdout r) in
           valid ← gets (λ w, artifact_valid (fs w) backup_file_path);
           match valid with
           | Some (path, file_size) =>
               print (Log_backup_created path file_size);;
               (if Py.truthy_opt_str bot_token_local
                   && Py.truthy_opt_str chat_id_local
                then
                  print Log_sending_file;;
                  sent ← send_to_telegram (curl e) path
                           (Py.str_opt bot_token_local) (Py.str_opt chat_id_local);
                  if sent then
                    cd ← setitem (with_last_backup (now_stamp e)) config_data;
                    save_config cd;; ret tt
                  else print Log_send_failed_not_updated
                else
                  print Log_settings_not_found;;
                  cd ← setitem (with_last_backup (now_stamp e)) config_data;
                  save_config cd;; ret tt);;
               print (Log_deleting_local path);;
               removed ← os_remove path;
               (if removed then print Log_local_deleted
                else print (Log_error_deleting_local path));;
               print Log_deleting_old;;
               let cutoff_time := now_sweep e - RETENTION_DAYS * 86400 in
               names ← os_listdir BACKUP_DIR;
               match names with
               | Some names =>
                   swept ← sweep cutoff_time names;
                   if swept then print Log_cleanup_done;; ret (Some true)
                   else print Log_backup_exception;; ret (Some false)
               | None => print Log_backup_exception;; ret (Some false)
               end
           | None => print Log_backup_not_created;; ret (Some false)
           end
     end
   end)%M.


(** ** Restore process *)

Definition FLUSH_THRESHOLD : nat := 3500.

(** How the [while True] loop ends once the reads delivered so far have
    been handled: [read] returns nothing and the process has exited,
    after which [process.stderr.read()] returns the error stream
    ([None] when that read raises) and the exit status is known; or
    [read] raises, as it does for output that cannot be decoded; or
    [read] never returns, the script being stuck. Nobody empties the
    pipe of its standard error while the loop runs: a script that
    writes more to it than the pipe holds is stuck there and never
    exits, so that its run ends with [Loop_blocks], whatever it prints
    before. *)
Inductive loop_end :=
| Loop_eof (stderr_output : option text) (returncode : Z)
| Loop_read_raises
| Loop_blocks.

(** What happens once [subprocess.Popen] is called: it raises (the
    shell cannot be started), or the script runs: what it has done to
    the file system, the successive results of
    [process.stdout.read(1000)] that were delivered, and how the loop
    ends. With [shell=True] a script that is missing or fails does not
    make [Popen] raise: such a run ends with [Loop_eof] and a non-zero
    exit status. *)
Inductive popen_outcome :=
| Popen_failed
| Popen_ran (changes : gmap (list string) Fs.file → gmap (list string) Fs.file)
            (reads : list text) (ending : loop_end).

(** How the body of a thread ends. *)
Inductive thread_end := Thread_returns | Thread_raises | Thread_hangs.

Definition nonempty {A} (l : list A) : bool :=
  match l with [] => false | _ => true end.

(** The [while True] loop: the buffer that is left when the reads are
    used up; [None] stands for the exception of a send that raises. *)
Fixpoint stream_loop (limit : nat) (chat : Z) (reads : list text)
    (output_buffer : text) : M (option text) :=
  match reads with
  | [] => ret (Some output_buffer)
  | output :: rest =>
      if nonempty output then
        let output_buffer := output_buffer ++ output in
        if (limit <=? length output_buffer)%nat then
          (sent ← send_message chat (Code_block (take limit output_buffer));
           if sent then stream_loop limit chat rest (drop limit output_buffer)
           else ret None)%M
        else stream_loop limit chat rest output_buffer
      else stream_loop limit chat rest output_buffer
  end.

(** The [except] clause of [run_restore_process]. *)
Definition restore_failed (file_path : string) (chat : Z) : M thread_end :=
  (sent ← send_message chat Restore_exception_msg;
   if sent then _ ← os_remove file_path; ret Thread_returns
   else ret Thread_raises)%M.

(** What follows the loop inside the [try]. *)
Definition restore_report (file_path : string) (chat : Z)
    (output_buffer : text) (stderr_output : option text) (returncode : Z)
  : M thread_end :=
  (sent ← (if nonempty output_buffer
           then send_message chat (Code_block output_buffer)
           else ret true);
   if negb sent then restore_failed file_path chat
   else
     match stderr_output with
     | None => restore_failed file_path chat
     | Some stderr_output =>
         sent ← (if nonempty stderr_output
                 then send_message chat (Stderr_msg stderr_output)
                 else ret true);
         if negb sent then restore_failed file_path chat
         else
           sent ← (if returncode =? 0
                   then send_message chat Restore_success_msg
                   else send_message chat (Restore_error_msg returncode));
           if negb sent then restore_failed file_path chat
           else
             removed ← os_remove file_path;
             (if removed then print (Log_temp_deleted file_path)
              else print Log_temp_delete_error);;
             ret Thread_returns
     end)%M.

(** [run_restore_process] with flush threshold [limit]: 3500 in
    [bot.py], 4000 in [main.py]. *)
Definition run_restore_process_with (limit : nat) (p : popen_outcome)
    (file_path : string) (chat : Z) : M thread_end :=
  (emit (Popen_restore_script file_path);;
   match p with
   | Popen_failed => restore_failed file_path chat
   | Popen_ran changes reads ending =>
       modify (λ w, set_fs (changes (fs w)) w);;
       output_buffer ← stream_loop limit chat reads [];
       match output_buffer with
       | None => restore_failed file_path chat
       | Some output_buffer =>
           match ending with
           | Loop_eof stderr_output returncode =>
               restore_report file_path chat output_buffer
                 stderr_output returncode
           | Loop_read_raises => restore_failed file_path chat
           | Loop_blocks => ret Thread_hangs
           end
       end
   end)%M.

Definition run_restore_process : popen_outcome → string → Z → M thread_end :=
  run_restore_process_with FLUSH_THRESHOLD.

(** ** Command router *)

(** An inbound chat message: [message.chat.id], [message.text] (read by
    the command handlers) and [message.document.file_name] (read by the
    document handler). A command carries a text; a document is taken
    to carry a file name. *)
Record message := Message {
  msg_chat_id : Z;
  msg_text : string;
  msg_file_name : string
}.

(** [str(message.chat.id) == str(chat_id)] *)
Definition authorized (m : message) : M bool :=
  gets (λ w, bool_decide (pretty (msg_chat_id m) = Py.str_opt (chat_id w))).

Definition reply_to (m : message) (t : msg) : M bool :=
  api_call (Reply_to (msg_chat_id m) t).

(** A handler ends when a call of the chat API raises outside a [try];
    where the reply is the last statement of its branch, the handler
    ends with it either way. *)
Definition handle_backup_command (m : message) : M unit :=
  (ok ← authorized m;
   if negb ok then reply_to m Unauthorized_msg;; ret tt
   else
     sent ← reply_to m Backup_start_msg;
     if sent then emit (Thread_start (Run_backup_and_notify (msg_chat_id m)))
     else ret tt)%M.

(** [renders] tells whether [datetime.fromtimestamp] accepts the
    recorded timestamp, which depends on the platform and its time
    zone; when it does not, or when the timestamp is an [int] too large
    for a float, the handler ends with the exception. *)
Definition handle_status_command (now : Z) (renders : bool) (m : message)
  : M unit :=
  (ok ← authorized m;
   if negb ok then reply_to m Unauthorized_msg;; ret tt
   else
     config_data ← load_config;
     c ← deref config_data;
     fallback ← gets MIN_INTERVAL_HOURS;
     let last_backup := cfg_last_backup c in
     let min_interval := default (Some fallback) (cfg_min_interval_hours c) in
     match last_backup with
     | Some t =>
         if Py.truthy_num t then
           if renders && Py.fits_float t
           then reply_to m (Status_msg (Some t) now min_interval);; ret tt
           else ret tt
         else reply_to m (Status_msg None now min_interval);; ret tt
     | None => reply_to m (Status_msg None now min_interval);; ret tt
     end)%M.

(** What the validation of [/time] finds in [message.text]: no second
    word or one that is not made of digits; a numeral and its value; or
    a word of digits that [int] rejects with [ValueError]. *)
Inductive time_arg := No_number | Number (n : Z) | Bad_number.

Definition time_argument (text : string) : time_arg :=
  let parts := Py.split_ws (Py.decode text) in
  match parts with
  | _ :: arg :: _ =>
      if negb (Py.isdigit arg) then No_number
      else match Py.int arg with
           | Some new_interval => Number new_interval
           | None => Bad_number
           end
  | _ => No_number
  end.

Definition handle_time_command (m : message) : M unit :=
  (ok ← authorized m;
   if negb ok then reply_to m Unauthorized_msg;; ret tt
   else
     match time_argument (msg_text m) with
     | No_number => reply_to m Help_msg;; ret tt
     | Bad_number => ret tt
     | Number new_interval =>
         if new_interval <=? 0 then reply_to m Value_error_msg;; ret tt
         else
           config_data ← load_config;
           config_data ← setitem (with_min_interval_hours new_interval) config_data;
           saved ← save_config config_data;
           if saved then
             modify (set_MIN_INTERVAL_HOURS new_interval);;
             reply_to m (Time_success_msg new_interval);; ret tt
           else reply_to m Save_error_msg;; ret tt
     end)%M.

(** From [main.py], lines 397-415. *)
Definition handle_restore_command (m : message) : M unit :=
  (ok ← authorized m;
   if negb ok then reply_to m Unauthorized_msg;; ret tt
   else
     modify (λ w, set_user_states (<[msg_chat_id m := Waiting_restore]> (user_states w)) w);;
     reply_to m Guide_msg;; ret tt)%M.

(** [user_states.get(chat) == 'waiting_restore'] *)
Definition waiting (chat : Z) : M bool :=
  gets (λ w, bool_decide (user_states w !! chat = Some Waiting_restore)).

Definition handle_cancel_command (m : message) : M unit :=
  (ok ← authorized m;
   if negb ok then reply_to m Unauthorized_msg;; ret tt
   else
     wait ← waiting (msg_chat_id m);
     if wait then
       modify (λ w, set_user_states (<[msg_chat_id m := State_None]> (user_states w)) w);;
       reply_to m Cancel_msg;; ret tt
     else reply_to m No_operation_msg;; ret tt)%M.

(** What the chat service does with the attachment of a document
    message: [bot.get_file] raises; [bot.get_file] returns and
    [bot.download_file] raises; or both return, with the content. *)
Inductive attachment :=
| Get_file_raises
| Download_raises
| Downloaded (downloaded_file : list Byte.byte).

(** The body of the [try] of [handle_document], and its [except]
    clause; [now] is the clock when the file is written. *)
Definition receive_document (download : attachment) (now : Z) (m : message)
  : M unit :=
  let file_name := msg_file_name m in
  match download with
  | Downloaded downloaded_file =>
      let file_path := Py.os_path_join TEMP_DIR file_name in
      (written ← open_write file_path downloaded_file now;
       if written then
         modify (λ w, set_user_states (<[msg_chat_id m := State_None]> (user_states w)) w);;
         let file_size := length downloaded_file in
         sent ← reply_to m (Start_restore_msg file_name file_size);
         if sent
         then emit (Thread_start (Run_restore_process file_path (msg_chat_id m)))
         else reply_to m Download_error_msg;; ret tt
       else reply_to m Download_error_msg;; ret tt)%M
  | _ => (reply_to m Download_error_msg;; ret tt)%M
  end.

Definition handle_document (download : attachment) (now : Z) (m : message)
  : M unit :=
  (ok ← authorized m;
   if negb ok then ret tt
   else
     wait ← waiting (msg_chat_id m);
     if negb wait then ret tt
     else
       match download with
       | Get_file_raises => ret tt
       | _ =>
           let file_name := msg_file_name m in
           if negb (Py.endswith file_name ".bak" || Py.endswith file_name ".dump.gz")
           then reply_to m Invalid_format_msg;; ret tt
           else receive_document download now m
       end)%M.

(** The configuration an operation works with: what [load_config]
    hands back in world [w]. *)
Definition loaded_config (w : world) : cfg :=
  (bind load_config deref w).1.

(** ** Sample worlds *)

Definition sample_config : cfg :=
  Cfg (Some "123:abc") (Some "42") (Some 1000000) (Some (Some 2)).

(** A freshly started process next to a well-formed configuration
    file. *)
Definition sample_world : world :=
  World ∅ (Parsed sample_config) true empty_config None None
        DEFAULT_MIN_INTERVAL_HOURS ∅ [] [] no_faults.

(** The configuration file has disappeared after it was loaded once. *)
Definition stale_world : world :=
  World ∅ Missing true sample_config (Some "123:abc") (Some "42")
        DEFAULT_MIN_INTERVAL_HOURS ∅ [] [] no_faults.

Definition malformed_world : world :=
  World ∅ Malformed true sample_config (Some "123:abc") (Some "42")
        DEFAULT_MIN_INTERVAL_HOURS ∅ [] [] no_faults.

Definition new_artifact : string := "/tmp/ibsng_backup_files/new.dump.gz".

Definition sample_script : script_run :=
  Script_run 0 ("Backup done" +:+ String "010" ("BACKUP_FILE_PATH=" +:+ new_artifact))
             [(new_artifact, Fs.File [Byte.x1f; Byte.x8b] 1003600)].

(** One hour after the last backup of [sample_config]. *)
Definition sample_env : backup_env :=
  Backup_env 1003600 (Script_ran sample_script) (Curl_reply true) 1003610 1003620.

(** The script writes its artifact and prints output that
    [subprocess.run] cannot decode. *)
Definition undecodable_env : backup_env :=
  Backup_env 1003600
    (Script_raised_after [(new_artifact, Fs.File [Byte.x1f; Byte.x8b] 1003600)])
    (Curl_reply true) 1003610 1003620.

(** ** The blocks of [run_backup_process], named for the proofs *)

(** The body of the inner [try]: upload, and the timestamp update. *)
Definition upload_block (e : backup_env) (c : cfg) (config_data : dict_ref)
    (path : string) : M unit :=
  (if Py.truthy_opt_str (cfg_bot_token c) && Py.truthy_opt_str (cfg_chat_id c)
   then
     print Log_sending_file;;
     sent ← send_to_telegram (curl e) path
              (Py.str_opt (cfg_bot_token c)) (Py.str_opt (cfg_chat_id c));
     if sent then
       cd ← setitem (with_last_backup (now_stamp e)) config_data;
       save_config cd;; ret tt
     else print Log_send_failed_not_updated
   else
     print Log_settings_not_found;;
     cd ← setitem (with_last_backup (now_stamp e)) config_data;
     save_config cd;; ret tt)%M.

(** The retention sweep, from the listing of the directory on. *)
Definition sweep_block (e : backup_env) : M (option bool) :=
  (let cutoff_time := now_sweep e - RETENTION_DAYS * 86400 in
   names ← os_listdir BACKUP_DIR;
   match names with
   | Some names =>
       swept ← sweep cutoff_time names;
       if swept then print Log_cleanup_done;; ret (Some true)
       else print Log_backup_exception;; ret (Some false)
   | None => print Log_backup_exception;; ret (Some false)
   end)%M.

(** The [finally] clause and the retention sweep. *)
Definition cleanup_block (e : backup_env) (path : string) : M (option bool) :=
  (print (Log_deleting_local path);;
   removed ← os_remove path;
   (if removed then print Log_local_deleted
    else print (Log_error_deleting_local path));;
   print Log_deleting_old;;
   sweep_block e)%M.

(** Everything after the throttle check. *)
Definition after_throttle (e : backup_env) (c : cfg) (config_data : dict_ref)
  : M (option bool) :=
  (print Log_starting_backup;;
   emit Run_backup_script;;
   match script e with
   | Script_not_started => print Log_backup_exception;; ret (Some false)
   | Script_raised_after files =>
       modify (λ w, set_fs (write_all files (fs w)) w);;
       print Log_backup_exception;; ret (Some false)
   | Script_ran r =>
       modify (λ w, set_fs (write_all (sr_files r) (fs w)) w);;
       if negb (sr_returncode r =? 0) then print Log_script_error;; ret (Some false)
       else
         valid ← gets (λ w, artifact_valid (fs w)
                              (find_backup_file_path (sr_stdout r)));
         match valid with
         | Some (path, file_size) =>
             print (Log_backup_created path file_size);;
             upload_block e c config_data path;;
             cleanup_block e path
         | None => print Log_backup_not_created;; ret (Some false)
         end
   end)%M.

(** ** Vocabulary of the claims about a backup cycle *)

(** The start of a cycle, up to the verdict of the throttle check. *)
Definition throttle (e : backup_env) (force : bool) : M (option bool) :=
  bind load_config
    (λ config_data, if force then ret (Some true)
                    else check_backup_interval (now_check e) config_data).

(** The execution gets past the throttle check. *)
Definition proceeds (e : backup_env) (force : bool) (w : world) : bool :=
  match (throttle e force w).1 with
  | Some true => true
  | _ => false
  end.

(** The artifact the script produced, as the executor validates it:
    exit status zero, a marker line, and a non-empty file at the path
    the marker names. *)
Definition produced_artifact (e : backup_env) (w : world) : option (string * Z) :=
  match script e with
  | Script_ran r =>
      if sr_returncode r =? 0
      then artifact_valid (write_all (sr_files r) (fs w))
                          (find_backup_file_path (sr_stdout r))
      else None
  | _ => None
  end.

Definition credentials_configured (w : world) : bool :=
  Py.truthy_opt_str (cfg_bot_token (loaded_config w))
  && Py.truthy_opt_str (cfg_chat_id (loaded_config w)).

Definition upload_succeeded (e : backup_env) : bool :=
  match curl e with Curl_reply true => true | _ => false end.

(** The upload was brought to completion: it succeeded, or there were
    no credentials to attempt it with. *)
Definition upload_completed (e : backup_env) (w : world) : bool :=
  if credentials_configured w then upload_succeeded e else true.

(** The retention horizon of a cycle. *)
Definition cutoff_of (e : backup_env) : Z := now_sweep e - RETENTION_DAYS * 86400.

(** Location of the entry [name] of the backup directory. *)
Definition backup_entry (name : string) : list string :=
  Fs.resolve BACKUP_DIR ++ [name].

(** As [sample_world], but the configuration file cannot be written
    ([open] raises), and as [sample_world], but writing it fails once
    the file has been emptied. *)
Definition readonly_world : world :=
  World ∅ (Parsed sample_config) false empty_config None None
        DEFAULT_MIN_INTERVAL_HOURS ∅ [] [] no_faults.

Definition full_disk : io_faults :=
  Io_faults (λ _, false) (λ _, false) (λ _, No_fault) (λ _, false) true.

Definition full_disk_world : world :=
  World ∅ (Parsed sample_config) false empty_config None None
        DEFAULT_MIN_INTERVAL_HOURS ∅ [] [] full_disk.

(** As [sample_env], but the chat endpoint refuses the upload. *)
Definition refused_env : backup_env :=
  Backup_env 1003600 (Script_ran sample_script) (Curl_reply false) 1003610 1003620.

(** An entry the sweep deletes: listed, carrying the backup suffix, and
    last modified before the horizon. *)
Definition doomed (cutoff : Z) (names : list string) (k : list string)
    (f : Fs.file) : Prop :=
  ∃ n, n ∈ names ∧ k = backup_entry n
       ∧ Py.endswith n ".dump.gz" = true ∧ Fs.f_mtime f < cutoff.

(** The file system once the script has run. *)
Definition script_writes (e : backup_env) (f : gmap (list string) Fs.file)
  : gmap (list string) Fs.file :=
  match script e with
  | Script_ran r => write_all (sr_files r) f
  | Script_raised_after files => write_all files f
  | Script_not_started => f
  end.

(** [f], stored at location [k], is a file of the backup directory with
    the backup suffix whose modification time is older than the
    retention horizon of the cycle. *)
Definition expired (e : backup_env) (k : list string) (f : Fs.file) : Prop :=
  ∃ n, Fs.simple n = true ∧ k = backup_entry n
       ∧ Py.endswith n ".dump.gz" = true ∧ Fs.f_mtime f < cutoff_of e.

(** The file system when the retention sweep begins: the script has
    run, and the artifact at [path] has been removed unless its removal
    is denied. *)
Definition before_sweep (e : backup_env) (w : world) (path : string)
  : gmap (list string) Fs.file :=
  if remove_denied (io w) (Fs.resolve path)
  then script_writes e (fs w)
  else delete (Fs.resolve path) (script_writes e (fs w)).

(** The retention sweep meets no obstacle: the backup directory can be
    listed, and no expired file in it is denied removal. *)
Definition sweep_unhindered (e : backup_env) (w : world) (path : string) : Prop :=
  listdir_raises (io w) (Fs.resolve BACKUP_DIR) = false
  ∧ ∀ k f, before_sweep e w path !! k = Some f → expired e k f →
           remove_denied (io w) k = false.

(** The world once the throttle check has been made. *)
Definition throttle_world (e : backup_env) (force : bool) (w : world) : world :=
  (throttle e force w).2.




(** Nothing can be removed from the backup directory. *)
Definition locked_backup_dir : io_faults :=
  Io_faults (λ _, false)
            (λ k, bool_decide (take 2 k = Fs.resolve BACKUP_DIR))
            (λ _, No_fault) (λ _, false) false.

Definition locked_world : world :=
  World ∅ (Parsed sample_config) true empty_config None None
        DEFAULT_MIN_INTERVAL_HOURS ∅ [] [] locked_backup_dir.





(** ** Vocabulary of the claims about the chat handlers *)

(** Every call of the chat API returns: none raises, as a call does
    when the service cannot be reached or refuses the text, one longer
    than it allows for instance. *)
Definition api_reliable (w : world) : Prop :=
  ∀ k, api_raises (io w) k = false.

(** The next call of the chat API returns. *)
Definition next_call_returns (w : world) : Prop :=
  api_raises (io w) (length (effects w)) = false.

(** The restore session of a chat, as the specification names it. *)
Inductive session := Idle | WaitingForFile.

Definition session_of (w : world) (chat : Z) : session :=
  if bool_decide (user_states w !! chat = Some Waiting_restore)
  then WaitingForFile else Idle.

(** What the chat client routes to a handler: one of the five commands,
    or a document. The status command reads the clock and renders the
    recorded timestamp; a document comes with what the chat service
    does with its attachment and the clock at the write. *)
Inductive inbound :=
| Backup_command
| Status_command (now : Z) (renders : bool)
| Time_command
| Restore_command
| Cancel_command
| Document_received (download : attachment) (now : Z).

Definition dispatch (i : inbound) (m : message) : M unit :=
  match i with
  | Backup_command => handle_backup_command m
  | Status_command now renders => handle_status_command now renders m
  | Time_command => handle_time_command m
  | Restore_command => handle_restore_command m
  | Cancel_command => handle_cancel_command m
  | Document_received download now => handle_document download now m
  end.

(** A file name the document handler accepts. *)
Definition valid_suffix (file_name : string) : bool :=
  Py.endswith file_name ".bak" || Py.endswith file_name ".dump.gz".

(** The bot after start-up: [load_config] has run once. *)
Definition running_world : world :=
  World ∅ (Parsed sample_config) true sample_config (Some "123:abc") (Some "42")
        DEFAULT_MIN_INTERVAL_HOURS ∅ [] [] no_faults.

(** The same bot while chat 42 is expected to send a backup file. *)
Definition awaiting_world : world :=
  World ∅ (Parsed sample_config) true sample_config (Some "123:abc") (Some "42")
        DEFAULT_MIN_INTERVAL_HOURS {[ 42 := Waiting_restore ]} [] [] no_faults.


(** The temporary directory is gone: no file can be opened in it. *)
Definition no_temp_dir : io_faults :=
  Io_faults (λ _, false) (λ _, false)
            (λ k, if bool_decide (take 2 k = Fs.resolve TEMP_DIR)
                  then Cannot_open else No_fault)
            (λ _, false) false.

Definition awaiting_world_without_temp_dir : world :=
  World ∅ (Parsed sample_config) true sample_config (Some "123:abc") (Some "42")
        DEFAULT_MIN_INTERVAL_HOURS {[ 42 := Waiting_restore ]} [] [] no_temp_dir.

Definition owner_message (text file_name : string) : message :=
  Message 42 text file_name.

Definition intruder_message (text file_name : string) : message :=
  Message 666 text file_name.

(** ** Vocabulary of the claim about the restore file *)

(** Where the document handler writes a document named [file_name]. *)
Definition restore_location (file_name : string) : list string :=
  Fs.resolve (Py.os_path_join TEMP_DIR file_name).

(** The name has more than one component when cut at the path
    separator. *)
Definition has_separator (file_name : string) : bool :=
  match Py.split "/" file_name with
  | [_] => false
  | _ => true
  end.

(** The document handler accepts the message in world [w]: authorized
    sender, session waiting for a file, valid suffix. *)
Definition accepted (m : message) (w : world) : Prop :=
  (authorized m w).1 = true
  ∧ session_of w (msg_chat_id m) = WaitingForFile
  ∧ valid_suffix (msg_file_name m) = true.

(** The file of the document can be written in world [w]. *)
Definition writable_at (w : world) (file_name : string) : Prop :=
  write_fault_at (io w) (restore_location file_name) = No_fault.

(** ** Vocabulary of the claim about streamed output *)

(** [len(s)] *)
Definition len {A} (l : list A) : Z := Z.of_nat (length l).

Definition code_messages (chat : Z) (chunks : list text) : list event :=
  map (λ c, Send_message chat (Code_block c)) chunks.

(** What [run_restore_process] sends once the output has been relayed:
    the error stream if there is any, then the verdict. *)
Definition closing_messages (chat : Z) (stderr_output : text) (returncode : Z)
  : list event :=
  (if nonempty stderr_output
   then [Send_message chat (Stderr_msg stderr_output)] else [])
  ++ [Send_message chat (if returncode =? 0 then Restore_success_msg
                         else Restore_error_msg returncode)].

(** The rest of the buffer, sent when it is not empty. *)
Definition remainder_message (chat : Z) (remainder : text) : list event :=
  if nonempty remainder then [Send_message chat (Code_block remainder)] else [].

(** What [run_restore_process] sends after the full chunks, by the way
    the loop ends, when every send returns. *)
Definition after_loop (chat : Z) (remainder : text) (ending : loop_end)
  : list event :=
  match ending with
  | Loop_eof (Some stderr_output) returncode =>
      remainder_message chat remainder
      ++ closing_messages chat stderr_output returncode
  | Loop_eof None _ =>
      remainder_message chat remainder
      ++ [Send_message chat Restore_exception_msg]
  | Loop_read_raises => [Send_message chat Restore_exception_msg]
  | Loop_blocks => []
  end.

(** How the restore thread ends when every send returns. *)
Definition end_of_thread (p : popen_outcome) : thread_end :=
  match p with
  | Popen_ran _ _ Loop_blocks => Thread_hangs
  | _ => Thread_returns
  end.

(** The files once the restore script has done its work. *)
Definition files_after_script (p : popen_outcome)
    (f : gmap (list string) Fs.file) : gmap (list string) Fs.file :=
  match p with
  | Popen_failed => f
  | Popen_ran changes _ _ => changes f
  end.

(** Nine reads of a thousand characters each. *)
Definition nine_thousand : list text :=
  replicate 9 (replicate 1000 "x"%char).

(** Three artifacts aged zero, two and four days at the sweep of
    [sample_env]. *)
Definition aged_world : world :=
  World (<[ backup_entry "day0.dump.gz" := Fs.File [Byte.x1f] 1003620 ]>
         (<[ backup_entry "day2.dump.gz" := Fs.File [Byte.x1f] 830820 ]>
          (<[ backup_entry "day4.dump.gz" := Fs.File [Byte.x1f] 658020 ]> ∅)))
        (Parsed sample_config) true empty_config None None
        DEFAULT_MIN_INTERVAL_HOURS ∅ [] [] no_faults.

(** ** The throttle check of [main.py] *)

(** [check_backup_interval] as [main.py] has it: the interval is the
    global [MIN_INTERVAL_HOURS], whatever the configuration holds. *)
Definition check_backup_interval_main (now : Z) (config_data : dict_ref)
  : M (option bool) :=
  (c ← deref config_data;
   MIN_INTERVAL_HOURS_now ← gets MIN_INTERVAL_HOURS;
   let last_backup := cfg_last_backup c in
   match last_backup with
   | Some last_backup =>
       if Py.truthy_num last_backup then
         let current_time := now in
         if negb (Py.fits_float last_backup) then ret None
         else
           let time_diff := current_time - last_backup in
           let min_interval := MIN_INTERVAL_HOURS_now * 3600 in
           if time_diff <? min_interval then
             if negb (Py.fits_float min_interval) then ret None
             else
               let remaining_time := min_interval - time_diff in
               let hours := remaining_time / 3600 in
               let minutes := (remaining_time mod 3600) / 60 in
               print (Log_last_backup_recent MIN_INTERVAL_HOURS_now);;
               print (Log_time_remaining hours minutes);;
               ret (Some false)
           else ret (Some true)
       else ret (Some true)
   | None => ret (Some true)
   end)%M.

(** What [config_data.get('min_interval_hours', MIN_INTERVAL_HOURS)]
    returns: the configured interval, [None] for [null], or the global
    one when the key is absent. *)
Definition interval_setting (c : cfg) (w : world) : option Z :=
  default (Some (MIN_INTERVAL_HOURS w)) (cfg_min_interval_hours c).

(** The interval, in hours, that the throttle of [bot.py] applies to a
    configuration: its own, or the global one when the key is absent
    (and zero, for want of a number, when it is [null]). *)
Definition interval_hours (c : cfg) (w : world) : Z :=
  default 0 (interval_setting c w).

(** A configuration file written by hand, without an interval, and one
    with an interval of [null]. *)
Definition bare_config : cfg := Cfg (Some "123:abc") (Some "42") (Some 1000000) None.

Definition bare_world : world :=
  World ∅ (Parsed bare_config) true empty_config None None
        DEFAULT_MIN_INTERVAL_HOURS ∅ [] [] no_faults.

Definition null_config : cfg :=
  Cfg (Some "123:abc") (Some "42") (Some 1000000) (Some None).

(** ** Vocabulary of the further properties of a backup cycle *)

(** The upload a cycle requests: of the artifact, with the credentials
    of the loaded configuration, and only when both are there. *)
Definition upload_request (e : backup_env) (w : world) : list event :=
  match produced_artifact e w with
  | Some (path, _) =>
      if credentials_configured w
      then [Curl_send_document path
              (Py.str_opt (cfg_bot_token (loaded_config w)))
              (Py.str_opt (cfg_chat_id (loaded_config w)))]
      else []
  | None => []
  end.

(** Lines joined by newlines, as a script prints them. *)
Fixpoint unlines (ls : list string) : string :=
  match ls with
  | [] => EmptyString
  | [l] => l
  | l :: rest => l +:+ String "010" (unlines rest)
  end.

Definition MARKER : string := "BACKUP_FILE_PATH=".

(** A line: a string without newline. *)
Definition is_line (l : string) : Prop := Py.split "010" l = [l].

(** ** Vocabulary of the proofs about files *)

(** What a write of the configuration file leaves on disk. *)
Definition after_save (w : world) (c : cfg) : stored :=
  if config_writable w then Parsed c
  else if config_truncated (io w) then Malformed
  else config_file w.

(** No listed file that is to be deleted is denied removal. *)
Definition unhindered (cutoff : Z) (names : list string) (w : world) : Prop :=
  ∀ k f, fs w !! k = Some f → doomed cutoff names k f →
         remove_denied (io w) k = false.

(** Whether the retention sweep goes through in world [w], from the
    listing on. *)
Definition sweep_goes_through (e : backup_env) (w : world) : Prop :=
  listdir_raises (io w) (Fs.resolve BACKUP_DIR) = false
  ∧ ∀ k f, fs w !! k = Some f → expired e k f → remove_denied (io w) k = false.

(** What a cycle that produced an artifact does to the files: the
    verdict of the sweep, and the files it leaves. *)
Record swept (e : backup_env) (w : world) (path : string)
    (result : option bool) (after : gmap (list string) Fs.file) : Prop := Swept {
  swept_result : result = Some true ↔ sweep_unhindered e w path;
  swept_returns : result = Some true ∨ result = Some false;
  swept_files : result = Some true →
    ∀ k f, after !! k = Some f
           ↔ before_sweep e w path !! k = Some f ∧ ¬ expired e k f;
  swept_only_deletes : ∀ k, before_sweep e w path !! k = None → after !! k = None;
  swept_keeps_denied : ∀ k f, before_sweep e w path !! k = Some f →
    remove_denied (io w) k = true → after !! k = Some f;
  swept_not_listed : listdir_raises (io w) (Fs.resolve BACKUP_DIR) = true →
    after = before_sweep e w path
}.

(** The files a restore thread leaves, when every send returns. *)
Definition files_after_restore (p : popen_outcome) (path : string) (w : world)
  : gmap (list string) Fs.file :=
  match end_of_thread p with
  | Thread_returns =>
      if remove_denied (io w) (Fs.resolve path)
      then files_after_script p (fs w)
      else delete (Fs.resolve path) (files_after_script p (fs w))
  | _ => files_after_script p (fs w)
  end.

(** ** Vocabulary of the proofs about effects *)

(** A computation appends to the record of external effects and never
    rewrites it. *)
Definition appends {A} (m : M A) : Prop :=
  ∀ w, ∃ rest, effects (m w).2 = effects w ++ rest.

(** A computation leaves the observation [f] of the world alone. *)
Definition preserves {A X} (f : world → X) (m : M A) : Prop :=
  ∀ w, f (m w).2 = f w.

(** Whatever a computation adds to the effects satisfies [P]. *)
Definition sends_only (P : event → Prop) {A} (m : M A) : Prop :=
  ∀ w, ∃ sent, effects (m w).2 = effects w ++ sent ∧ Forall P sent.

(** * The scheduled thread *)

(** [backup_polling_thread] of [bot.py] and [main.py]: check, run an
    unforced backup, then sleep one second at a time for the poll
    interval, looking at [shutdown_flag] before every second and before
    every check.  The flag is raised from outside (by [signal_handler])
    at a moment the thread cannot know, so what each look at it finds is
    given by an oracle indexed by the number of looks so far.  The state
    of the thread is the world together with that number, the seconds
    slept, the number of checks begun (the index of the clock readings
    and script outcome of the next check), the lines the thread prints
    itself, and whether an exception has ended it; the lines of the
    backup run go to the world's [stdout] as before.  The loop may run
    for ever, so the model takes fuel, one unit per check, and returns
    [None] when it runs out. *)
Definition POLL_INTERVAL_HOURS : nat := 1.

Inductive thread_line :=
| Log_new_check (now : Z)
| Log_backup_completed
| Log_backup_not_performed
| Log_waiting (hours : nat).

Record sched := Sched {
  sched_world : world;
  flag_reads : nat;
  slept : nat;
  checks : nat;
  thread_stdout : list thread_line;
  crashed : bool
}.

Record cycle := Cycle {
  now_print : Z;
  cycle_env : backup_env
}.

Definition read_flag (shutdown_flag : nat → bool) (s : sched) : bool * sched :=
  (shutdown_flag (flag_reads s),
   Sched (sched_world s) (S (flag_reads s)) (slept s) (checks s) (thread_stdout s)
     (crashed s)).

Definition time_sleep (seconds : nat) (s : sched) : sched :=
  Sched (sched_world s) (flag_reads s) (slept s + seconds) (checks s)
    (thread_stdout s) (crashed s).

Definition thread_print (l : thread_line) (s : sched) : sched :=
  Sched (sched_world s) (flag_reads s) (slept s) (checks s)
    (thread_stdout s ++ [l]) (crashed s).

Definition begin_check (s : sched) : sched :=
  Sched (sched_world s) (flag_reads s) (slept s) (S (checks s)) (thread_stdout s)
    (crashed s).

Definition set_sched_world (w : world) (s : sched) : sched :=
  Sched w (flag_reads s) (slept s) (checks s) (thread_stdout s) (crashed s).

(** An exception leaves [backup_polling_thread]. *)
Definition crash (s : sched) : sched :=
  Sched (sched_world s) (flag_reads s) (slept s) (checks s) (thread_stdout s) true.

(** [for _ in range(wait_seconds): if shutdown_flag: break; time.sleep(1)] *)
Fixpoint wait_loop (shutdown_flag : nat → bool) (wait_seconds : nat) (s : sched)
  : sched :=
  match wait_seconds with
  | O => s
  | S n =>
      let (raised, s1) := read_flag shutdown_flag s in
      if raised then s1 else wait_loop shutdown_flag n (time_sleep 1 s1)
  end.

Fixpoint backup_polling_thread (fuel : nat) (shutdown_flag : nat → bool)
    (cycles : nat → cycle) (s : sched) : option sched :=
  match fuel with
  | O => None
  | S fuel' =>
      let (raised, s1) := read_flag shutdown_flag s in
      if raised then Some s1
      else
        let c := cycles (checks s1) in
        let s2 := thread_print (Log_new_check (now_print c)) (begin_check s1) in
        let (backup_success, w') :=
          run_backup_process (cycle_env c) false (sched_world s2) in
        let s3 := set_sched_world w' s2 in
        match backup_success with
        | None => Some (crash s3)
        | Some backup_success =>
            let s4 := thread_print (if backup_success then Log_backup_completed
                                    else Log_backup_not_performed) s3 in
            let wait_seconds := (POLL_INTERVAL_HOURS * 3600)%nat in
            let wait_hours := POLL_INTERVAL_HOURS in
            let s5 := thread_print (Log_waiting wait_hours) s4 in
            backup_polling_thread fuel' shutdown_flag cycles
              (wait_loop shutdown_flag wait_seconds s5)
        end
  end.


(** The flag is down until look number [k], and up from then on. *)
Definition raised_at (k : nat) (i : nat) : bool := (k <=? i)%nat.

Definition sample_cycles (i : nat) : cycle :=
  Cycle (1000000 + Z.of_nat i) sample_env.

Definition sample_sched : sched := Sched sample_world 0 0 0 [] false.

(** * Properties *)

(** ** Sanity checks of the primitives *)

Example resolve_backup_dir : Fs.resolve BACKUP_DIR = ["tmp"; "ibsng_backup_files"].
Proof. reflexivity. Qed.

Example resolve_dots : Fs.resolve "/tmp/ibsng_restore/../x.bak" = ["tmp"; "x.bak"].
Proof. reflexivity. Qed.

Example endswith_dump : Py.endswith "a.dump.gz" ".dump.gz" = true.
Proof. reflexivity. Qed.

Example join_absolute : Py.os_path_join TEMP_DIR "/etc/cron.d/x.bak" = "/etc/cron.d/x.bak".
Proof. reflexivity. Qed.

Example marker_line :
  find_backup_file_path (sr_stdout sample_script) = Some new_artifact.
Proof. reflexivity. Qed.

(** The validation of [/time] on plain, padded, signed and missing
    arguments. *)
Example time_argument_ascii :
  time_argument "/time  8 " = Number 8
  ∧ time_argument "/time 0078" = Number 78
  ∧ time_argument "/time -3" = No_number
  ∧ time_argument "/time" = No_number
  ∧ time_argument "/time 8h" = No_number.
Proof. vm_compute. repeat split. Qed.

(** Beyond ASCII: Persian digits are read as the number they write, a
    no-break space separates words, and superscript two passes
    [isdigit] only to be rejected by [int]. *)
Example time_argument_unicode :
  time_argument "/time ۸" = Number 8
  ∧ time_argument "/time ۱۲" = Number 12
  ∧ time_argument "/time 8" = Number 8
  ∧ time_argument "/time ²" = Bad_number
  ∧ time_argument "/time 1²" = Bad_number.
Proof. vm_compute. repeat split. Qed.

(** The largest [int] a float can take, and the first that raises. *)
Example float_limit :
  Py.fits_float (2 ^ 1024 - 2 ^ 970 - 1) = true
  ∧ Py.fits_float (2 ^ 1024 - 2 ^ 970) = false
  ∧ Py.fits_float (10 ^ 306 * 3600) = false.
Proof. vm_compute. repeat split. Qed.

(** With artifacts aged zero, two and four days and the 3-day horizon,
    a successful cycle deletes the four-day-old one only (and its own
    artifact). *)
Example sweep_by_age :
  let after := fs (run_backup_process sample_env true aged_world).2 in
  after !! backup_entry "day0.dump.gz" = Some (Fs.File [Byte.x1f] 1003620)
  ∧ after !! backup_entry "day2.dump.gz" = Some (Fs.File [Byte.x1f] 830820)
  ∧ after !! backup_entry "day4.dump.gz" = None
  ∧ after !! Fs.resolve new_artifact = None.
Proof. vm_compute. repeat split. Qed.

(** The other variant of the script flushes at 4000 characters: the
    same loop then cuts 9000 characters into 4000, 4000 and a remainder
    of 1000. *)
Example stream_loop_4000 :
  map (λ ev, match ev with
             | Send_message _ (Code_block c) => len c
             | _ => 0
             end)
      (effects (stream_loop 4000 42 nine_thousand [] running_world).2)
  = [4000; 4000]
  ∧ len <$> (stream_loop 4000 42 nine_thousand [] running_world).1 = Some 1000.
Proof. vm_compute. split; reflexivity. Qed.

Ltac run :=
  cbv [bind ret gets modify print emit deref setitem reply_to authorized waiting
       api_call send_message].

Lemma bind_run {A B} (m : M A) (k : A → M B) (w : world) :
  bind m k w = k (m w).1 (m w).2.
Proof. unfold bind. by destruct (m w). Qed.

(** ** Effects only grow *)

Create HintDb appends_db.

Lemma appends_ret {A} (x : A) : appends (ret x).
Proof. intros w. exists []. simpl. by rewrite app_nil_r. Qed.

Lemma appends_bind {A B} (m : M A) (f : A → M B) :
  appends m → (∀ a, appends (f a)) → appends (bind m f).
Proof.
  intros Hm Hf w. unfold bind.
  destruct (Hm w) as [r1 H1]. destruct (m w) as [a w1]. simpl in H1.
  destruct (Hf a w1) as [r2 H2]. exists (r1 ++ r2).
  rewrite H2, H1. by rewrite app_assoc.
Qed.

Lemma appends_gets {A} (f : world → A) : appends (gets f).
Proof. intros w. exists []. simpl. by rewrite app_nil_r. Qed.

Lemma appends_modify (f : world → world) :
  (∀ w, effects (f w) = effects w) → appends (modify f).
Proof. intros H w. exists []. simpl. by rewrite H, app_nil_r. Qed.

Lemma appends_print l : appends (print l).
Proof. by apply appends_modify. Qed.

Lemma appends_emit e : appends (emit e).
Proof. intros w. by exists [e]. Qed.

Lemma appends_api_call e : appends (api_call e).
Proof. intros w. by exists [e]. Qed.

Lemma appends_send_message chat t : appends (send_message chat t).
Proof. apply appends_api_call. Qed.

Lemma appends_deref r : appends (deref r).
Proof. destruct r; [apply appends_gets | apply appends_ret]. Qed.

Lemma appends_if {A} (b : bool) (m1 m2 : M A) :
  appends m1 → appends m2 → appends (if b then m1 else m2).
Proof. by destruct b. Qed.

#[local] Hint Resolve appends_ret appends_gets appends_print appends_emit
  appends_deref appends_api_call appends_send_message : appends_db.
#[local] Hint Extern 2 (appends (bind _ _)) =>
  apply appends_bind; [| intros ?] : appends_db.
#[local] Hint Extern 2 (appends (if _ then _ else _)) =>
  apply appends_if : appends_db.
#[local] Hint Extern 3 (appends (modify _)) =>
  apply appends_modify; intros ?; reflexivity : appends_db.
#[local] Hint Extern 4 (appends (match ?x with _ => _ end)) =>
  destruct x : appends_db.

Lemma appends_setitem upd r : appends (setitem upd r).
Proof. destruct r; simpl; auto with appends_db. Qed.

Lemma appends_load_config : appends load_config.
Proof.
  intros w. exists []. unfold load_config.
  destruct (config_file w); simpl; by rewrite app_nil_r.
Qed.

Lemma appends_save_config r : appends (save_config r).
Proof. unfold save_config. auto 12 with appends_db. Qed.

Lemma appends_os_remove p : appends (os_remove p).
Proof.
  intros w. exists []. unfold os_remove.
  destruct (remove_denied _ _); [by rewrite app_nil_r|].
  destruct (Fs.remove (fs w) p); simpl; by rewrite app_nil_r.
Qed.

Lemma appends_open_write p data now : appends (open_write p data now).
Proof.
  intros w. exists []. unfold open_write.
  destruct (write_fault_at _ _); simpl; by rewrite app_nil_r.
Qed.

Lemma appends_os_listdir d : appends (os_listdir d).
Proof. apply appends_gets. Qed.

#[local] Hint Resolve appends_setitem appends_load_config appends_save_config
  appends_os_remove appends_open_write appends_os_listdir : appends_db.

Lemma appends_send_to_telegram c p tok chat : appends (send_to_telegram c p tok chat).
Proof. unfold send_to_telegram. auto 10 with appends_db. Qed.

Lemma appends_check_backup_interval now r : appends (check_backup_interval now r).
Proof. unfold check_backup_interval. auto 16 with appends_db. Qed.

Lemma appends_sweep cutoff names : appends (sweep cutoff names).
Proof.
  induction names as [|n names IH]; simpl; auto 12 with appends_db.
Qed.

#[local] Hint Resolve appends_send_to_telegram appends_check_backup_interval
  appends_sweep : appends_db.

Lemma appends_run_backup_process e force : appends (run_backup_process e force).
Proof. unfold run_backup_process. auto 40 with appends_db. Qed.

(** ** Frame properties *)

Create HintDb frame_db.

Section Frame.
Context {X : Type} (f : world → X).

Lemma preserves_ret {A} (x : A) : preserves f (ret x).
Proof. by intros w. Qed.

Lemma preserves_bind {A B} (m : M A) (k : A → M B) :
  preserves f m → (∀ a, preserves f (k a)) → preserves f (bind m k).
Proof.
  intros Hm Hk w. unfold bind.
  specialize (Hm w). destruct (m w) as [a w1]. simpl in Hm.
  by rewrite Hk.
Qed.

Lemma preserves_gets {A} (g : world → A) : preserves f (gets g).
Proof. by intros w. Qed.

Lemma preserves_modify (g : world → world) :
  (∀ w, f (g w) = f w) → preserves f (modify g).
Proof. intros H w. apply H. Qed.

Lemma preserves_deref r : preserves f (deref r).
Proof. destruct r; [apply preserves_gets | apply preserves_ret]. Qed.

Lemma preserves_if {A} (b : bool) (m1 m2 : M A) :
  preserves f m1 → preserves f m2 → preserves f (if b then m1 else m2).
Proof. by destruct b. Qed.
End Frame.

#[local] Hint Resolve preserves_ret preserves_gets preserves_deref : frame_db.
#[local] Hint Extern 2 (preserves _ (bind _ _)) =>
  apply preserves_bind; [| intros ?] : frame_db.
#[local] Hint Extern 2 (preserves _ (if _ then _ else _)) =>
  apply preserves_if : frame_db.
#[local] Hint Extern 3 (preserves _ (modify _)) =>
  apply preserves_modify; intros ?; reflexivity : frame_db.
#[local] Hint Extern 3 (preserves _ (print _)) =>
  apply preserves_modify; intros ?; reflexivity : frame_db.
#[local] Hint Extern 3 (preserves _ (emit _)) =>
  apply preserves_modify; intros ?; reflexivity : frame_db.
#[local] Hint Extern 4 (preserves _ (match ?x with _ => _ end)) =>
  destruct x : frame_db.

Lemma run_backup_process_blocks (e : backup_env) (force : bool) :
  run_backup_process e force
  = bind load_config (λ config_data,
      bind (deref config_data) (λ c,
        bind (if force then ret (Some true)
              else check_backup_interval (now_check e) config_data)
          (λ proceed, match proceed with
                      | None => ret None
                      | Some false => ret (Some false)
                      | Some true => after_throttle e c config_data
                      end))).
Proof. reflexivity. Qed.

Section FrameOfBlocks.
Context {X : Type} (f : world → X).

Lemma preserves_print l :
  (∀ l w, f (add_stdout l w) = f w) → preserves f (print l).
Proof. intros H w. apply H. Qed.

Lemma preserves_emit ev :
  (∀ ev w, f (add_effect ev w) = f w) → preserves f (emit ev).
Proof. intros H w. apply H. Qed.

Lemma preserves_api_call ev :
  (∀ ev w, f (add_effect ev w) = f w) → preserves f (api_call ev).
Proof. intros H w. apply H. Qed.

Lemma preserves_os_remove p :
  (∀ g w, f (set_fs g w) = f w) → preserves f (os_remove p).
Proof.
  intros H w. unfold os_remove.
  destruct (remove_denied _ _); [reflexivity|].
  destruct (Fs.remove (fs w) p); simpl; [apply H | reflexivity].
Qed.

Lemma preserves_open_write p data now :
  (∀ g w, f (set_fs g w) = f w) → preserves f (open_write p data now).
Proof.
  intros H w. unfold open_write.
  destruct (write_fault_at _ _); simpl; [apply H | reflexivity | apply H].
Qed.

Lemma preserves_sweep cutoff names :
  (∀ g w, f (set_fs g w) = f w) →
  (∀ l w, f (add_stdout l w) = f w) →
  preserves f (sweep cutoff names).
Proof.
  intros Hfs Hout.
  induction names as [|n names IH]; simpl; [apply preserves_ret|].
  destruct (Py.endswith n ".dump.gz"); [|exact IH].
  apply preserves_bind; [apply preserves_gets|]. intros [t|]; [|apply preserves_ret].
  destruct (t <? cutoff); [|exact IH].
  apply preserves_bind; [by apply preserves_os_remove|].
  intros []; [|apply preserves_ret].
  apply preserves_bind; [by apply preserves_print | intros _; exact IH].
Qed.

Lemma preserves_load_config :
  (∀ c w, f (set_config c w) = f w) →
  (∀ a b w, f (set_credentials a b w) = f w) →
  (∀ l w, f (add_stdout l w) = f w) →
  preserves f load_config.
Proof.
  intros Hc Hcr Hout w. unfold load_config.
  destruct (config_file w); simpl; [reflexivity | apply Hout |].
  by rewrite Hcr, Hc.
Qed.

Lemma preserves_setitem upd r :
  (∀ c w, f (set_config c w) = f w) → preserves f (setitem upd r).
Proof.
  intros Hc. destruct r; simpl; [|apply preserves_ret].
  apply preserves_bind; [|intros; apply preserves_ret].
  apply preserves_modify. intros w. apply Hc.
Qed.

Lemma preserves_save_config r :
  (∀ s w, f (set_config_file s w) = f w) →
  (∀ l w, f (add_stdout l w) = f w) →
  preserves f (save_config r).
Proof.
  intros Hs Hout. unfold save_config.
  apply preserves_bind; [apply preserves_deref|]. intros c.
  apply preserves_bind; [apply preserves_gets|]. intros [].
  - apply preserves_bind; [|intros; apply preserves_ret].
    apply preserves_modify. intros w. apply Hs.
  - apply preserves_bind; [apply preserves_gets|]. intros truncated.
    apply preserves_bind.
    { destruct truncated; [|apply preserves_ret].
      apply preserves_modify. intros w. apply Hs. }
    intros _.
    apply preserves_bind; [by apply preserves_print|intros; apply preserves_ret].
Qed.

Lemma preserves_check_backup_interval now r :
  (∀ l w, f (add_stdout l w) = f w) →
  preserves f (check_backup_interval now r).
Proof.
  intros Hout. unfold check_backup_interval.
  apply preserves_bind; [apply preserves_deref|]. intros c.
  apply preserves_bind; [apply preserves_gets|]. intros fallback.
  destruct (cfg_last_backup c) as [t|]; [|apply preserves_ret].
  destruct (Py.truthy_num t); [|apply preserves_ret].
  destruct (negb (Py.fits_float t)); [apply preserves_ret|].
  destruct (default _ _) as [h|]; [|apply preserves_ret].
  match goal with |- preserves _ (if ?b then _ else _) => destruct b end;
    [|apply preserves_ret].
  destruct (negb _); [apply preserves_ret|].
  repeat (apply preserves_bind; [by apply preserves_print | intros _]).
  apply preserves_ret.
Qed.

Lemma preserves_send_to_telegram c p tok chat :
  (∀ ev w, f (add_effect ev w) = f w) →
  (∀ l w, f (add_stdout l w) = f w) →
  preserves f (send_to_telegram c p tok chat).
Proof.
  intros Hev Hout. unfold send_to_telegram.
  apply preserves_bind; [by apply preserves_emit | intros _].
  destruct c as [| |[]];
    (apply preserves_bind; [by apply preserves_print | intros _; apply preserves_ret]).
Qed.

Lemma preserves_upload_block e c r path :
  (∀ c w, f (set_config c w) = f w) →
  (∀ s w, f (set_config_file s w) = f w) →
  (∀ ev w, f (add_effect ev w) = f w) →
  (∀ l w, f (add_stdout l w) = f w) →
  preserves f (upload_block e c r path).
Proof.
  intros Hc Hs Hev Hout. unfold upload_block.
  destruct (_ && _).
  - apply preserves_bind; [by apply preserves_print | intros _].
    apply preserves_bind; [by apply preserves_send_to_telegram|]. intros [].
    + apply preserves_bind; [by apply preserves_setitem | intros cd].
      apply preserves_bind; [by apply preserves_save_config | intros _].
      apply preserves_ret.
    + by apply preserves_print.
  - apply preserves_bind; [by apply preserves_print | intros _].
    apply preserves_bind; [by apply preserves_setitem | intros cd].
    apply preserves_bind; [by apply preserves_save_config | intros _].
    apply preserves_ret.
Qed.

Lemma preserves_sweep_block e :
  (∀ g w, f (set_fs g w) = f w) →
  (∀ l w, f (add_stdout l w) = f w) →
  preserves f (sweep_block e).
Proof.
  intros Hfs Hout. unfold sweep_block.
  apply preserves_bind; [apply preserves_gets | intros [names|]].
  - apply preserves_bind; [by apply preserves_sweep | intros []].
    all: apply preserves_bind; [by apply preserves_print | intros _; apply preserves_ret].
  - apply preserves_bind; [by apply preserves_print | intros _; apply preserves_ret].
Qed.

Lemma preserves_cleanup_block e path :
  (∀ g w, f (set_fs g w) = f w) →
  (∀ l w, f (add_stdout l w) = f w) →
  preserves f (cleanup_block e path).
Proof.
  intros Hfs Hout. unfold cleanup_block.
  apply preserves_bind; [by apply preserves_print | intros _].
  apply preserves_bind; [by apply preserves_os_remove | intros removed].
  apply preserves_bind; [destruct removed; by apply preserves_print | intros _].
  apply preserves_bind; [by apply preserves_print | intros _].
  by apply preserves_sweep_block.
Qed.
End FrameOfBlocks.


Lemma deref_pure (r : dict_ref) (w : world) : (deref r w).2 = w.
Proof. by destruct r. Qed.

Lemma loaded_config_run (w : world) :
  loaded_config w = (deref (load_config w).1 (load_config w).2).1.
Proof. unfold loaded_config. by rewrite bind_run. Qed.

Lemma deref_after_check now r w :
  (deref r (check_backup_interval now r w).2).1 = (deref r w).1.
Proof.
  destruct r; [|reflexivity]. simpl.
  by rewrite (preserves_check_backup_interval config).
Qed.

(** The throttle leaves alone whatever [load_config] and printing leave
    alone. *)
Lemma throttle_world_keeps {X} (f : world → X) (e : backup_env) (force : bool)
    (w : world) :
  (∀ c w, f (set_config c w) = f w) →
  (∀ a b w, f (set_credentials a b w) = f w) →
  (∀ l w, f (add_stdout l w) = f w) →
  f (throttle_world e force w) = f w.
Proof.
  intros Hc Hcr Hout. unfold throttle_world, throttle. rewrite bind_run.
  destruct force; cbn [ret snd].
  - by apply preserves_load_config.
  - rewrite (preserves_check_backup_interval f) by exact Hout.
    by apply preserves_load_config.
Qed.

Lemma throttle_world_frame (e : backup_env) (force : bool) (w : world) :
  fs (throttle_world e force w) = fs w
  ∧ config_file (throttle_world e force w) = config_file w
  ∧ config_writable (throttle_world e force w) = config_writable w
  ∧ effects (throttle_world e force w) = effects w
  ∧ io (throttle_world e force w) = io w.
Proof. repeat split; by apply throttle_world_keeps. Qed.

(** A cycle is its throttle followed, when the verdict is to go on, by
    the rest. *)
Lemma run_backup_process_split (e : backup_env) (force : bool) (w : world) :
  run_backup_process e force w
  = match (throttle e force w).1 with
    | Some true =>
        after_throttle e (loaded_config w) (load_config w).1 (throttle_world e force w)
    | verdict => (verdict, throttle_world e force w)
    end.
Proof.
  rewrite run_backup_process_blocks.
  unfold throttle_world, throttle. rewrite loaded_config_run, !bind_run.
  rewrite deref_pure.
  by destruct (_.1) as [[]|].
Qed.

Lemma forced_throttle (e : backup_env) (w : world) :
  (throttle e true w).1 = Some true.
Proof. unfold throttle. by rewrite bind_run. Qed.


Lemma proceeds_throttle (e : backup_env) (force : bool) (w : world) :
  proceeds e force w = true ↔ (throttle e force w).1 = Some true.
Proof.
  unfold proceeds. destruct (throttle e force w).1 as [[]|]; split; congruence.
Qed.

(** ** The throttle check *)

Lemma exact_fits_float (x : Z) : Py.exact x → Py.fits_float x = true.
Proof.
  unfold Py.exact, Py.fits_float. intros H. apply Z.ltb_lt.
  assert (Py.EXACT_LIMIT < Py.FLOAT_LIMIT) by (vm_compute; reflexivity). lia.
Qed.

(** The three ways the check of [bot.py] ends, and what it prints. *)
Lemma check_backup_interval_cases (now : Z) (r : dict_ref) (w : world) :
  let c := (deref r w).1 in
  check_backup_interval now r w
  = match cfg_last_backup c with
    | Some t =>
        if decide (t = 0) then (Some true, w)
        else if Py.fits_float t then
          match interval_setting c w with
          | Some h =>
              if decide (now - t < h * 3600) then
                if Py.fits_float (h * 3600) then
                  (Some false,
                   add_stdout
                     (Log_time_remaining ((h * 3600 - (now - t)) / 3600)
                        (((h * 3600 - (now - t)) mod 3600) / 60))
                     (add_stdout (Log_last_backup_recent h) w))
                else (None, w)
              else (Some true, w)
          | None => (None, w)
          end
        else (None, w)
    | None => (Some true, w)
    end.
Proof.
  unfold check_backup_interval, interval_setting.
  destruct r as [|c0]; run; cbn [fst snd].
  all: match goal with
       | |- context [cfg_last_backup ?c] => destruct (cfg_last_backup c) as [t|]
       end; [|reflexivity..].
  all: unfold Py.truthy_num.
  all: destruct (Z.eqb_spec t 0) as [->|Hnz]; cbn [negb].
  all: try (rewrite decide_True by done; reflexivity).
  all: rewrite decide_False by done.
  all: destruct (Py.fits_float t); cbn [negb]; [|reflexivity].
  all: match goal with
       | |- context [default ?d ?x] => destruct (default d x) as [h|]
       end; [|reflexivity..].
  all: destruct (Z.ltb_spec (now - t) (h * 3600)).
  all: first [ rewrite decide_True by done | rewrite decide_False by lia ].
  all: try reflexivity.
  all: destruct (Py.fits_float (h * 3600)); reflexivity.
Qed.

Lemma check_backup_interval_held (now : Z) (r : dict_ref) (w : world) :
  (check_backup_interval now r w).1 = Some false
  ↔ ∃ t h, cfg_last_backup (deref r w).1 = Some t ∧ t ≠ 0
           ∧ interval_setting (deref r w).1 w = Some h
           ∧ now - t < h * 3600
           ∧ Py.fits_float t = true ∧ Py.fits_float (h * 3600) = true.
Proof.
  rewrite check_backup_interval_cases. cbv zeta.
  destruct (cfg_last_backup (deref r w).1) as [t|].
  2:{ split; [done|]. by intros (? & ? & ? & _). }
  destruct (decide (t = 0)) as [->|Hnz].
  { split; [done|]. intros (? & ? & [= <-] & ? & _). done. }
  destruct (Py.fits_float t) eqn:Ht.
  2:{ split; [done|]. intros (? & ? & [= <-] & _ & _ & _ & ? & _). congruence. }
  destruct (interval_setting (deref r w).1 w) as [h|].
  2:{ split; [done|]. by intros (? & ? & _ & _ & ? & _). }
  destruct (decide (now - t < h * 3600)) as [Hlt|Hge].
  2:{ split; [done|]. intros (? & ? & [= <-] & _ & [= <-] & ? & _). done. }
  destruct (Py.fits_float (h * 3600)) eqn:Hh.
  - split; [|done]. intros _. by exists t, h.
  - split; [done|]. intros (? & ? & [= <-] & _ & [= <-] & _ & _ & ?). congruence.
Qed.

Lemma check_backup_interval_raises (now : Z) (r : dict_ref) (w : world) :
  (check_backup_interval now r w).1 = None
  ↔ ∃ t, cfg_last_backup (deref r w).1 = Some t ∧ t ≠ 0
         ∧ (Py.fits_float t = false
            ∨ interval_setting (deref r w).1 w = None
            ∨ ∃ h, interval_setting (deref r w).1 w = Some h
                   ∧ now - t < h * 3600 ∧ Py.fits_float (h * 3600) = false).
Proof.
  rewrite check_backup_interval_cases. cbv zeta.
  destruct (cfg_last_backup (deref r w).1) as [t|].
  2:{ split; [done|]. by intros (? & ? & _). }
  destruct (decide (t = 0)) as [->|Hnz].
  { split; [done|]. intros (? & [= <-] & ? & _). done. }
  destruct (Py.fits_float t) eqn:Ht.
  2:{ split; [|done]. intros _. exists t. auto. }
  destruct (interval_setting (deref r w).1 w) as [h|].
  2:{ split; [|done]. intros _. exists t. auto. }
  destruct (decide (now - t < h * 3600)) as [Hlt|Hge].
  2:{ split; [done|].
      intros (? & [= <-] & _ & [? | [? | (? & [= <-] & ? & _)]]);
        [congruence | done | contradiction]. }
  destruct (Py.fits_float (h * 3600)) eqn:Hh.
  - split; [done|].
    intros (? & [= <-] & _ & [? | [? | (? & [= <-] & _ & ?)]]);
      [congruence | done | congruence].
  - split; [|done]. intros _. exists t. split; [done|]. split; [done|].
    right. right. by exists h.
Qed.

Lemma check_backup_interval_due (now : Z) (r : dict_ref) (w : world) :
  (check_backup_interval now r w).1 = Some true →
  check_backup_interval now r w = (Some true, w).
Proof.
  rewrite check_backup_interval_cases. cbv zeta.
  destruct (cfg_last_backup _) as [t|]; [|done].
  destruct (decide (t = 0)); [done|].
  destruct (Py.fits_float t); [|done].
  destruct (interval_setting _ _) as [h|]; [|done].
  destruct (decide _); [|done].
  by destruct (Py.fits_float (h * 3600)).
Qed.

(** Whatever the verdict, the check changes nothing but what is
    printed. *)
Lemma check_backup_interval_world (now : Z) (r : dict_ref) (w : world) :
  ∃ lines,
    (check_backup_interval now r w).2
    = fold_left (λ w l, add_stdout l w) lines w
    ∧ ((check_backup_interval now r w).1 ≠ Some false → lines = []).
Proof.
  rewrite check_backup_interval_cases. cbv zeta.
  destruct (cfg_last_backup _) as [t|]; [|by exists []].
  destruct (decide (t = 0)); [by exists []|].
  destruct (Py.fits_float t); [|by exists []].
  destruct (interval_setting _ _) as [h|]; [|by exists []].
  destruct (decide _); [|by exists []].
  destruct (Py.fits_float (h * 3600)); [|by exists []].
  eexists [_; _]. split; [reflexivity | done].
Qed.

Lemma throttle_unforced (e : backup_env) (w : world) :
  throttle e false w
  = check_backup_interval (now_check e) (load_config w).1 (load_config w).2.
Proof. unfold throttle. by rewrite bind_run. Qed.



(** ** External requests of a cycle *)

Lemma effects_after_upload_block e c r path w :
  effects (upload_block e c r path w).2
  = effects w
    ++ (if Py.truthy_opt_str (cfg_bot_token c) && Py.truthy_opt_str (cfg_chat_id c)
        then [Curl_send_document path (Py.str_opt (cfg_bot_token c))
                (Py.str_opt (cfg_chat_id c))]
        else []).
Proof.
  unfold upload_block, send_to_telegram, save_config.
  destruct (_ && _); destruct (curl e) as [| |[]]; destruct r;
    destruct (config_writable w) eqn:Hw;
    destruct (config_truncated (io w)) eqn:Ht;
    run; simpl; rewrite ?Hw; simpl; rewrite ?Ht; simpl;
    rewrite ?app_nil_r; reflexivity.
Qed.

Lemma effects_after_throttle e c r w :
  effects (after_throttle e c r w).2
  = effects w ++ Run_backup_script ::
      match produced_artifact e w with
      | Some (path, _) =>
          if Py.truthy_opt_str (cfg_bot_token c) && Py.truthy_opt_str (cfg_chat_id c)
          then [Curl_send_document path (Py.str_opt (cfg_bot_token c))
                  (Py.str_opt (cfg_chat_id c))]
          else []
      | None => []
      end.
Proof.
  unfold after_throttle, produced_artifact.
  rewrite !bind_run. cbn [print emit modify fst snd].
  destruct (script e) as [|sr|files]; [reflexivity| |reflexivity].
  rewrite !bind_run. cbn [print emit modify fst snd].
  destruct (sr_returncode sr =? 0); cbn [negb]; [|reflexivity].
  rewrite !bind_run. cbn [gets fst snd fs set_fs add_effect add_stdout].
  destruct (artifact_valid _ _) as [[path size]|]; [|reflexivity].
  rewrite !bind_run. cbn [print modify fst snd].
  rewrite (preserves_cleanup_block effects) by reflexivity.
  rewrite effects_after_upload_block. cbn [effects add_stdout set_fs add_effect].
  by rewrite <- app_assoc.
Qed.

Lemma produced_artifact_throttle_world e force w :
  produced_artifact e (throttle_world e force w) = produced_artifact e w.
Proof.
  unfold produced_artifact.
  by destruct (throttle_world_frame e force w) as (-> & _).
Qed.

Lemma effects_after_due_run (e : backup_env) (force : bool) (w : world) :
  proceeds e force w = true →
  effects (run_backup_process e force w).2
  = effects w ++ Run_backup_script :: upload_request e w.
Proof.
  intros Hp%proceeds_throttle.
  rewrite run_backup_process_split, Hp, effects_after_throttle.
  rewrite produced_artifact_throttle_world.
  destruct (throttle_world_frame e force w) as (_ & _ & _ & -> & _).
  reflexivity.
Qed.




(** ** Config store *)

(** C8, as stated, fails when the file is missing: [load_config] hands
    back the configuration cached in memory and prints nothing. *)
Lemma load_config_missing_returns_cached :
  config_file stale_world = Missing
  ∧ ¬ (loaded_config stale_world = empty_config
       ∧ stdout (load_config stale_world).2
         = stdout stale_world ++ [Log_error_reading_config]).
Proof. split; [reflexivity|]. intros [H _]. discriminate H. Qed.

(** C8, amended. A malformed file makes [load_config] return a fresh
    empty configuration and print one error line, leaving the globals
    alone; a missing file makes it return the global configuration
    object as it is (empty only if nothing was loaded before) and print
    nothing. Either way a value is returned. *)
Theorem load_config_malformed_or_missing (w : world) :
  (config_file w = Malformed →
     (load_config w).1 = Fresh empty_config
     ∧ loaded_config w = empty_config
     ∧ stdout (load_config w).2 = stdout w ++ [Log_error_reading_config]
     ∧ config (load_config w).2 = config w
     ∧ bot_token (load_config w).2 = bot_token w
     ∧ chat_id (load_config w).2 = chat_id w)
  ∧ (config_file w = Missing →
     (load_config w).1 = Global_config
     ∧ loaded_config w = config w
     ∧ (load_config w).2 = w).
Proof.
  unfold loaded_config, bind, load_config.
  split; intros ->; simpl; repeat split; reflexivity.
Qed.

Lemma load_config_malformed_or_missing_witness :
  (config_file malformed_world = Malformed
   ∧ (load_config malformed_world).1 = Fresh empty_config
   ∧ stdout (load_config malformed_world).2 = [Log_error_reading_config])
  ∧ (config_file stale_world = Missing
     ∧ loaded_config stale_world = sample_config
     ∧ (load_config stale_world).2 = stale_world).
Proof.
  split.
  - destruct (proj1 (load_config_malformed_or_missing malformed_world) eq_refl)
      as (H1 & _ & H2 & _).
    split; [reflexivity | split; [exact H1 | exact H2]].
  - destruct (proj2 (load_config_malformed_or_missing stale_world) eq_refl)
      as (_ & H1 & H2).
    split; [reflexivity | split; [exact H1 | exact H2]].
Defined.

(** ** The persisted timestamp *)

Lemma config_file_after_upload_block e c r path w :
  config_file (upload_block e c r path w).2
  = if (if Py.truthy_opt_str (cfg_bot_token c) && Py.truthy_opt_str (cfg_chat_id c)
        then upload_succeeded e else true)
    then after_save w (with_last_backup (now_stamp e) (deref r w).1)
    else config_file w.
Proof.
  unfold upload_block, upload_succeeded, send_to_telegram, save_config, after_save.
  destruct (_ && _); destruct (curl e) as [| |[]]; destruct r;
    destruct (config_writable w) eqn:Hw;
    destruct (config_truncated (io w)) eqn:Ht;
    run; simpl; rewrite ?Hw; simpl; rewrite ?Ht; reflexivity.
Qed.

Lemma after_throttle_config_file e c r w :
  config_file (after_throttle e c r w).2
  = match produced_artifact e w with
    | Some _ =>
        if (if Py.truthy_opt_str (cfg_bot_token c) && Py.truthy_opt_str (cfg_chat_id c)
            then upload_succeeded e else true)
        then after_save w (with_last_backup (now_stamp e) (deref r w).1)
        else config_file w
    | None => config_file w
    end.
Proof.
  unfold after_throttle, produced_artifact.
  rewrite !bind_run. cbn [print emit modify fst snd].
  destruct (script e) as [|sr|files]; [reflexivity| |reflexivity].
  rewrite !bind_run. cbn [print emit modify fst snd].
  destruct (sr_returncode sr =? 0); cbn [negb]; [|reflexivity].
  rewrite !bind_run. cbn [gets fst snd fs set_fs add_effect add_stdout].
  destruct (artifact_valid _ _) as [[path size]|]; [|reflexivity].
  rewrite !bind_run. cbn [print modify fst snd].
  rewrite (preserves_cleanup_block config_file) by reflexivity.
  rewrite config_file_after_upload_block. cbn.
  destruct r; reflexivity.
Qed.

Lemma after_save_throttle_world e force w c :
  after_save (throttle_world e force w) c = after_save w c.
Proof.
  unfold after_save.
  by destruct (throttle_world_frame e force w) as (_ & -> & -> & _ & ->).
Qed.

Lemma deref_throttle_world e force w :
  (deref (load_config w).1 (throttle_world e force w)).1 = loaded_config w.
Proof.
  rewrite loaded_config_run. unfold throttle_world, throttle. rewrite bind_run.
  destruct force; cbn [ret snd]; [reflexivity|].
  apply deref_after_check.
Qed.

Lemma config_file_after_run (e : backup_env) (force : bool) (w : world) :
  config_file (run_backup_process e force w).2
  = if proceeds e force w
       && bool_decide (is_Some (produced_artifact e w))
       && upload_completed e w
    then after_save w (with_last_backup (now_stamp e) (loaded_config w))
    else config_file w.
Proof.
  rewrite run_backup_process_split. unfold proceeds.
  destruct (throttle_world_frame e force w) as (_ & Hcf & _).
  destruct (throttle e force w).1 as [[]|] eqn:Hv; cbn [snd andb]; [|done..].
  rewrite after_throttle_config_file, produced_artifact_throttle_world.
  rewrite after_save_throttle_world, deref_throttle_world, Hcf.
  unfold upload_completed, credentials_configured.
  destruct (produced_artifact e w) as [a|].
  - by rewrite bool_decide_true by eauto.
  - by rewrite bool_decide_false by (by intros [? ?]).
Qed.

(** C3, as stated, fails when the configuration file cannot be written:
    the artifact is produced and uploaded, yet the persisted timestamp
    stays what it was; and when the write fails half-way, the file is
    neither updated nor what it was. *)
Lemma timestamp_not_persisted_when_save_fails :
  (proceeds sample_env true readonly_world = true
   ∧ is_Some (produced_artifact sample_env readonly_world)
   ∧ upload_completed sample_env readonly_world = true
   ∧ config_file (run_backup_process sample_env true readonly_world).2
     = Parsed sample_config
   ∧ config_file (run_backup_process sample_env true readonly_world).2
     ≠ Parsed (with_last_backup (now_stamp sample_env)
                 (loaded_config readonly_world)))
  ∧ (proceeds sample_env true full_disk_world = true
     ∧ is_Some (produced_artifact sample_env full_disk_world)
     ∧ upload_completed sample_env full_disk_world = true
     ∧ config_file full_disk_world = Parsed sample_config
     ∧ config_file (run_backup_process sample_env true full_disk_world).2
       = Malformed).
Proof.
  assert (Hp : produced_artifact sample_env readonly_world
               = Some (new_artifact, 2)) by (vm_compute; reflexivity).
  assert (Hp' : produced_artifact sample_env full_disk_world
                = Some (new_artifact, 2)) by (vm_compute; reflexivity).
  rewrite !config_file_after_run, Hp, Hp'.
  repeat split; try reflexivity; [by eexists | discriminate | by eexists].
Qed.

(** C3, amended. The persisted last-backup timestamp is updated only if
    the execution ran, an artifact was produced, and the upload either
    succeeded or was not attempted for lack of credentials; under those
    conditions it is updated whenever the configuration file accepts the
    write, and when the write fails the file is left as it was or, if
    the failure came after the file was opened, unreadable. In every
    other case, among them a failed upload, the configuration file is
    left as it was. *)
Theorem last_backup_persisted_iff (e : backup_env) (force : bool) (w : world) :
  (proceeds e force w = true →
   is_Some (produced_artifact e w) →
   upload_completed e w = true →
   (config_writable w = true →
    config_file (run_backup_process e force w).2
    = Parsed (with_last_backup (now_stamp e) (loaded_config w)))
   ∧ (config_writable w = false →
      config_file (run_backup_process e force w).2
      = if config_truncated (io w) then Malformed else config_file w))
  ∧ (proceeds e force w = false
     ∨ produced_artifact e w = None
     ∨ upload_completed e w = false →
     config_file (run_backup_process e force w).2 = config_file w)
  ∧ (credentials_configured w = true → upload_succeeded e = false →
     config_file (run_backup_process e force w).2 = config_file w).
Proof.
  rewrite config_file_after_run. unfold after_save.
  split; [|split].
  - intros -> [a ->] ->. rewrite bool_decide_true by eauto. cbn [andb].
    split; intros ->; reflexivity.
  - intros [-> | [-> | ->]]; rewrite ?andb_false_r; reflexivity.
  - unfold upload_completed. intros -> ->. by rewrite andb_false_r.
Qed.

Lemma last_backup_persisted_iff_witness :
  (proceeds sample_env true sample_world = true
   ∧ is_Some (produced_artifact sample_env sample_world)
   ∧ upload_completed sample_env sample_world = true
   ∧ config_writable sample_world = true
   ∧ config_file (run_backup_process sample_env true sample_world).2
     = Parsed (Cfg (Some "123:abc") (Some "42") (Some 1003610) (Some (Some 2))))
  ∧ (credentials_configured sample_world = true
     ∧ upload_succeeded refused_env = false
     ∧ config_file (run_backup_process refused_env true sample_world).2
       = Parsed sample_config).
Proof.
  split.
  - assert (Ha : is_Some (produced_artifact sample_env sample_world))
      by (exists (new_artifact, 2); vm_compute; reflexivity).
    repeat (split; [first [reflexivity | exact Ha]|]).
    exact (proj1 (proj1 (last_backup_persisted_iff sample_env true sample_world)
                    eq_refl Ha eq_refl) eq_refl).
  - repeat (split; [reflexivity|]).
    exact (proj2 (proj2 (last_backup_persisted_iff refused_env true sample_world))
             eq_refl eq_refl).
Defined.

(** ** Paths of the backup directory *)

Lemma split_nonempty c s : Py.split c s ≠ [].
Proof.
  destruct s as [|a s]; simpl; [discriminate|].
  destruct (decide (a = c)); [discriminate|].
  destruct (Py.split c s); discriminate.
Qed.

Lemma split_app_sep c s1 s2 :
  Py.split c (s1 +:+ String c s2) = Py.split c s1 ++ Py.split c s2.
Proof.
  induction s1 as [|a s1 IH].
  - change ("" +:+ String c s2) with (String c s2).
    cbn [Py.split]. by rewrite decide_True.
  - change (String a s1 +:+ String c s2) with (String a (s1 +:+ String c s2)).
    cbn [Py.split]. rewrite IH.
    destruct (decide (a = c)); [reflexivity|].
    pose proof (split_nonempty c s1).
    destruct (Py.split c s1); [congruence | reflexivity].
Qed.

Lemma simple_spec n :
  Fs.simple n = true →
  n ≠ "" ∧ n ≠ "." ∧ n ≠ ".." ∧ Py.split "/" n = [n].
Proof. unfold Fs.simple. by intros ?%bool_decide_eq_true. Qed.

Lemma simple_not_absolute n : Fs.simple n = true → Py.startswith n "/" = false.
Proof.
  intros (Hne & _ & _ & Hs)%simple_spec.
  destruct n as [|a n]; [reflexivity|]. simpl.
  destruct (decide ("/"%char = a)) as [<-|]; [|reflexivity].
  exfalso. simpl in Hs. discriminate Hs.
Qed.

(** The path the sweep builds for a directory entry denotes that
    entry. *)
Lemma resolve_join_entry n :
  Fs.simple n = true →
  Fs.resolve (Py.os_path_join BACKUP_DIR n) = backup_entry n.
Proof.
  intros Hn. unfold Py.os_path_join. rewrite (simple_not_absolute n Hn).
  destruct (simple_spec n Hn) as (H1 & H2 & H3 & H4).
  change (negb (Py.truthy_str BACKUP_DIR) || Py.endswith BACKUP_DIR "/") with false.
  cbv iota. unfold backup_entry, Fs.resolve.
  change ("/" +:+ n) with (String "/" n).
  rewrite split_app_sep, H4, fold_left_app.
  change (fold_left Fs.walk (Py.split "/" BACKUP_DIR) [])
    with ["ibsng_backup_files"; "tmp"].
  cbn [fold_left]. unfold Fs.walk at 1.
  rewrite decide_False by (by intros [|]).
  rewrite decide_False by done.
  reflexivity.
Qed.

Lemma backup_entry_inj n1 n2 : backup_entry n1 = backup_entry n2 → n1 = n2.
Proof. unfold backup_entry. intros H%app_inv_head. by inversion H. Qed.

Lemma entry_of_Some d k n :
  Fs.entry_of d k = Some n ↔ k = d ++ [n] ∧ Fs.simple n = true.
Proof.
  unfold Fs.entry_of. split.
  - destruct (last k) as [m|] eqn:Hl; [|discriminate].
    destruct (decide (k = d ++ [m])); [|discriminate].
    destruct (Fs.simple m) eqn:Hs; [|discriminate].
    by intros [= <-].
  - intros [-> Hs]. rewrite last_snoc, decide_True by done. by rewrite Hs.
Qed.

Lemma elem_of_listdir f n :
  n ∈ Fs.listdir f BACKUP_DIR
  ↔ Fs.simple n = true ∧ is_Some (f !! backup_entry n).
Proof.
  unfold Fs.listdir. rewrite list_elem_of_omap. split.
  - intros [[k x] [Hin He]]. simpl in He.
    apply entry_of_Some in He as [-> Hs].
    split; [done|]. apply elem_of_map_to_list in Hin. by exists x.
  - intros [Hs [x Hx]]. exists (backup_entry n, x). split.
    + by apply elem_of_map_to_list.
    + by apply entry_of_Some.
Qed.

Lemma NoDup_listdir f d : NoDup (Fs.listdir f d).
Proof.
  unfold Fs.listdir.
  pose proof (NoDup_fst_map_to_list f) as Hnd.
  induction (map_to_list f) as [|[k x] l IH]; simpl in *; [constructor|].
  apply NoDup_cons in Hnd as [Hk Hnd].
  destruct (Fs.entry_of (Fs.resolve d) k) as [n|] eqn:He; simpl; [|by apply IH].
  apply NoDup_cons. split; [|by apply IH].
  intros [[k' x'] [Hin He']]%list_elem_of_omap. simpl in He'.
  apply entry_of_Some in He as [-> _]. apply entry_of_Some in He' as [-> _].
  apply Hk. apply list_elem_of_fmap. by exists (Fs.resolve d ++ [n], x').
Qed.

(** ** Removing a file *)

Lemma fs_os_remove (p : string) (w : world) :
  fs (os_remove p w).2
  = if remove_denied (io w) (Fs.resolve p) then fs w
    else delete (Fs.resolve p) (fs w).
Proof.
  unfold os_remove, Fs.remove.
  destruct (remove_denied _ _); [reflexivity|].
  destruct (fs w !! Fs.resolve p) eqn:Hp; cbn [snd fs set_fs]; [reflexivity|].
  symmetry. by apply delete_id.
Qed.

Lemma os_remove_result (p : string) (w : world) :
  (os_remove p w).1
  = negb (remove_denied (io w) (Fs.resolve p))
    && bool_decide (is_Some (fs w !! Fs.resolve p)).
Proof.
  unfold os_remove, Fs.remove.
  destruct (remove_denied _ _); [reflexivity|].
  destruct (fs w !! Fs.resolve p) eqn:Hp; cbn [fst negb andb].
  - by rewrite bool_decide_true by eauto.
  - by rewrite bool_decide_false by (by intros [? ?]).
Qed.

Lemma os_remove_world (p : string) (w : world) :
  (os_remove p w).2 = set_fs (fs (os_remove p w).2) w.
Proof.
  unfold os_remove.
  destruct (remove_denied _ _); [by destruct w|].
  destruct (Fs.remove _ _); [reflexivity | by destruct w].
Qed.

(** ** The retention sweep *)

Lemma doomed_cons_skip cutoff n names k f :
  ¬ (k = backup_entry n ∧ Py.endswith n ".dump.gz" = true ∧ Fs.f_mtime f < cutoff) →
  doomed cutoff (n :: names) k f ↔ doomed cutoff names k f.
Proof.
  intros Hn. unfold doomed. split.
  - intros (m & [->|Hm]%elem_of_cons & H); [tauto | eauto].
  - intros (m & Hm & H). exists m. split; [by right | done].
Qed.

Lemma sweep_cons_skip cutoff n names w :
  Py.endswith n ".dump.gz" = false →
  sweep cutoff (n :: names) w = sweep cutoff names w.
Proof. intros H. cbn [sweep]. by rewrite H. Qed.

Lemma sweep_cons_young cutoff n names w f0 :
  Fs.simple n = true → fs w !! backup_entry n = Some f0 →
  cutoff ≤ Fs.f_mtime f0 →
  sweep cutoff (n :: names) w = sweep cutoff names w.
Proof.
  intros Hs Hf0 Hy. cbn [sweep]. destruct (Py.endswith n ".dump.gz"); [|done].
  rewrite bind_run. cbn [gets fst snd].
  unfold Fs.getmtime. rewrite (resolve_join_entry n Hs), Hf0.
  cbn [fmap option_fmap option_map].
  destruct (Z.ltb_spec (Fs.f_mtime f0) cutoff); [lia | done].
Qed.

Lemma sweep_cons_old cutoff n names w f0 :
  Fs.simple n = true → fs w !! backup_entry n = Some f0 →
  Py.endswith n ".dump.gz" = true → Fs.f_mtime f0 < cutoff →
  remove_denied (io w) (backup_entry n) = false →
  sweep cutoff (n :: names) w
  = sweep cutoff names
      (add_stdout (Log_deleted_old n) (set_fs (delete (backup_entry n) (fs w)) w)).
Proof.
  intros Hs Hf0 Hsuf Ho Hd. cbn [sweep]. rewrite Hsuf.
  rewrite bind_run. cbn [gets fst snd].
  unfold Fs.getmtime. rewrite (resolve_join_entry n Hs), Hf0.
  cbn [fmap option_fmap option_map].
  destruct (Z.ltb_spec (Fs.f_mtime f0) cutoff); [|lia].
  rewrite bind_run. unfold os_remove, Fs.remove.
  rewrite (resolve_join_entry n Hs), Hd, Hf0. cbn [fst snd].
  by rewrite bind_run.
Qed.

Lemma sweep_cons_denied cutoff n names w f0 :
  Fs.simple n = true → fs w !! backup_entry n = Some f0 →
  Py.endswith n ".dump.gz" = true → Fs.f_mtime f0 < cutoff →
  remove_denied (io w) (backup_entry n) = true →
  sweep cutoff (n :: names) w = (false, w).
Proof.
  intros Hs Hf0 Hsuf Ho Hd. cbn [sweep]. rewrite Hsuf.
  rewrite bind_run. cbn [gets fst snd].
  unfold Fs.getmtime. rewrite (resolve_join_entry n Hs), Hf0.
  cbn [fmap option_fmap option_map].
  destruct (Z.ltb_spec (Fs.f_mtime f0) cutoff); [|lia].
  rewrite bind_run. unfold os_remove.
  by rewrite (resolve_join_entry n Hs), Hd.
Qed.

(** The loop returns normally exactly when nothing hinders it, and then
    it has deleted the doomed files and nothing else. *)
Lemma sweep_spec cutoff names w :
  NoDup names →
  (∀ n, n ∈ names → Fs.simple n = true ∧ is_Some (fs w !! backup_entry n)) →
  ((sweep cutoff names w).1 = true ↔ unhindered cutoff names w)
  ∧ ((sweep cutoff names w).1 = true →
     ∀ k f, fs (sweep cutoff names w).2 !! k = Some f
            ↔ fs w !! k = Some f ∧ ¬ doomed cutoff names k f).
Proof.
  revert w. induction names as [|n names IH]; intros w Hnd Hin.
  { split.
    - split; [|done]. intros _ k f _ (m & Hm & _). by apply elem_of_nil in Hm.
    - intros _ k f. simpl. split; [|tauto].
      intros H. split; [done|]. intros (m & Hm & _). by apply elem_of_nil in Hm. }
  apply NoDup_cons in Hnd as [Hn Hnd].
  destruct (Hin n) as [Hs [f0 Hf0]]; [by left|].
  assert (Htail : ∀ m, m ∈ names →
            Fs.simple m = true ∧ is_Some (fs w !! backup_entry m)).
  { intros m Hm. apply Hin. by right. }
  destruct (Py.endswith n ".dump.gz") eqn:Hsuf.
  2:{ rewrite (sweep_cons_skip _ _ _ _ Hsuf).
      destruct (IH w Hnd Htail) as [Hr Hfs]. split.
      - rewrite Hr. unfold unhindered.
        split; intros H k f Hk Hd; apply (H k f Hk); revert Hd;
          apply doomed_cons_skip; intros (_ & ? & _); congruence.
      - intros Hok k f. rewrite (Hfs Hok).
        split; intros [Hk Hd]; (split; [done|]); intros Hd'; apply Hd;
          revert Hd'; apply doomed_cons_skip; intros (_ & ? & _); congruence. }
  destruct (Z.lt_ge_cases (Fs.f_mtime f0) cutoff) as [Hold|Hyoung].
  2:{ rewrite (sweep_cons_young _ _ _ _ _ Hs Hf0 Hyoung).
      destruct (IH w Hnd Htail) as [Hr Hfs]. split.
      - rewrite Hr. unfold unhindered.
        split; intros H k f Hk Hd; apply (H k f Hk); revert Hd;
          apply doomed_cons_skip;
          intros (-> & _ & Hlt); rewrite Hf0 in Hk; injection Hk as <-; lia.
      - intros Hok k f. rewrite (Hfs Hok).
        split; intros [Hk Hd]; (split; [done|]); intros Hd'; apply Hd;
          revert Hd'; apply doomed_cons_skip;
          intros (-> & _ & Hlt); rewrite Hf0 in Hk; injection Hk as <-; lia. }
  destruct (remove_denied (io w) (backup_entry n)) eqn:Hden.
  { rewrite (sweep_cons_denied _ _ _ _ _ Hs Hf0 Hsuf Hold Hden). cbn [fst].
    split; [|done]. split; [done|]. intros H.
    rewrite (H (backup_entry n) f0 Hf0) in Hden; [done|].
    exists n. repeat split; [by left | done..]. }
  rewrite (sweep_cons_old _ _ _ _ _ Hs Hf0 Hsuf Hold Hden).
  set (w1 := add_stdout _ (set_fs _ w)).
  assert (Hw1 : ∀ k, fs w1 !! k = delete (backup_entry n) (fs w) !! k) by done.
  assert (Hio : io w1 = io w) by done.
  destruct (IH w1 Hnd) as [Hr Hfs].
  { intros m Hm. destruct (Htail m Hm) as [Hsm Hex]. split; [done|].
    rewrite Hw1, lookup_delete_ne; [done|].
    intros ->%backup_entry_inj. done. }
  split.
  - rewrite Hr. unfold unhindered. rewrite Hio. split.
    + intros H k f Hk Hd. destruct (decide (k = backup_entry n)) as [->|Hne];
        [done|]. apply (H k f).
      * by rewrite Hw1, lookup_delete_ne.
      * revert Hd. apply doomed_cons_skip. intros (-> & _). done.
    + intros H k f Hk Hd. rewrite Hw1 in Hk.
      apply lookup_delete_Some in Hk as [Hne Hk]. apply (H k f Hk).
      destruct Hd as (m & Hm & Hd). exists m. split; [by right | done].
  - intros Hok k f. rewrite (Hfs Hok), Hw1, lookup_delete_Some. split.
    + intros [[Hne Hk] Hd]. split; [done|]. intros Hd'. apply Hd.
      revert Hd'. apply doomed_cons_skip. intros (-> & _). done.
    + intros [Hk Hd]. destruct (decide (k = backup_entry n)) as [->|Hne].
      * exfalso. apply Hd. exists n. rewrite Hf0 in Hk. injection Hk as <-.
        repeat split; [by left | done..].
      * split; [done|]. intros Hd'. apply Hd.
        revert Hd'. apply doomed_cons_skip. intros (-> & _). done.
Qed.

(** The loop only deletes, and never what is denied removal. *)
Lemma sweep_no_resurrection cutoff names w k :
  fs w !! k = None → fs (sweep cutoff names w).2 !! k = None.
Proof.
  revert w. induction names as [|n names IH]; intros w Hk; [done|].
  cbn [sweep]. destruct (Py.endswith n ".dump.gz"); [|by apply IH].
  rewrite bind_run. cbn [gets fst snd].
  destruct (Fs.getmtime _ _) as [t|]; [|done].
  destruct (t <? cutoff); [|by apply IH].
  rewrite bind_run.
  pose proof (fs_os_remove (Py.os_path_join BACKUP_DIR n) w) as Hfs.
  destruct (os_remove _ w) as [[] w1]; cbn [fst snd] in *; [|].
  - rewrite bind_run. cbn [print modify fst snd]. apply IH. cbn.
    rewrite Hfs. destruct (remove_denied _ _); [done|].
    rewrite lookup_delete_None. by right.
  - cbn. rewrite Hfs. destruct (remove_denied _ _); [done|].
    rewrite lookup_delete_None. by right.
Qed.

Lemma sweep_keeps_denied cutoff names w k f :
  fs w !! k = Some f → remove_denied (io w) k = true →
  fs (sweep cutoff names w).2 !! k = Some f.
Proof.
  revert w. induction names as [|n names IH]; intros w Hk Hd; [done|].
  cbn [sweep]. destruct (Py.endswith n ".dump.gz"); [|by apply IH].
  rewrite bind_run. cbn [gets fst snd].
  destruct (Fs.getmtime _ _) as [t|]; [|done].
  destruct (t <? cutoff); [|by apply IH].
  rewrite bind_run.
  pose proof (fs_os_remove (Py.os_path_join BACKUP_DIR n) w) as Hfs.
  pose proof (preserves_os_remove io (Py.os_path_join BACKUP_DIR n)
                ltac:(done) w) as Hio.
  assert (Hk1 : fs (os_remove (Py.os_path_join BACKUP_DIR n) w).2 !! k = Some f).
  { rewrite Hfs.
    destruct (remove_denied (io w) (Fs.resolve (Py.os_path_join BACKUP_DIR n)))
      eqn:Hd'; [exact Hk|].
    rewrite lookup_delete_ne; [exact Hk|]. intros <-. congruence. }
  destruct (os_remove _ w) as [[] w1]; cbn [fst snd] in *; [|done].
  rewrite bind_run. cbn [print modify fst snd]. apply IH; [done|].
  cbn. by rewrite Hio.
Qed.

Lemma sweep_block_spec e w :
  ((sweep_block e w).1 = Some true ↔ sweep_goes_through e w)
  ∧ ((sweep_block e w).1 = Some true ∨ (sweep_block e w).1 = Some false)
  ∧ ((sweep_block e w).1 = Some true →
     ∀ k f, fs (sweep_block e w).2 !! k = Some f
            ↔ fs w !! k = Some f ∧ ¬ expired e k f)
  ∧ (∀ k, fs w !! k = None → fs (sweep_block e w).2 !! k = None)
  ∧ (∀ k f, fs w !! k = Some f → remove_denied (io w) k = true →
            fs (sweep_block e w).2 !! k = Some f)
  ∧ (listdir_raises (io w) (Fs.resolve BACKUP_DIR) = true →
     fs (sweep_block e w).2 = fs w).
Proof.
  unfold sweep_block, sweep_goes_through, os_listdir.
  rewrite bind_run. cbn [gets fst snd].
  destruct (listdir_raises _ _) eqn:Hl.
  { cbn. repeat split; try done; try (by intros [? _]); auto. }
  rewrite bind_run.
  set (cutoff := now_sweep e - RETENTION_DAYS * 86400).
  set (names := Fs.listdir (fs w) BACKUP_DIR).
  destruct (sweep_spec cutoff names w) as [Hr Hfs].
  { apply NoDup_listdir. }
  { intros n Hn. by apply elem_of_listdir in Hn. }
  pose proof (sweep_no_resurrection cutoff names w) as Hnr.
  pose proof (sweep_keeps_denied cutoff names w) as Hkd.
  assert (Hdoom : ∀ k f, fs w !! k = Some f →
                         (doomed cutoff names k f ↔ expired e k f)).
  { intros k f Hk. unfold doomed, expired, cutoff_of. split.
    - intros (n & [Hs _]%elem_of_listdir & H). by exists n.
    - intros (n & Hs & -> & H). exists n. split; [|done].
      apply elem_of_listdir. split; [done | by exists f]. }
  assert (Hun : unhindered cutoff names w
                ↔ ∀ k f, fs w !! k = Some f → expired e k f →
                         remove_denied (io w) k = false).
  { unfold unhindered.
    split; intros H k f Hk Hd; apply (H k f Hk); by apply (Hdoom k f Hk). }
  destruct (sweep cutoff names w) as [[] w1] eqn:Hsw; cbn [fst snd] in *.
  - cbn. split; [|split; [by left|]].
    { split; [intros _; split; [done|]; by apply Hun, Hr | done]. }
    split; [|split; [done | split; [done | done]]].
    intros _ k f. rewrite (Hfs eq_refl). split.
    + intros [Hk Hd]. split; [done|]. intros Hx. apply Hd. by apply (Hdoom k f Hk).
    + intros [Hk Hd]. split; [done|]. intros Hx. apply Hd. by apply (Hdoom k f Hk).
  - cbn. split; [|split; [by right|]].
    { split; [done|]. intros [_ H]. apply Hun, Hr in H. done. }
    split; [done|]. split; [done|]. split; [done | done].
Qed.

Lemma cleanup_block_spec e path w :
  let w1 := set_fs (if remove_denied (io w) (Fs.resolve path) then fs w
                    else delete (Fs.resolve path) (fs w)) w in
  ((cleanup_block e path w).1 = Some true ↔ sweep_goes_through e w1)
  ∧ ((cleanup_block e path w).1 = Some true
     ∨ (cleanup_block e path w).1 = Some false)
  ∧ ((cleanup_block e path w).1 = Some true →
     ∀ k f, fs (cleanup_block e path w).2 !! k = Some f
            ↔ fs w1 !! k = Some f ∧ ¬ expired e k f)
  ∧ (∀ k, fs w1 !! k = None → fs (cleanup_block e path w).2 !! k = None)
  ∧ (∀ k f, fs w1 !! k = Some f → remove_denied (io w) k = true →
            fs (cleanup_block e path w).2 !! k = Some f)
  ∧ (listdir_raises (io w) (Fs.resolve BACKUP_DIR) = true →
     fs (cleanup_block e path w).2 = fs w1).
Proof.
  intros w1. unfold cleanup_block.
  rewrite !bind_run. cbn [print modify gets fst snd].
  set (r2 := os_remove path (add_stdout (Log_deleting_local path) w)).
  assert (Hfs2 : fs r2.2 = fs w1).
  { subst r2 w1. by rewrite fs_os_remove. }
  assert (Hio2 : io r2.2 = io w).
  { subst r2. by rewrite (preserves_os_remove io). }
  set (w3 := add_stdout Log_deleting_old
               ((if r2.1 then print Log_local_deleted
                 else print (Log_error_deleting_local path)) r2.2).2).
  assert (Hw3 : fs w3 = fs w1) by (subst w3; by destruct (r2.1)).
  assert (Hio3 : io w3 = io w) by (subst w3; by destruct (r2.1)).
  clearbody w3 r2.
  pose proof (sweep_block_spec e w3) as H.
  unfold sweep_goes_through in *. rewrite Hw3, Hio3 in H.
  exact H.
Qed.

(** The locked message of the [finally] clause. *)
Lemma cleanup_block_log e path w :
  (os_remove path w).1 = false →
  Log_error_deleting_local path ∈ stdout (cleanup_block e path w).2.
Proof.
  intros Hr. unfold cleanup_block.
  rewrite !bind_run. cbn [print modify gets fst snd].
  assert (Hr' : (os_remove path (add_stdout (Log_deleting_local path) w)).1 = false).
  { rewrite os_remove_result in *. exact Hr. }
  rewrite Hr'. cbn [print modify snd].
  set (w2 := add_stdout Log_deleting_old _).
  assert (Hin : Log_error_deleting_local path ∈ stdout w2).
  { subst w2. cbn [stdout add_stdout]. set_solver. }
  clearbody w2. unfold sweep_block, os_listdir.
  rewrite bind_run. cbn [gets fst snd].
  assert (Hsw : ∀ cutoff names w', Log_error_deleting_local path ∈ stdout w' →
            Log_error_deleting_local path ∈ stdout (sweep cutoff names w').2).
  { intros cutoff names. induction names as [|n names IH]; intros w' Hw'; [done|].
    cbn [sweep]. destruct (Py.endswith n ".dump.gz"); [|by apply IH].
    rewrite bind_run. cbn [gets fst snd].
    destruct (Fs.getmtime _ _) as [t|]; [|done].
    destruct (t <? cutoff); [|by apply IH].
    rewrite bind_run.
    pose proof (preserves_os_remove stdout (Py.os_path_join BACKUP_DIR n)
                  ltac:(done) w') as Hso.
    destruct (os_remove _ w') as [[] w'']; cbn [fst snd] in *.
    - rewrite bind_run. apply IH. cbn [print modify snd stdout add_stdout].
      rewrite Hso. set_solver.
    - cbn. by rewrite Hso. }
  destruct (listdir_raises _ _).
  - cbn. set_solver.
  - rewrite bind_run. specialize (Hsw (now_sweep e - RETENTION_DAYS * 86400)
                                     (Fs.listdir (fs w2) BACKUP_DIR) w2 Hin).
    destruct (sweep _ _ w2) as [[] w4]; cbn in *; set_solver.
Qed.

(** ** A backup cycle as a whole *)

Lemma after_throttle_success e c r w path size :
  produced_artifact e w = Some (path, size) →
  swept e w path (after_throttle e c r w).1 (fs (after_throttle e c r w).2).
Proof.
  unfold after_throttle, produced_artifact.
  rewrite !bind_run. cbn [print emit modify fst snd].
  destruct (script e) as [|sr|files] eqn:Hscript; [discriminate| |discriminate].
  rewrite !bind_run. cbn [print emit modify fst snd].
  destruct (sr_returncode sr =? 0); cbn [negb]; [|discriminate].
  rewrite !bind_run. cbn [gets fst snd fs set_fs add_effect add_stdout].
  intros ->.
  rewrite !bind_run. cbn [print modify fst snd].
  set (w2 := (upload_block _ _ _ _ _).2).
  assert (Hw2 : fs w2 = write_all (sr_files sr) (fs w)).
  { subst w2. by rewrite (preserves_upload_block fs). }
  assert (Hio : io w2 = io w).
  { subst w2. by rewrite (preserves_upload_block io). }
  pose proof (cleanup_block_spec e path w2) as H. cbv zeta in H.
  unfold sweep_goes_through in H.
  cbn [fs io set_fs] in H. rewrite Hw2, Hio in H.
  destruct H as (H1 & H2 & H3 & H4 & H5 & H6).
  assert (Hb : before_sweep e w path
               = if remove_denied (io w) (Fs.resolve path)
                 then write_all (sr_files sr) (fs w)
                 else delete (Fs.resolve path) (write_all (sr_files sr) (fs w))).
  { unfold before_sweep, script_writes. by rewrite Hscript. }
  split; unfold sweep_unhindered; rewrite ?Hb; assumption.
Qed.

Lemma after_throttle_fs_failure e c r w :
  produced_artifact e w = None →
  (after_throttle e c r w).1 = Some false
  ∧ fs (after_throttle e c r w).2 = script_writes e (fs w).
Proof.
  unfold after_throttle, produced_artifact, script_writes.
  rewrite !bind_run. cbn [print emit modify fst snd].
  destruct (script e) as [|sr|files]; [done| |done].
  rewrite !bind_run. cbn [print emit modify fst snd].
  destruct (sr_returncode sr =? 0); cbn [negb]; [|done].
  rewrite !bind_run. cbn [gets fst snd fs set_fs add_effect add_stdout].
  by intros ->.
Qed.

Lemma before_sweep_throttle_world e force w path :
  before_sweep e (throttle_world e force w) path = before_sweep e w path.
Proof.
  unfold before_sweep.
  by destruct (throttle_world_frame e force w) as (-> & _ & _ & _ & ->).
Qed.

Lemma swept_throttle_world e force w path result after :
  swept e (throttle_world e force w) path result after →
  swept e w path result after.
Proof.
  intros [H1 H2 H3 H4 H5 H6].
  unfold sweep_unhindered in *. rewrite before_sweep_throttle_world in *.
  destruct (throttle_world_frame e force w) as (_ & _ & _ & _ & Hio).
  rewrite Hio in *. by split.
Qed.

Lemma run_backup_process_success e force w path size :
  proceeds e force w = true →
  produced_artifact e w = Some (path, size) →
  swept e w path (run_backup_process e force w).1
        (fs (run_backup_process e force w).2).
Proof.
  intros Hp%proceeds_throttle Ha. rewrite run_backup_process_split, Hp.
  rewrite <- (produced_artifact_throttle_world e force w) in Ha.
  apply (swept_throttle_world e force).
  by apply (after_throttle_success e _ _ _ path size).
Qed.

Lemma run_backup_process_no_artifact e force w :
  proceeds e force w = true → produced_artifact e w = None →
  (run_backup_process e force w).1 = Some false
  ∧ fs (run_backup_process e force w).2 = script_writes e (fs w).
Proof.
  intros Hp%proceeds_throttle Ha. rewrite run_backup_process_split, Hp.
  destruct (throttle_world_frame e force w) as (Hfs & _).
  rewrite <- (produced_artifact_throttle_world e force w) in Ha.
  destruct (after_throttle_fs_failure e (loaded_config w) (load_config w).1 _ Ha)
    as [Hr ->].
  by rewrite Hfs.
Qed.


(** The line the [finally] clause prints when the artifact cannot be
    removed. *)
Lemma run_backup_process_log e force w path size :
  proceeds e force w = true →
  produced_artifact e w = Some (path, size) →
  remove_denied (io w) (Fs.resolve path) = true →
  Log_error_deleting_local path ∈ stdout (run_backup_process e force w).2.
Proof.
  intros Hp%proceeds_throttle Ha Hd. rewrite run_backup_process_split, Hp.
  destruct (throttle_world_frame e force w) as (Hfs & _ & _ & _ & Hio).
  unfold after_throttle, produced_artifact in *.
  rewrite !bind_run. cbn [print emit modify fst snd].
  destruct (script e) as [|sr|files]; [discriminate| |discriminate].
  rewrite !bind_run. cbn [print emit modify fst snd].
  destruct (sr_returncode sr =? 0); cbn [negb]; [|discriminate].
  rewrite !bind_run. cbn [gets fst snd fs set_fs add_effect add_stdout].
  rewrite Hfs, Ha.
  rewrite !bind_run. cbn [print modify fst snd].
  apply cleanup_block_log. rewrite os_remove_result.
  rewrite (preserves_upload_block io) by reflexivity.
  cbn [io add_stdout set_fs add_effect]. by rewrite Hio, Hd.
Qed.

(** C4, as stated, fails when the artifact cannot be removed: the
    [finally] clause catches the error and prints it, and the file is
    still there when the execution returns [True]. It fails as well
    when [subprocess.run] raises after the script has written its
    artifact: the execution returns [False] without ever looking at the
    file, which stays. *)
Lemma artifact_stays_when_removal_is_denied :
  (proceeds sample_env true locked_world = true
   ∧ produced_artifact sample_env locked_world = Some (new_artifact, 2)
   ∧ (run_backup_process sample_env true locked_world).1 = Some true
   ∧ Fs.exists_ (fs (run_backup_process sample_env true locked_world).2)
       new_artifact = true
   ∧ Log_error_deleting_local new_artifact
     ∈ stdout (run_backup_process sample_env true locked_world).2)
  ∧ ((run_backup_process undecodable_env true sample_world).1 = Some false
     ∧ Fs.exists_ (fs (run_backup_process undecodable_env true sample_world).2)
         new_artifact = true).
Proof.
  split; [|by vm_compute].
  split; [reflexivity|]. split; [vm_compute; reflexivity|].
  split; [vm_compute; reflexivity|]. split; [vm_compute; reflexivity|].
  apply (run_backup_process_log _ _ _ _ 2); vm_compute; reflexivity.
Qed.

(** C4, amended. Whenever an execution gets past the throttle and the
    script ran to its end and left a valid artifact (one the executor
    has found at the path of the marker line and found not empty) whose
    removal is not denied, no
    file exists at the artifact's location once [run_backup_process]
    returns, whatever the upload did, whether or not credentials were
    configured and however the sweep ended. When the removal is denied,
    the artifact is still there and the error has been printed. *)
Theorem artifact_removed_after_backup
    (e : backup_env) (force : bool) (w : world) (path : string) (size : Z) :
  proceeds e force w = true →
  produced_artifact e w = Some (path, size) →
  (remove_denied (io w) (Fs.resolve path) = false →
   fs (run_backup_process e force w).2 !! Fs.resolve path = None
   ∧ Fs.exists_ (fs (run_backup_process e force w).2) path = false)
  ∧ (remove_denied (io w) (Fs.resolve path) = true →
     Fs.exists_ (fs (run_backup_process e force w).2) path = true
     ∧ fs (run_backup_process e force w).2 !! Fs.resolve path
       = script_writes e (fs w) !! Fs.resolve path
     ∧ Log_error_deleting_local path
       ∈ stdout (run_backup_process e force w).2).
Proof.
  intros Hp Ha.
  destruct (run_backup_process_success e force w path size Hp Ha)
    as [_ _ _ Hdel Hkeep _].
  split.
  - intros Hd.
    assert (Hnone : fs (run_backup_process e force w).2 !! Fs.resolve path = None).
    { apply Hdel. unfold before_sweep. rewrite Hd. apply lookup_delete_eq. }
    split; [done|]. unfold Fs.exists_. rewrite Hnone.
    apply bool_decide_eq_false. by intros [? ?].
  - intros Hd.
    assert (Hex : is_Some (script_writes e (fs w) !! Fs.resolve path)).
    { unfold produced_artifact, script_writes, artifact_valid in *.
      destruct (script e) as [|sr|]; [done| |done].
      destruct (sr_returncode sr =? 0); [|done].
      destruct (find_backup_file_path _) as [p|]; [|done].
      destruct (Py.truthy_str p && Fs.exists_ _ p) eqn:Hv; [|done].
      apply andb_true_iff in Hv as [_ Hv%bool_decide_eq_true].
      destruct (Fs.getsize _ p); [|done]. destruct (0 <? _); [|done].
      by injection Ha as <- _. }
    destruct Hex as [f Hf].
    assert (Hstay : fs (run_backup_process e force w).2 !! Fs.resolve path
                    = Some f).
    { apply Hkeep; [|done]. unfold before_sweep. by rewrite Hd. }
    split; [|split].
    + unfold Fs.exists_. rewrite Hstay. apply bool_decide_eq_true. by eexists.
    + by rewrite Hstay, Hf.
    + by apply (run_backup_process_log e force w path size).
Qed.

Lemma artifact_removed_after_backup_witness :
  (proceeds refused_env true sample_world = true
   ∧ produced_artifact refused_env sample_world = Some (new_artifact, 2)
   ∧ remove_denied (io sample_world) (Fs.resolve new_artifact) = false)
  ∧ fs (run_backup_process refused_env true sample_world).2
      !! Fs.resolve new_artifact = None
  ∧ Fs.exists_ (fs (run_backup_process refused_env true sample_world).2)
      new_artifact = false.
Proof.
  assert (Ha : produced_artifact refused_env sample_world = Some (new_artifact, 2))
    by (vm_compute; reflexivity).
  split; [split; [reflexivity | split; [exact Ha | reflexivity]]|].
  exact (proj1 (artifact_removed_after_backup refused_env true sample_world
                  new_artifact 2 eq_refl Ha) eq_refl).
Defined.




(** ** Authorization gate *)

(** C7, as stated, fails for documents: the document handler drops a
    document from a foreign chat without any reply. *)
Lemma unauthorized_document_gets_no_reply :
  (authorized (intruder_message "" "dump.bak") awaiting_world).1 = false
  ∧ effects (dispatch (Document_received (Downloaded []) 0)
               (intruder_message "" "dump.bak") awaiting_world).2 = []
  ∧ (dispatch (Document_received (Downloaded []) 0)
       (intruder_message "" "dump.bak") awaiting_world).2
    ≠ add_effect (Reply_to 666 Unauthorized_msg) awaiting_world.
Proof. vm_compute. repeat split; [reflexivity.. | discriminate]. Qed.

(** C7, amended. When the sender's chat identifier differs from the
    configured target chat, each of the five command handlers (for
    [/restore], the handler as [main.py] has it) sends the
    authorization-denied reply and does nothing else, and the document
    handler does nothing at all: session states, files, configuration
    and spawned threads are exactly what they were. *)
Theorem unauthorized_sender_is_turned_away (i : inbound) (m : message) (w : world) :
  (authorized m w).1 = false →
  (dispatch i m w).2
  = match i with
    | Document_received _ _ => w
    | _ => add_effect (Reply_to (msg_chat_id m) Unauthorized_msg) w
    end.
Proof.
  intros H.
  destruct i; cbn [dispatch];
    unfold handle_backup_command, handle_status_command, handle_time_command,
      handle_restore_command, handle_cancel_command, handle_document;
    rewrite bind_run;
    (replace (authorized m w).2 with w by reflexivity);
    rewrite H; reflexivity.
Qed.

Lemma unauthorized_sender_is_turned_away_witness :
  (authorized (intruder_message "/backup" "") running_world).1 = false
  ∧ (dispatch Backup_command (intruder_message "/backup" "") running_world).2
    = add_effect (Reply_to 666 Unauthorized_msg) running_world.
Proof.
  split; [reflexivity|].
  exact (unauthorized_sender_is_turned_away Backup_command
           (intruder_message "/backup" "") running_world eq_refl).
Defined.

(** ** Restore session state machine *)

Ltac run_handler := cbv [bind modify reply_to api_call ret emit]; cbn [fst snd].

Ltac session_after_insert :=
  unfold session_of;
  cbn [user_states add_effect set_user_states set_fs];
  rewrite lookup_insert_eq; reflexivity.

Lemma waiting_session (w : world) (chat : Z) :
  (waiting chat w).1 = true ↔ session_of w chat = WaitingForFile.
Proof.
  unfold waiting, gets, session_of. cbn [fst].
  destruct (bool_decide _); split; congruence.
Qed.

Lemma session_cases (w : world) (chat : Z) :
  session_of w chat = Idle → (waiting chat w).1 = false.
Proof.
  unfold waiting, gets, session_of. cbn [fst].
  destruct (bool_decide _); congruence.
Qed.

Ltac handler_step :=
  rewrite bind_run;
  match goal with
  | |- context [(authorized ?m ?w).2] =>
      replace (authorized m w).2 with w by reflexivity
  | |- context [(waiting ?c ?w).2] =>
      replace (waiting c w).2 with w by reflexivity
  end.

(** The document handler once it has let a message through. *)
Lemma handle_document_accepted (download : attachment) (now : Z)
    (m : message) (w : world) :
  accepted m w →
  handle_document download now m w
  = match download with
    | Get_file_raises => (tt, w)
    | _ => receive_document download now m w
    end.
Proof.
  intros (Ha & Hw%waiting_session & Hs).
  unfold handle_document. handler_step. rewrite Ha. cbn [negb].
  handler_step. rewrite Hw. cbn [negb].
  unfold valid_suffix in Hs. rewrite Hs. by destruct download.
Qed.

(** A document that is written and acknowledged. *)
Lemma receive_document_goes_through (data : list Byte.byte) (now : Z)
    (m : message) (w : world) :
  writable_at w (msg_file_name m) →
  next_call_returns w →
  (receive_document (Downloaded data) now m w).2
  = add_effect (Thread_start (Run_restore_process
                  (Py.os_path_join TEMP_DIR (msg_file_name m)) (msg_chat_id m)))
      (add_effect (Reply_to (msg_chat_id m)
                     (Start_restore_msg (msg_file_name m) (length data)))
         (set_user_states (<[msg_chat_id m := State_None]> (user_states w))
            (set_fs (Fs.write (fs w) (Py.os_path_join TEMP_DIR (msg_file_name m))
                       data now) w))).
Proof.
  unfold writable_at, next_call_returns, restore_location. intros Hw Hr.
  unfold receive_document, open_write. rewrite bind_run, Hw. cbn [fst snd].
  rewrite !bind_run. cbn [modify fst snd]. unfold reply_to, api_call at 1 2.
  cbn [fst snd effects io set_user_states set_fs]. rewrite Hr. reflexivity.
Qed.

(** A document that is written, but whose acknowledgement raises. *)
Lemma receive_document_unacknowledged (data : list Byte.byte) (now : Z)
    (m : message) (w : world) :
  writable_at w (msg_file_name m) →
  ¬ next_call_returns w →
  (receive_document (Downloaded data) now m w).2
  = add_effect (Reply_to (msg_chat_id m) Download_error_msg)
      (add_effect (Reply_to (msg_chat_id m)
                     (Start_restore_msg (msg_file_name m) (length data)))
         (set_user_states (<[msg_chat_id m := State_None]> (user_states w))
            (set_fs (Fs.write (fs w) (Py.os_path_join TEMP_DIR (msg_file_name m))
                       data now) w))).
Proof.
  unfold writable_at, next_call_returns, restore_location. intros Hw Hr.
  apply not_false_is_true in Hr.
  unfold receive_document, open_write. rewrite bind_run, Hw. cbn [fst snd].
  rewrite !bind_run. cbn [modify fst snd]. unfold reply_to, api_call at 1 2.
  cbn [fst snd effects io set_user_states set_fs]. rewrite Hr. reflexivity.
Qed.

(** A document that cannot be fetched or written. *)
Lemma receive_document_fails (download : attachment) (now : Z)
    (m : message) (w : world) :
  download = Get_file_raises ∨ download = Download_raises
  ∨ (∃ data, download = Downloaded data ∧ ¬ writable_at w (msg_file_name m)) →
  user_states (receive_document download now m w).2 = user_states w
  ∧ effects (receive_document download now m w).2
    = effects w ++ [Reply_to (msg_chat_id m) Download_error_msg]
  ∧ (download = Get_file_raises ∨ download = Download_raises
     ∨ write_fault_at (io w) (restore_location (msg_file_name m)) = Cannot_open →
     (receive_document download now m w).2
     = add_effect (Reply_to (msg_chat_id m) Download_error_msg) w).
Proof.
  unfold writable_at, restore_location.
  intros [-> | [-> | (data & -> & Hw)]]; [by repeat split..|].
  unfold receive_document, open_write. rewrite bind_run.
  destruct (write_fault_at _ _) as [| |partial]; [done| |]; cbn [fst snd].
  - by repeat split.
  - repeat split. intros [|[|]]; discriminate.
Qed.

(** C5, as stated, fails when the download of an accepted document
    raises, and when its file cannot be opened (here for want of the
    temporary directory): the chat stays in [WaitingForFile], an error
    reply is sent and no restore is started. *)
Lemma failed_download_keeps_waiting :
  ((authorized (owner_message "" "dump.bak") awaiting_world).1 = true
   ∧ session_of awaiting_world 42 = WaitingForFile
   ∧ valid_suffix "dump.bak" = true
   ∧ session_of (dispatch (Document_received Download_raises 0)
                   (owner_message "" "dump.bak") awaiting_world).2 42
     = WaitingForFile
   ∧ effects (dispatch (Document_received Download_raises 0)
                (owner_message "" "dump.bak") awaiting_world).2
     = [Reply_to 42 Download_error_msg])
  ∧ (accepted (owner_message "" "dump.bak") awaiting_world_without_temp_dir
     ∧ session_of (dispatch (Document_received (Downloaded [Byte.x1f]) 0)
                     (owner_message "" "dump.bak")
                     awaiting_world_without_temp_dir).2 42
       = WaitingForFile
     ∧ effects (dispatch (Document_received (Downloaded [Byte.x1f]) 0)
                  (owner_message "" "dump.bak")
                  awaiting_world_without_temp_dir).2
       = [Reply_to 42 Download_error_msg]).
Proof. vm_compute. repeat split. Qed.

(** C5, amended. For a message from the authorized chat:
    [/restore] (the handler as [main.py] has it, that of [bot.py]
    being the same statements with a literal the compiler rejects) sets
    [WaitingForFile] from any state and sends the guidance; [/cancel] from [WaitingForFile] sets [Idle] and confirms;
    [/cancel] from [Idle] changes no state and replies that nothing is
    active; a document with an invalid suffix while [WaitingForFile]
    changes no state and is rejected, provided the chat service
    describes the attachment; a document with a valid suffix while
    [WaitingForFile] that is downloaded, written and acknowledged sets
    [Idle] and starts exactly one restore thread; if the download
    raises or the file cannot be written, the state stays
    [WaitingForFile], an error reply is sent and no restore is started;
    if the acknowledgement raises after the file was written, the state
    is [Idle], an error reply follows and no restore is started; a
    document the chat service does not describe, and a document while
    [Idle], change nothing at all. *)
Theorem restore_session_transitions (m : message) (w : world) :
  (authorized m w).1 = true →
  let chat := msg_chat_id m in
  (* /restore *)
  (session_of (handle_restore_command m w).2 chat = WaitingForFile
   ∧ effects (handle_restore_command m w).2
     = effects w ++ [Reply_to chat Guide_msg])
  (* /cancel *)
  ∧ (session_of w chat = WaitingForFile →
     session_of (handle_cancel_command m w).2 chat = Idle
     ∧ effects (handle_cancel_command m w).2
       = effects w ++ [Reply_to chat Cancel_msg])
  ∧ (session_of w chat = Idle →
     (handle_cancel_command m w).2
     = add_effect (Reply_to chat No_operation_msg) w)
  (* document *)
  ∧ (∀ download now,
       session_of w chat = WaitingForFile →
       valid_suffix (msg_file_name m) = false →
       download ≠ Get_file_raises →
       (handle_document download now m w).2
       = add_effect (Reply_to chat Invalid_format_msg) w)
  ∧ (∀ data now,
       session_of w chat = WaitingForFile →
       valid_suffix (msg_file_name m) = true →
       writable_at w (msg_file_name m) →
       let file_path := Py.os_path_join TEMP_DIR (msg_file_name m) in
       let start := Reply_to chat (Start_restore_msg (msg_file_name m) (length data)) in
       session_of (handle_document (Downloaded data) now m w).2 chat = Idle
       ∧ effects (handle_document (Downloaded data) now m w).2
         = effects w
           ++ (if api_raises (io w) (length (effects w))
               then [start; Reply_to chat Download_error_msg]
               else [start; Thread_start (Run_restore_process file_path chat)]))
  ∧ (∀ download now,
       session_of w chat = WaitingForFile →
       valid_suffix (msg_file_name m) = true →
       download = Download_raises
       ∨ (∃ data, download = Downloaded data ∧ ¬ writable_at w (msg_file_name m)) →
       session_of (handle_document download now m w).2 chat = WaitingForFile
       ∧ effects (handle_document download now m w).2
         = effects w ++ [Reply_to chat Download_error_msg])
  ∧ (∀ now,
       (handle_document Get_file_raises now m w).2 = w)
  ∧ (∀ download now,
       session_of w chat = Idle →
       (handle_document download now m w).2 = w).
Proof.
  intros Ha chat. subst chat.
  refine (conj _ (conj _ (conj _ (conj _ (conj _ (conj _ (conj _ _))))))).
  - unfold handle_restore_command. handler_step. rewrite Ha. cbn [negb].
    run_handler.
    split; [session_after_insert | reflexivity].
  - intros Hw%waiting_session.
    unfold handle_cancel_command. handler_step. rewrite Ha. cbn [negb].
    handler_step. rewrite Hw.
    run_handler.
    split; [session_after_insert | reflexivity].
  - intros Hw%session_cases.
    unfold handle_cancel_command. handler_step. rewrite Ha. cbn [negb].
    handler_step. rewrite Hw. reflexivity.
  - intros download now Hw%waiting_session Hs Hd.
    unfold handle_document. handler_step. rewrite Ha. cbn [negb].
    handler_step. rewrite Hw. cbn [negb].
    unfold valid_suffix in Hs. rewrite Hs. by destruct download.
  - intros data now Hw Hs Hwr file_path start.
    rewrite (handle_document_accepted _ _ _ _ (conj Ha (conj Hw Hs))).
    destruct (api_raises (io w) (length (effects w))) eqn:Hr.
    + rewrite receive_document_unacknowledged;
        [|done | unfold next_call_returns; congruence].
      split; [session_after_insert|].
      cbn [effects add_effect set_user_states set_fs]. by rewrite <- app_assoc.
    + rewrite receive_document_goes_through by done.
      split; [session_after_insert|].
      cbn [effects add_effect set_user_states set_fs]. by rewrite <- app_assoc.
  - intros download now Hw Hs Hf.
    rewrite (handle_document_accepted _ _ _ _ (conj Ha (conj Hw Hs))).
    destruct (receive_document_fails download now m w) as (Hus & Hef & _);
      [tauto|].
    assert (Hd : download ≠ Get_file_raises).
    { destruct Hf as [-> | (? & -> & _)]; discriminate. }
    destruct download; [done | |]; (split; [|exact Hef]);
      unfold session_of in *; by rewrite Hus.
  - intros now.
    unfold handle_document. handler_step. rewrite Ha. cbn [negb].
    handler_step. by destruct (waiting _ _).1.
  - intros download now Hw%session_cases.
    unfold handle_document. handler_step. rewrite Ha. cbn [negb].
    handler_step. rewrite Hw. reflexivity.
Qed.

Lemma restore_session_transitions_witness :
  ((authorized (owner_message "" "dump.bak") awaiting_world).1 = true
   ∧ session_of awaiting_world 42 = WaitingForFile
   ∧ valid_suffix "dump.bak" = true
   ∧ writable_at awaiting_world "dump.bak")
  ∧ session_of (handle_cancel_command (owner_message "" "dump.bak")
                  awaiting_world).2 42 = Idle
  ∧ session_of (handle_document (Downloaded [Byte.x1f]) 7
                  (owner_message "" "dump.bak") awaiting_world).2 42 = Idle
  ∧ effects (handle_document (Downloaded [Byte.x1f]) 7
               (owner_message "" "dump.bak") awaiting_world).2
    = [Reply_to 42 (Start_restore_msg "dump.bak" 1);
       Thread_start (Run_restore_process "/tmp/ibsng_restore/dump.bak" 42)].
Proof.
  split; [repeat split|].
  destruct (restore_session_transitions (owner_message "" "dump.bak")
              awaiting_world eq_refl) as (_ & Hc & _ & _ & Hd & _).
  destruct (Hc eq_refl) as [Hc1 _].
  destruct (Hd [Byte.x1f] 7 eq_refl eq_refl eq_refl) as [Hd1 Hd2].
  split; [exact Hc1 | split; [exact Hd1 | exact Hd2]].
Defined.

(** ** The /time command *)





(** ** Where a restore file is written *)

Lemma resolve_absolute (file_name : string) :
  Py.startswith file_name "/" = true →
  restore_location file_name = Fs.resolve file_name.
Proof. intros H. unfold restore_location, Py.os_path_join. by rewrite H. Qed.

Lemma resolve_parent (rest : string) :
  restore_location ("../" +:+ rest) = Fs.resolve ("/tmp/" +:+ rest).
Proof.
  unfold restore_location, Py.os_path_join.
  change ("../" +:+ rest) with (String "." (String "." (String "/" rest))).
  change (Py.startswith (String "." (String "." (String "/" rest))) "/") with false.
  change (negb (Py.truthy_str TEMP_DIR) || Py.endswith TEMP_DIR "/") with false.
  cbv iota. unfold Fs.resolve.
  change (TEMP_DIR +:+ "/" +:+ String "." (String "." (String "/" rest)))
    with ((TEMP_DIR +:+ "/..") +:+ String "/" rest).
  change ("/tmp/" +:+ rest) with ("/tmp" +:+ String "/" rest).
  rewrite !split_app_sep, !fold_left_app.
  reflexivity.
Qed.

Lemma resolve_simple (file_name : string) :
  Fs.simple file_name = true →
  restore_location file_name = Fs.resolve TEMP_DIR ++ [file_name].
Proof.
  intros Hn. unfold restore_location, Py.os_path_join.
  rewrite (simple_not_absolute _ Hn).
  destruct (simple_spec _ Hn) as (H1 & H2 & H3 & H4).
  change (negb (Py.truthy_str TEMP_DIR) || Py.endswith TEMP_DIR "/") with false.
  cbv iota. unfold Fs.resolve.
  change ("/" +:+ file_name) with (String "/" file_name).
  rewrite split_app_sep, H4, fold_left_app.
  change (fold_left Fs.walk (Py.split "/" TEMP_DIR) []) with ["ibsng_restore"; "tmp"].
  cbn [fold_left]. unfold Fs.walk at 1.
  rewrite decide_False by (by intros [|]).
  rewrite decide_False by done.
  reflexivity.
Qed.

Lemma resolve_parent_simple (rest : string) :
  Fs.simple rest = true →
  restore_location ("../" +:+ rest) = ["tmp"; rest]
  ∧ ¬ Fs.inside (Fs.resolve TEMP_DIR) (restore_location ("../" +:+ rest)).
Proof.
  intros Hs. destruct (simple_spec _ Hs) as (H1 & H2 & H3 & H4).
  assert (Hloc : restore_location ("../" +:+ rest) = ["tmp"; rest]).
  { rewrite resolve_parent. unfold Fs.resolve.
    change ("/tmp/" +:+ rest) with ("/tmp" +:+ String "/" rest).
    rewrite split_app_sep, H4, fold_left_app.
    change (fold_left Fs.walk (Py.split "/" "/tmp") []) with ["tmp"].
    cbn [fold_left]. unfold Fs.walk at 1.
    rewrite decide_False by (by intros [|]).
    rewrite decide_False by done.
    reflexivity. }
  split; [exact Hloc|]. rewrite Hloc.
  intros (r & Hne & Heq).
  change (Fs.resolve TEMP_DIR) with ["tmp"; "ibsng_restore"] in Heq.
  injection Heq as _ Heq. destruct r; [done | discriminate Heq].
Qed.

Lemma fs_after_document (data : list Byte.byte) (now : Z) (m : message) (w : world) :
  accepted m w →
  fs (handle_document (Downloaded data) now m w).2
  = match write_fault_at (io w) (restore_location (msg_file_name m)) with
    | No_fault => <[restore_location (msg_file_name m) := Fs.File data now]> (fs w)
    | Cannot_open => fs w
    | Fails_after_open partial =>
        <[restore_location (msg_file_name m) := Fs.File partial now]> (fs w)
    end.
Proof.
  intros Hacc. rewrite (handle_document_accepted _ _ _ _ Hacc).
  unfold receive_document, open_write, restore_location. rewrite bind_run.
  destruct (write_fault_at _ _); cbn [fst snd].
  - rewrite !bind_run. cbn [modify fst snd]. unfold reply_to, api_call at 1 2.
    cbn [fst snd]. by destruct (negb _).
  - reflexivity.
  - reflexivity.
Qed.

(** C10, as stated, fails for a name such as [./dump.bak]: it has a
    path separator, yet it is written inside the temporary directory.
    It fails as well for an accepted document whose file cannot be
    opened: nothing is written then. *)
Lemma dotted_name_stays_inside :
  (accepted (owner_message "" "./dump.bak") awaiting_world
   ∧ has_separator "./dump.bak" = true
   ∧ Fs.inside (Fs.resolve TEMP_DIR) (restore_location "./dump.bak")
   ∧ fs (handle_document (Downloaded [Byte.x1f]) 7
           (owner_message "" "./dump.bak") awaiting_world).2
       !! (Fs.resolve TEMP_DIR ++ ["dump.bak"])
     = Some (Fs.File [Byte.x1f] 7))
  ∧ (accepted (owner_message "" "nodir/x.bak") awaiting_world_without_temp_dir
     ∧ fs (handle_document (Downloaded [Byte.x1f]) 7
             (owner_message "" "nodir/x.bak")
             awaiting_world_without_temp_dir).2 = ∅).
Proof.
  assert (Hacc : accepted (owner_message "" "./dump.bak") awaiting_world)
    by (repeat split).
  assert (Hacc' : accepted (owner_message "" "nodir/x.bak")
                    awaiting_world_without_temp_dir)
    by (repeat split).
  split; [split; [exact Hacc | split; [reflexivity | split]] | split; [exact Hacc'|]].
  - exists ["dump.bak"]. split; [discriminate | reflexivity].
  - rewrite (fs_after_document _ _ _ _ Hacc). reflexivity.
  - rewrite (fs_after_document _ _ _ _ Hacc'). reflexivity.
Qed.

(** C10, amended. For every accepted restore document whose file can be
    written, the downloaded content is written at the location denoted
    by the join of the temporary directory with the sender's file name
    taken verbatim, the same path is handed to the restore thread once
    the acknowledgement is sent, and whatever was stored there is
    overwritten: a second upload under the same name replaces the
    first. When the file cannot be opened, nothing is written. An
    absolute name is written at the location it names itself; a name
    [../x] is written next to the temporary directory, outside it; a
    name without separator is written directly inside the temporary
    directory. *)
Theorem restore_file_written_verbatim
    (data : list Byte.byte) (now : Z) (m : message) (w : world) :
  accepted m w →
  let name := msg_file_name m in
  let w1 := (handle_document (Downloaded data) now m w).2 in
  (writable_at w name →
   fs w1 = <[restore_location name := Fs.File data now]> (fs w)
   ∧ (next_call_returns w →
      last (effects w1)
      = Some (Thread_start (Run_restore_process (Py.os_path_join TEMP_DIR name)
                              (msg_chat_id m)))))
  ∧ (∀ data' now' w2,
       accepted m w2 → writable_at w2 name →
       fs w2 !! restore_location name = Some (Fs.File data now) →
       fs (handle_document (Downloaded data') now' m w2).2 !! restore_location name
       = Some (Fs.File data' now'))
  ∧ (write_fault_at (io w) (restore_location name) = Cannot_open → fs w1 = fs w)
  ∧ (Py.startswith name "/" = true → restore_location name = Fs.resolve name)
  ∧ (∀ rest, name = "../" +:+ rest → Fs.simple rest = true →
       restore_location name = ["tmp"; rest]
       ∧ ¬ Fs.inside (Fs.resolve TEMP_DIR) (restore_location name))
  ∧ (Fs.simple name = true →
       restore_location name = Fs.resolve TEMP_DIR ++ [name]).
Proof.
  intros Hacc name w1.
  refine (conj _ (conj _ (conj _ (conj _ (conj _ _))))).
  - intros Hw. split.
    + subst w1. rewrite (fs_after_document _ _ _ _ Hacc).
      unfold writable_at in Hw. subst name. by rewrite Hw.
    + intros Hr. subst w1. rewrite (handle_document_accepted _ _ _ _ Hacc).
      rewrite receive_document_goes_through by done.
      cbn [effects add_effect]. by rewrite last_snoc.
  - intros data' now' w2 Hacc2 Hw2 _.
    rewrite (fs_after_document _ _ _ _ Hacc2).
    unfold writable_at in Hw2. subst name. rewrite Hw2. apply lookup_insert_eq.
  - intros Hc. subst w1 name. by rewrite (fs_after_document _ _ _ _ Hacc), Hc.
  - apply resolve_absolute.
  - intros rest ->. apply resolve_parent_simple.
  - apply resolve_simple.
Qed.

Lemma restore_file_written_verbatim_witness :
  (accepted (owner_message "" "../dump.bak") awaiting_world
   ∧ writable_at awaiting_world "../dump.bak")
  ∧ fs (handle_document (Downloaded [Byte.x1f]) 7 (owner_message "" "../dump.bak")
          awaiting_world).2
    = <[ ["tmp"; "dump.bak"] := Fs.File [Byte.x1f] 7 ]> ∅
  ∧ restore_location "../dump.bak" = ["tmp"; "dump.bak"]
  ∧ ¬ Fs.inside (Fs.resolve TEMP_DIR) (restore_location "../dump.bak").
Proof.
  assert (Hacc : accepted (owner_message "" "../dump.bak") awaiting_world)
    by (repeat split).
  destruct (restore_file_written_verbatim [Byte.x1f] 7
              (owner_message "" "../dump.bak") awaiting_world Hacc)
    as (Hfs & _ & _ & _ & Hup & _).
  destruct (Hfs eq_refl) as [Hfs1 _].
  destruct (Hup "dump.bak" eq_refl eq_refl) as [Hloc Hout].
  split; [split; [exact Hacc | reflexivity]|].
  split; [exact Hfs1|]. split; [exact Hloc | exact Hout].
Defined.

(** ** Streaming the output of the restore script *)

Lemma length_concat_uniform {A} (limit : nat) (cs : list (list A)) :
  Forall (λ c, length c = limit) cs →
  length (concat cs) = (limit * length cs)%nat.
Proof.
  induction 1 as [|c cs Hc _ IH]; cbn [concat length]; [lia|].
  rewrite length_app, IH, Hc. lia.
Qed.

Lemma api_call_reliable (e : event) (w : world) :
  api_reliable w → api_call e w = (true, add_effect e w).
Proof. intros H. unfold api_call. by rewrite H. Qed.

Lemma send_message_reliable (chat : Z) (t : msg) (w : world) :
  api_reliable w →
  send_message chat t w = (true, add_effect (Send_message chat t) w).
Proof. apply api_call_reliable. Qed.

(** While every send returns, the loop flushes full chunks only, keeps
    less than a chunk in the buffer, and loses or reorders nothing. *)
Lemma stream_loop_spec (limit : nat) (chat : Z) (reads : list text) :
  ∀ (output_buffer : text) (w : world),
    api_reliable w →
    (length output_buffer < limit)%nat →
    Forall (λ r, (length r ≤ limit)%nat) reads →
    ∃ chunks remainder,
      (stream_loop limit chat reads output_buffer w).1 = Some remainder
      ∧ (stream_loop limit chat reads output_buffer w).2
        = set_effects (effects w ++ code_messages chat chunks) w
      ∧ Forall (λ c, length c = limit) chunks
      ∧ concat chunks ++ remainder = output_buffer ++ concat reads
      ∧ (length remainder < limit)%nat.
Proof.
  induction reads as [|r reads IH]; intros buf w Hrel Hbuf Hreads.
  { exists [], buf. cbn. rewrite !app_nil_r.
    split; [done|]. split; [by destruct w|]. by repeat split. }
  apply Forall_cons in Hreads as [Hr Hreads].
  cbn [stream_loop concat].
  destruct r as [|a r'] eqn:Er.
  { cbn [nonempty]. destruct (IH buf w Hrel Hbuf Hreads) as (cs & rest & H).
    by exists cs, rest. }
  rewrite <- Er in *. cbn [nonempty].
  replace (nonempty r) with true by (by rewrite Er).
  destruct (Nat.leb_spec limit (length (buf ++ r))) as [Hge|Hlt].
  - rewrite bind_run, send_message_reliable by done. cbn [fst snd].
    assert (Hdrop : (length (drop limit (buf ++ r)) < limit)%nat).
    { rewrite length_drop, length_app. lia. }
    destruct (IH (drop limit (buf ++ r))
                 (add_effect (Send_message chat (Code_block (take limit (buf ++ r)))) w)
                 Hrel Hdrop Hreads) as (cs & rest & H0 & H1 & H2 & H3 & H4).
    exists (take limit (buf ++ r) :: cs), rest. repeat split.
    + done.
    + rewrite H1. cbn [effects add_effect code_messages map set_effects].
      by rewrite <- app_assoc.
    + apply Forall_cons. split; [|done]. by apply length_take_le.
    + cbn [concat]. rewrite <- app_assoc, H3, !app_assoc.
      by rewrite take_drop.
    + done.
  - destruct (IH (buf ++ r) w Hrel Hlt Hreads) as (cs & rest & H0 & H1 & H2 & H3 & H4).
    exists cs, rest. repeat split; [done..| |done]. by rewrite H3, app_assoc.
Qed.

Lemma effects_after_os_remove (p : string) (w : world) :
  effects (os_remove p w).2 = effects w.
Proof. by rewrite (preserves_os_remove effects). Qed.

Lemma io_after_os_remove (p : string) (w : world) :
  io (os_remove p w).2 = io w.
Proof. by rewrite (preserves_os_remove io). Qed.

(** The [except] clause when its send returns. *)
Lemma restore_failed_reliable (file_path : string) (chat : Z) (w : world) :
  api_reliable w →
  restore_failed file_path chat w
  = (Thread_returns,
     (os_remove file_path
        (add_effect (Send_message chat Restore_exception_msg) w)).2).
Proof.
  intros H. unfold restore_failed.
  rewrite bind_run, send_message_reliable by done. cbn [fst snd].
  by rewrite bind_run.
Qed.

(** What follows the loop when every send returns. *)
Lemma restore_report_reliable (file_path : string) (chat : Z)
    (output_buffer : text) (stderr_output : option text) (returncode : Z)
    (w : world) :
  api_reliable w →
  (restore_report file_path chat output_buffer stderr_output returncode w).1
  = Thread_returns
  ∧ effects (restore_report file_path chat output_buffer stderr_output
               returncode w).2
    = effects w ++ after_loop chat output_buffer (Loop_eof stderr_output returncode)
  ∧ fs (restore_report file_path chat output_buffer stderr_output
          returncode w).2
    = fs (os_remove file_path w).2.
Proof.
  intros H. unfold restore_report, after_loop, remainder_message, closing_messages.
  assert (Hfs : ∀ evs w', fs w' = fs w → io w' = io w →
                  fs (os_remove file_path (set_effects evs w')).2
                  = fs (os_remove file_path w).2).
  { intros evs w' Hf Hi. rewrite !fs_os_remove. cbn [io fs set_effects].
    by rewrite Hf, Hi. }
  rewrite bind_run.
  set (w1 := ((if nonempty output_buffer
               then send_message chat (Code_block output_buffer)
               else ret true) w)).
  assert (Hw1 : w1 = (true, set_effects
                        (effects w ++ (if nonempty output_buffer
                           then [Send_message chat (Code_block output_buffer)]
                           else [])) w)).
  { subst w1. destruct (nonempty output_buffer).
    - by rewrite send_message_reliable.
    - unfold ret. f_equal. rewrite app_nil_r. by destruct w. }
  rewrite Hw1. cbn [fst snd negb]. clear w1 Hw1.
  set (w1 := set_effects _ w).
  assert (Hrel1 : api_reliable w1) by exact H.
  destruct stderr_output as [stderr_output|].
  2:{ rewrite restore_failed_reliable by done. cbn [fst snd].
      rewrite effects_after_os_remove.
      split; [done|]. split.
      - subst w1. cbn [effects add_effect set_effects]. by rewrite <- app_assoc.
      - by apply (Hfs _ w). }
  rewrite bind_run.
  set (w2 := ((if nonempty stderr_output
               then send_message chat (Stderr_msg stderr_output)
               else ret true) w1)).
  assert (Hw2 : w2 = (true, set_effects
                        (effects w1 ++ (if nonempty stderr_output
                           then [Send_message chat (Stderr_msg stderr_output)]
                           else [])) w)).
  { subst w2. destruct (nonempty stderr_output).
    - by rewrite send_message_reliable.
    - unfold ret. f_equal. rewrite app_nil_r. by destruct w. }
  rewrite Hw2. cbn [fst snd negb]. clear w2 Hw2.
  set (w2 := set_effects _ w).
  assert (Hrel2 : api_reliable w2) by exact H.
  rewrite bind_run.
  set (w3 := ((if returncode =? 0
               then send_message chat Restore_success_msg
               else send_message chat (Restore_error_msg returncode)) w2)).
  assert (Hw3 : w3 = (true, set_effects
                        (effects w2 ++
                           [Send_message chat
                              (if returncode =? 0 then Restore_success_msg
                               else Restore_error_msg returncode)]) w)).
  { subst w3. destruct (returncode =? 0); by rewrite send_message_reliable. }
  rewrite Hw3. cbn [fst snd negb]. clear w3 Hw3.
  set (w3 := set_effects _ w).
  rewrite !bind_run.
  split; [by destruct (os_remove file_path w3).1|]. split.
  - transitivity (effects w3).
    + destruct (os_remove file_path w3).1; cbn [print modify snd];
        apply effects_after_os_remove.
    + subst w3 w2 w1. cbn [effects set_effects]. by rewrite <- !app_assoc.
  - transitivity (fs (os_remove file_path w3).2).
    + by destruct (os_remove file_path w3).1.
    + by apply (Hfs _ w).
Qed.

(** What a restore thread sends and how it ends, when every send
    returns. *)
Lemma run_restore_process_effects
    (changes : gmap (list string) Fs.file → gmap (list string) Fs.file)
    (reads : list text) (ending : loop_end)
    (file_path : string) (chat : Z) (w : world) :
  api_reliable w →
  Forall (λ r, (length r ≤ 1000)%nat) reads →
  ∃ chunks remainder,
    effects (run_restore_process (Popen_ran changes reads ending)
               file_path chat w).2
    = effects w ++ [Popen_restore_script file_path]
      ++ code_messages chat chunks
      ++ after_loop chat remainder ending
    ∧ (run_restore_process (Popen_ran changes reads ending) file_path chat w).1
      = end_of_thread (Popen_ran changes reads ending)
    ∧ Forall (λ c, length c = FLUSH_THRESHOLD) chunks
    ∧ (length remainder < FLUSH_THRESHOLD)%nat
    ∧ concat chunks ++ remainder = concat reads
    ∧ fs (run_restore_process (Popen_ran changes reads ending)
            file_path chat w).2
      = match ending with
        | Loop_blocks => changes (fs w)
        | _ => if remove_denied (io w) (Fs.resolve file_path)
               then changes (fs w)
               else delete (Fs.resolve file_path) (changes (fs w))
        end.
Proof.
  intros Hrel Hreads.
  unfold run_restore_process, run_restore_process_with.
  rewrite bind_run. cbn [emit modify fst snd].
  rewrite bind_run. cbn [modify fst snd].
  set (w0 := set_fs (changes (fs (add_effect (Popen_restore_script file_path) w)))
               (add_effect (Popen_restore_script file_path) w)).
  assert (Hrel0 : api_reliable w0) by exact Hrel.
  destruct (stream_loop_spec FLUSH_THRESHOLD chat reads [] w0 Hrel0)
    as (cs & rest & H0 & H1 & H2 & H3 & H4).
  { unfold FLUSH_THRESHOLD. cbn [length]. lia. }
  { eapply Forall_impl; [exact Hreads|]. unfold FLUSH_THRESHOLD.
    cbn beta. intros r Hr. lia. }
  rewrite bind_run, H0, H1.
  set (w1 := set_effects _ w0).
  assert (Hrel1 : api_reliable w1) by exact Hrel.
  assert (He1 : effects w1 = effects w ++ [Popen_restore_script file_path]
                             ++ code_messages chat cs).
  { subst w1 w0. cbn [effects set_effects set_fs add_effect].
    by rewrite <- app_assoc. }
  exists cs, rest. split; [|split; [|split; [done|split; [done|split; [done|]]]]].
  - destruct ending as [stderr_output returncode| |].
    + destruct (restore_report_reliable file_path chat rest stderr_output
                  returncode w1 Hrel1) as (_ & He & _).
      rewrite He, He1. by rewrite <- !app_assoc.
    + rewrite restore_failed_reliable by done. cbn [snd].
      rewrite effects_after_os_remove. cbn [effects add_effect after_loop].
      rewrite He1. by rewrite <- !app_assoc.
    + cbn [ret snd after_loop]. rewrite He1. by rewrite app_nil_r.
  - destruct ending as [stderr_output returncode| |]; cbn [end_of_thread].
    + by destruct (restore_report_reliable file_path chat rest stderr_output
                     returncode w1 Hrel1) as (-> & _).
    + by rewrite restore_failed_reliable.
    + reflexivity.
  - destruct ending as [stderr_output returncode| |].
    + destruct (restore_report_reliable file_path chat rest stderr_output
                  returncode w1 Hrel1) as (_ & _ & ->).
      by rewrite fs_os_remove.
    + rewrite restore_failed_reliable by done. cbn [snd].
      by rewrite fs_os_remove.
    + reflexivity.
Qed.

(** C6, as stated, fails when the restore script does not come to an
    end, as when it is stuck writing to a standard error pipe that
    nobody empties: of 9000 characters of output only the first two
    chunks of 3500 are ever sent, and the thread never gets past the
    loop. *)
Lemma blocked_script_sends_two_messages :
  len (concat nine_thousand) = 9000
  ∧ (run_restore_process (Popen_ran id nine_thousand Loop_blocks)
       "/tmp/ibsng_restore/dump.bak" 42 running_world).1 = Thread_hangs
  ∧ map (λ ev, match ev with
               | Send_message _ (Code_block c) => len c
               | _ => 0
               end)
      (effects (run_restore_process (Popen_ran id nine_thousand Loop_blocks)
                  "/tmp/ibsng_restore/dump.bak" 42 running_world).2)
    = [0; 3500; 3500].
Proof. vm_compute. repeat split. Qed.

(** C6, amended. When the output of the restore process totals 9000
    characters (delivered by reads of at most 1000 characters, as
    [process.stdout.read(1000)] does), the threshold is 3500, every
    call of the chat API returns and the script comes to an end with
    its error stream read, exactly three code-block messages are sent,
    carrying the first 3500, the next 3500 and the last 2000 characters
    in that order, before the error stream and the verdict. When the
    script never ends, only the first two of them are sent. *)
Theorem nine_thousand_characters_in_three_messages
    (changes : gmap (list string) Fs.file → gmap (list string) Fs.file)
    (reads : list text) (file_path : string) (chat : Z) (w : world) :
  api_reliable w →
  Forall (λ r, len r ≤ 1000) reads →
  len (concat reads) = 9000 →
  Z.of_nat FLUSH_THRESHOLD = 3500
  ∧ ∃ c1 c2 c3,
      (∀ stderr_output returncode,
         effects (run_restore_process
                    (Popen_ran changes reads
                       (Loop_eof (Some stderr_output) returncode))
                    file_path chat w).2
         = effects w
           ++ [Popen_restore_script file_path;
               Send_message chat (Code_block c1);
               Send_message chat (Code_block c2);
               Send_message chat (Code_block c3)]
           ++ closing_messages chat stderr_output returncode)
      ∧ effects (run_restore_process (Popen_ran changes reads Loop_blocks)
                   file_path chat w).2
        = effects w
          ++ [Popen_restore_script file_path;
              Send_message chat (Code_block c1);
              Send_message chat (Code_block c2)]
      ∧ len c1 = 3500 ∧ len c2 = 3500 ∧ len c3 = 2000
      ∧ c1 ++ c2 ++ c3 = concat reads.
Proof.
  intros Hrel Hreads Htotal. split; [reflexivity|].
  assert (Hreads' : Forall (λ r, (length r ≤ 1000)%nat) reads).
  { eapply Forall_impl; [exact Hreads|]. unfold len. cbn beta. intros r Hr. lia. }
  assert (Hshape : ∀ cs rem,
            Forall (λ c, length c = FLUSH_THRESHOLD) cs →
            (length rem < FLUSH_THRESHOLD)%nat →
            concat cs ++ rem = concat reads →
            ∃ c1 c2, cs = [c1; c2] ∧ len c1 = 3500 ∧ len c2 = 3500
                     ∧ len rem = 2000 ∧ nonempty rem = true).
  { intros cs rem Hcs Hrem Hcat.
    pose proof (length_concat_uniform _ _ Hcs) as Hlen.
    assert (Hsum : (FLUSH_THRESHOLD * length cs + length rem
                    = length (concat reads))%nat).
    { rewrite <- Hcat, length_app, Hlen. reflexivity. }
    unfold len, FLUSH_THRESHOLD in *.
    assert (Hn : length cs = 2%nat) by lia.
    assert (Hr : length rem = 2000%nat) by lia.
    destruct cs as [|c1 [|c2 [|c3 cs]]]; try discriminate Hn.
    apply Forall_cons in Hcs as [Hc1 Hcs]. apply Forall_cons in Hcs as [Hc2 _].
    exists c1, c2. repeat split; [lia..|].
    destruct rem; [discriminate Hr | reflexivity]. }
  destruct (run_restore_process_effects changes reads Loop_blocks
              file_path chat w Hrel Hreads')
    as (cs & rem & He & _ & Hcs & Hrem & Hcat & _).
  destruct (Hshape cs rem Hcs Hrem Hcat) as (c1 & c2 & -> & L1 & L2 & L3 & Hne).
  exists c1, c2, rem.
  refine (conj _ (conj _ (conj L1 (conj L2 (conj L3 _))))).
  - intros stderr_output returncode.
    destruct (run_restore_process_effects changes reads
                (Loop_eof (Some stderr_output) returncode)
                file_path chat w Hrel Hreads')
      as (cs' & rem' & He' & _ & Hcs' & Hrem' & Hcat' & _).
    destruct (Hshape cs' rem' Hcs' Hrem' Hcat')
      as (c1' & c2' & -> & L1' & L2' & L3' & Hne').
    assert (Hsame : c1' = c1 ∧ c2' = c2 ∧ rem' = rem).
    { rewrite <- Hcat in Hcat'. cbn [concat] in Hcat'.
      rewrite !app_nil_r, <- !app_assoc in Hcat'.
      apply app_inj_1 in Hcat' as [-> Hcat']; [|unfold len in *; lia].
      apply app_inj_1 in Hcat' as [-> ->]; [done | unfold len in *; lia]. }
    destruct Hsame as (-> & -> & ->).
    rewrite He'. cbn [after_loop]. unfold remainder_message. rewrite Hne.
    reflexivity.
  - rewrite He. cbn [after_loop code_messages map app]. reflexivity.
  - rewrite <- Hcat. cbn [concat]. by rewrite app_nil_r, app_assoc.
Qed.

Lemma nine_thousand_characters_witness :
  (api_reliable running_world
   ∧ Forall (λ r, len r ≤ 1000) nine_thousand
   ∧ len (concat nine_thousand) = 9000)
  ∧ ∃ c1 c2 c3,
      effects (run_restore_process (Popen_ran id nine_thousand (Loop_eof (Some []) 0))
                 "/tmp/ibsng_restore/dump.bak" 42 running_world).2
      = [Popen_restore_script "/tmp/ibsng_restore/dump.bak";
         Send_message 42 (Code_block c1);
         Send_message 42 (Code_block c2);
         Send_message 42 (Code_block c3);
         Send_message 42 Restore_success_msg]
      ∧ len c1 = 3500 ∧ len c2 = 3500 ∧ len c3 = 2000.
Proof.
  assert (H0 : api_reliable running_world) by (intros k; reflexivity).
  assert (H1 : Forall (λ r, len r ≤ 1000) nine_thousand).
  { unfold nine_thousand. apply Forall_replicate. vm_compute. discriminate. }
  assert (H2 : len (concat nine_thousand) = 9000)
    by (vm_compute; reflexivity).
  split; [split; [exact H0 | split; [exact H1 | exact H2]]|].
  destruct (nine_thousand_characters_in_three_messages id nine_thousand
              "/tmp/ibsng_restore/dump.bak" 42 running_world H0 H1 H2)
    as (_ & c1 & c2 & c3 & He & _ & L1 & L2 & L3 & _).
  exists c1, c2, c3. split; [exact (He [] 0)|].
  split; [exact L1|]. split; [exact L2 | exact L3].
Defined.

(** * Further properties *)

(** ** The throttle in general *)

(** X2. The verdict of the throttle of [bot.py]. Without a recorded
    timestamp, or with one of zero, the backup is let through. A
    timestamp too large for a float ends the check with an exception.
    For a clock and a non-zero timestamp that floats hold exactly
    (below [2^53], as is their difference): an interval of [null] ends
    the check with an exception; otherwise, the interval being the
    configured [min_interval_hours], or the global [MIN_INTERVAL_HOURS]
    when the key is missing, the backup is let through when the
    interval has passed, held back when it has not, and the check ends
    with an exception when it has not and the interval in seconds is
    too large for a float. A check that does not hold the backup back
    prints nothing and changes nothing. *)
Theorem throttle_verdict (now : Z) (r : dict_ref) (w : world) :
  (cfg_last_backup (deref r w).1 = None ∨ cfg_last_backup (deref r w).1 = Some 0 →
   (check_backup_interval now r w).1 = Some true)
  ∧ (∀ t, cfg_last_backup (deref r w).1 = Some t → t ≠ 0 →
          Py.fits_float t = false →
          (check_backup_interval now r w).1 = None)
  ∧ (∀ t, cfg_last_backup (deref r w).1 = Some t → t ≠ 0 →
          Py.exact now → Py.exact t → Py.exact (now - t) →
          (check_backup_interval now r w).1
          = match interval_setting (deref r w).1 w with
            | None => None
            | Some h =>
                if decide (now - t < h * 3600)
                then if Py.fits_float (h * 3600) then Some false else None
                else Some true
            end)
  ∧ ((check_backup_interval now r w).1 ≠ Some false
     → (check_backup_interval now r w).2 = w).
Proof.
  pose proof (check_backup_interval_cases now r w) as H. cbv zeta in H.
  refine (conj _ (conj _ (conj _ _))).
  - intros [Hl|Hl]; rewrite H, Hl; [done|]. by rewrite decide_True.
  - intros t Hl Hnz Hf. rewrite H, Hl, decide_False, Hf by done. done.
  - intros t Hl Hnz _ Ht%exact_fits_float _.
    rewrite H, Hl, decide_False, Ht by done.
    destruct (interval_setting _ _) as [h|]; [|done].
    destruct (decide _); [|done]. by destruct (Py.fits_float (h * 3600)).
  - intros Hne.
    destruct (check_backup_interval_world now r w) as (lines & -> & Hl).
    by rewrite (Hl Hne).
Qed.

(** X3. Once a backup is due it stays due: if the throttle lets an
    attempt through at some clock reading, it lets it through at every
    later one (same configuration, same world). *)
Theorem throttle_due_stays_due (now now' : Z) (r : dict_ref) (w : world) :
  now ≤ now' →
  (check_backup_interval now r w).1 = Some true →
  (check_backup_interval now' r w).1 = Some true.
Proof.
  intros Hle Hdue.
  destruct (check_backup_interval now' r w).1 as [[|]|] eqn:Hlater; [done| |].
  - apply check_backup_interval_held in Hlater
      as (t & h & Ht & Hnz & Hh & Hlt & Hft & Hfh).
    assert (Hearly : (check_backup_interval now r w).1 = Some false).
    { apply check_backup_interval_held. exists t, h.
      repeat split; [done..|lia|done|done]. }
    congruence.
  - apply check_backup_interval_raises in Hlater as (t & Ht & Hnz & Hwhy).
    assert (Hearly : (check_backup_interval now r w).1 = None).
    { apply check_backup_interval_raises. exists t.
      split; [done|]. split; [done|].
      destruct Hwhy as [?|[?|(h & ? & ? & ?)]]; [by left | by right; left |].
      right. right. exists h. repeat split; [done | lia | done]. }
    congruence.
Qed.

Lemma throttle_due_stays_due_witness :
  1007200 ≤ 1010000
  ∧ (check_backup_interval 1007200 (Fresh sample_config) sample_world).1 = Some true
  ∧ (check_backup_interval 1010000 (Fresh sample_config) sample_world).1 = Some true.
Proof.
  assert (H1 : 1007200 ≤ 1010000) by discriminate.
  assert (H2 : (check_backup_interval 1007200 (Fresh sample_config)
                  sample_world).1 = Some true) by reflexivity.
  split; [exact H1|]. split; [exact H2|].
  exact (throttle_due_stays_due 1007200 1010000 (Fresh sample_config)
           sample_world H1 H2).
Defined.

(** X4. When the throttle holds a backup back and the clock, the
    timestamp, the interval in seconds and their differences are below
    [2^53] (where the float arithmetic of the script is exact), the two
    printed lines give the interval and a remaining time in whole hours
    and minutes that is never negative, has fewer than 60 minutes, and
    is the remaining seconds rounded down to the minute. *)
Theorem throttle_remaining_time (now t h : Z) (r : dict_ref) (w : world) :
  cfg_last_backup (deref r w).1 = Some t →
  t ≠ 0 →
  interval_setting (deref r w).1 w = Some h →
  now - t < h * 3600 →
  Py.exact now → Py.exact t → Py.exact (now - t) →
  Py.exact (h * 3600) → Py.exact (h * 3600 - (now - t)) →
  let remaining := h * 3600 - (now - t) in
  ∃ hours minutes,
    stdout (check_backup_interval now r w).2
    = stdout w ++ [Log_last_backup_recent h; Log_time_remaining hours minutes]
    ∧ 0 ≤ hours ∧ 0 ≤ minutes < 60
    ∧ hours * 3600 + minutes * 60 ≤ remaining < hours * 3600 + minutes * 60 + 60.
Proof.
  intros Ht Hnz Hh Hlt _ Het _ Eh _ remaining.
  pose proof (check_backup_interval_cases now r w) as H. cbv zeta in H.
  rewrite Ht, Hh in H. rewrite decide_False in H by done.
  rewrite !exact_fits_float in H by done.
  rewrite decide_True in H by done.
  exists (remaining / 3600), ((remaining mod 3600) / 60).
  split.
  { rewrite H. cbn [snd stdout add_stdout]. by rewrite <- app_assoc. }
  assert (Hpos : 0 < remaining) by (subst remaining; lia).
  pose proof (Z.div_mod remaining 3600 ltac:(lia)).
  pose proof (Z.mod_pos_bound remaining 3600 ltac:(lia)).
  pose proof (Z.div_mod (remaining mod 3600) 60 ltac:(lia)).
  pose proof (Z.mod_pos_bound (remaining mod 3600) 60 ltac:(lia)).
  assert (0 ≤ remaining / 3600) by (apply Z.div_pos; lia).
  assert (0 ≤ (remaining mod 3600) / 60) by (apply Z.div_pos; lia).
  assert ((remaining mod 3600) / 60 < 60) by (apply Z.div_lt_upper_bound; lia).
  lia.
Qed.

Lemma throttle_remaining_time_witness :
  (cfg_last_backup (deref (Fresh sample_config) sample_world).1 = Some 1000000
   ∧ 1000000 ≠ 0
   ∧ interval_setting (deref (Fresh sample_config) sample_world).1 sample_world
     = Some 2
   ∧ 1003500 - 1000000 < 2 * 3600)
  ∧ ∃ hours minutes,
      stdout (check_backup_interval 1003500 (Fresh sample_config) sample_world).2
      = [Log_last_backup_recent 2; Log_time_remaining hours minutes]
      ∧ 0 ≤ hours ∧ 0 ≤ minutes < 60.
Proof.
  assert (H1 : 1000000 ≠ 0) by discriminate.
  assert (H2 : 1003500 - 1000000 < 2 * 3600) by reflexivity.
  assert (E1 : Py.exact 1003500) by (by vm_compute).
  assert (E2 : Py.exact 1000000) by (by vm_compute).
  assert (E3 : Py.exact (1003500 - 1000000)) by (by vm_compute).
  assert (E4 : Py.exact (2 * 3600)) by (by vm_compute).
  assert (E5 : Py.exact (2 * 3600 - (1003500 - 1000000))) by (by vm_compute).
  split; [split; [reflexivity | split; [exact H1 | split; [reflexivity | exact H2]]]|].
  destruct (throttle_remaining_time 1003500 1000000 2 (Fresh sample_config)
              sample_world eq_refl H1 eq_refl H2 E1 E2 E3 E4 E5)
    as (h & m & Hs & Hh & Hm & _).
  exists h, m. split; [exact Hs | split; [exact Hh | exact Hm]].
Defined.

(** X5. The throttle of [main.py] never reads the configured interval:
    changing [min_interval_hours] in the configuration does not change
    its verdict, and it agrees with the throttle of [bot.py] exactly on
    configurations that lack the key. *)
Theorem main_throttle_ignores_configured_interval
    (now h : Z) (c : cfg) (w : world) :
  check_backup_interval_main now (Fresh (with_min_interval_hours h c)) w
  = check_backup_interval_main now (Fresh c) w
  ∧ check_backup_interval_main now (Fresh c) w
    = check_backup_interval now
        (Fresh (Cfg (cfg_bot_token c) (cfg_chat_id c) (cfg_last_backup c) None)) w.
Proof.
  unfold check_backup_interval_main, check_backup_interval.
  split; run; cbn; reflexivity.
Qed.

(** ** What a backup cycle returns and requests *)


(** X7. The external requests of one cycle: nothing at all when the
    throttle holds it back; otherwise exactly one run of the backup
    script, followed by at most one upload, which is requested only
    when a valid artifact exists and both a token and a chat id are
    configured, and which names that artifact and those credentials. *)
Theorem backup_cycle_requests (e : backup_env) (force : bool) (w : world) :
  effects (run_backup_process e force w).2
  = effects w ++ (if proceeds e force w
                  then Run_backup_script :: upload_request e w
                  else []).
Proof.
  destruct (proceeds e force w) eqn:Hp.
  - by apply effects_after_due_run.
  - rewrite run_backup_process_split. unfold proceeds in Hp.
    destruct (throttle_world_frame e force w) as (_ & _ & _ & Hef & _).
    destruct (throttle e force w).1 as [[]|]; [done|..];
      cbn [snd]; by rewrite Hef, app_nil_r.
Qed.

Lemma throttle_world_due (e : backup_env) (w : world) :
  proceeds e false w = true →
  throttle_world e false w = throttle_world e true w.
Proof.
  intros Hp%proceeds_throttle. unfold throttle_world.
  rewrite throttle_unforced in *. unfold throttle. rewrite bind_run.
  by apply check_backup_interval_due in Hp as ->.
Qed.

(** X8. Forcing only bypasses the throttle: whenever an unforced run is
    due, it does exactly what the forced run does, to the last printed
    line. *)
Theorem due_run_equals_forced_run (e : backup_env) (w : world) :
  proceeds e false w = true →
  run_backup_process e false w = run_backup_process e true w.
Proof.
  intros Hp. rewrite !run_backup_process_split.
  rewrite (throttle_world_due e w Hp).
  apply proceeds_throttle in Hp as ->. by rewrite forced_throttle.
Qed.

Lemma due_run_equals_forced_run_witness :
  proceeds sample_env false bare_world = false
  ∧ proceeds
      (Backup_env 1010000 (Script_ran sample_script) (Curl_reply true)
         1010001 1010002) false bare_world = true
  ∧ run_backup_process
      (Backup_env 1010000 (Script_ran sample_script) (Curl_reply true)
         1010001 1010002) false bare_world
    = run_backup_process
        (Backup_env 1010000 (Script_ran sample_script) (Curl_reply true)
           1010001 1010002) true bare_world.
Proof.
  split; [reflexivity|]. split; [reflexivity|].
  exact (due_run_equals_forced_run
           (Backup_env 1010000 (Script_ran sample_script) (Curl_reply true)
              1010001 1010002) bare_world eq_refl).
Defined.

(** X9. With a configuration file that cannot be parsed, every cycle is
    due and runs without credentials: the script is run, nothing is
    uploaded, and when an artifact was produced and the file can be
    written, the file is replaced by a configuration that holds the new
    timestamp and nothing else. *)
Theorem malformed_config_cycle (e : backup_env) (force : bool) (w : world) :
  config_file w = Malformed →
  proceeds e force w = true
  ∧ effects (run_backup_process e force w).2 = effects w ++ [Run_backup_script]
  ∧ config_file (run_backup_process e force w).2
    = if bool_decide (is_Some (produced_artifact e w)) && config_writable w
      then Parsed (Cfg None None (Some (now_stamp e)) None)
      else Malformed.
Proof.
  intros Hm.
  assert (Hl : load_config w = (Fresh empty_config,
                                add_stdout Log_error_reading_config w)).
  { unfold load_config. by rewrite Hm. }
  assert (Hc : loaded_config w = empty_config).
  { unfold loaded_config. by rewrite bind_run, Hl. }
  assert (Hp : proceeds e force w = true).
  { unfold proceeds, throttle. rewrite bind_run, Hl. by destruct force. }
  split; [exact Hp|]. split.
  - rewrite (effects_after_due_run _ _ _ Hp).
    unfold upload_request, credentials_configured.
    rewrite Hc. cbn. by destruct (produced_artifact e w) as [[? ?]|].
  - rewrite config_file_after_run, Hp, Hc.
    unfold upload_completed, credentials_configured, after_save. rewrite Hc, Hm.
    cbn. rewrite andb_true_r.
    destruct (bool_decide _); [|done].
    destruct (config_writable w); [done|]. by destruct (config_truncated _).
Qed.

Lemma malformed_config_cycle_witness :
  config_file malformed_world = Malformed
  ∧ proceeds sample_env false malformed_world = true
  ∧ effects (run_backup_process sample_env false malformed_world).2
    = [Run_backup_script].
Proof.
  destruct (malformed_config_cycle sample_env false malformed_world eq_refl)
    as (H1 & H2 & _).
  split; [reflexivity | split; [exact H1 | exact H2]].
Defined.


(** ** Reading the artifact path off the script's output *)

Lemma split_unlines (ls : list string) :
  ls ≠ [] → Forall is_line ls → Py.split "010" (unlines ls) = ls.
Proof.
  induction ls as [|l ls IH]; [done|]. intros _ Hls.
  apply Forall_cons in Hls as [Hl Hls].
  destruct ls as [|l' ls]; [exact Hl|].
  change (unlines (l :: l' :: ls)) with (l +:+ String "010" (unlines (l' :: ls))).
  rewrite split_app_sep, IH by done. by rewrite Hl.
Qed.

Lemma is_line_cons (a : ascii) (s : string) :
  a ≠ "010"%char → is_line s → is_line (String a s).
Proof.
  unfold is_line. intros Ha Hs. cbn [Py.split].
  rewrite decide_False by done. by rewrite Hs.
Qed.

Lemma find_app_skip {A} (f : A → bool) (before after : list A) (x : A) :
  Forall (λ y, f y = false) before → f x = true →
  List.find f (before ++ x :: after) = Some x.
Proof.
  intros Hb Hx. induction Hb as [|y before Hy _ IH]; cbn [app List.find].
  - by rewrite Hx.
  - by rewrite Hy.
Qed.

(** X11. The scan of the script's output returns the path printed on
    the first marker line, verbatim and whole (equals signs in the path
    included), wherever that line stands among lines that do not start
    with the marker; later marker lines are not looked at. *)
Theorem marker_line_round_trip (before after : list string) (p : string) :
  Forall (λ l, is_line l ∧ Py.startswith l MARKER = false) before →
  is_line p →
  Forall is_line after →
  find_backup_file_path (unlines (before ++ (MARKER +:+ p) :: after)) = Some p.
Proof.
  intros Hb Hp Ha. unfold find_backup_file_path.
  assert (Hm : is_line (MARKER +:+ p)).
  { cbv [MARKER String.append]. repeat (apply is_line_cons; [discriminate|]).
    exact Hp. }
  rewrite split_unlines.
  - rewrite (find_app_skip _ before after (MARKER +:+ p)).
    + cbv [MARKER String.append]. reflexivity.
    + eapply Forall_impl; [exact Hb|]. by intros l [_ Hl].
    + cbv [MARKER String.append]. cbn. by destruct p.
  - by destruct before.
  - apply Forall_app. split.
    + eapply Forall_impl; [exact Hb|]. by intros l [Hl _].
    + by apply Forall_cons.
Qed.

Lemma marker_line_round_trip_witness :
  (Forall (λ l, is_line l ∧ Py.startswith l MARKER = false)
     ["Dumping IBSng"; "done"]
   ∧ is_line "/tmp/ibsng_backup_files/a=b.dump.gz"
   ∧ Forall is_line ["BACKUP_FILE_PATH=/tmp/other"])
  ∧ find_backup_file_path
      (unlines (["Dumping IBSng"; "done"]
                ++ (MARKER +:+ "/tmp/ibsng_backup_files/a=b.dump.gz")
                   :: ["BACKUP_FILE_PATH=/tmp/other"]))
    = Some "/tmp/ibsng_backup_files/a=b.dump.gz".
Proof.
  assert (H1 : Forall (λ l, is_line l ∧ Py.startswith l MARKER = false)
                 ["Dumping IBSng"; "done"]).
  { repeat constructor. }
  assert (H2 : is_line "/tmp/ibsng_backup_files/a=b.dump.gz") by reflexivity.
  assert (H3 : Forall is_line ["BACKUP_FILE_PATH=/tmp/other"]).
  { repeat constructor. }
  split; [split; [exact H1 | split; [exact H2 | exact H3]]|].
  exact (marker_line_round_trip ["Dumping IBSng"; "done"]
           ["BACKUP_FILE_PATH=/tmp/other"]
           "/tmp/ibsng_backup_files/a=b.dump.gz" H1 H2 H3).
Defined.

(** X12. When no line of the script's output starts with the marker,
    the scan finds no path and the cycle fails without uploading,
    without touching the configuration file and without deleting
    anything, even though the script exited with status zero. *)
Theorem no_marker_no_backup (e : backup_env) (force : bool) (w : world)
    (r : script_run) :
  script e = Script_ran r →
  Forall (λ l, Py.startswith l MARKER = false) (Py.split "010" (sr_stdout r)) →
  proceeds e force w = true →
  (run_backup_process e force w).1 = Some false
  ∧ effects (run_backup_process e force w).2 = effects w ++ [Run_backup_script]
  ∧ config_file (run_backup_process e force w).2 = config_file w
  ∧ fs (run_backup_process e force w).2 = write_all (sr_files r) (fs w).
Proof.
  intros Hs Hlines Hp.
  assert (Hf : find_backup_file_path (sr_stdout r) = None).
  { unfold find_backup_file_path.
    destruct (List.find _ _) as [l|] eqn:Hfind; [|done].
    apply find_some in Hfind as [Hin Hl].
    rewrite Forall_forall in Hlines. apply list_elem_of_In in Hin.
    specialize (Hlines l Hin). unfold MARKER in Hlines. congruence. }
  assert (Ha : produced_artifact e w = None).
  { unfold produced_artifact. rewrite Hs, Hf. by destruct (_ =? _). }
  destruct (run_backup_process_no_artifact e force w Hp Ha) as [Hr Hfs].
  split; [exact Hr|]. split; [|split].
  - rewrite (effects_after_due_run _ _ _ Hp). unfold upload_request. by rewrite Ha.
  - rewrite config_file_after_run, Ha. cbn. by rewrite andb_false_r.
  - rewrite Hfs. unfold script_writes. by rewrite Hs.
Qed.

Lemma no_marker_no_backup_witness :
  (script (Backup_env 0 (Script_ran (Script_run 0 "all good" [])) Curl_failed 0 0)
   = Script_ran (Script_run 0 "all good" [])
   ∧ Forall (λ l, Py.startswith l MARKER = false) (Py.split "010" "all good")
   ∧ proceeds (Backup_env 0 (Script_ran (Script_run 0 "all good" [])) Curl_failed 0 0)
       true sample_world = true)
  ∧ (run_backup_process
       (Backup_env 0 (Script_ran (Script_run 0 "all good" [])) Curl_failed 0 0)
       true sample_world).1 = Some false.
Proof.
  assert (H2 : Forall (λ l, Py.startswith l MARKER = false)
                 (Py.split "010" "all good")).
  { repeat constructor. }
  split; [split; [reflexivity | split; [exact H2 | reflexivity]]|].
  exact (proj1 (no_marker_no_backup
           (Backup_env 0 (Script_ran (Script_run 0 "all good" [])) Curl_failed 0 0)
           true sample_world (Script_run 0 "all good" []) eq_refl H2 eq_refl)).
Defined.

(** ** The streaming loop in general *)

(** The loop whether or not a send raises: full chunks only, in order,
    and it stops at the first send that raises. *)
Lemma stream_loop_general (limit : nat) (chat : Z) (reads : list text) :
  ∀ (output_buffer : text) (w : world),
    (length output_buffer < limit)%nat →
    Forall (λ r, (length r ≤ limit)%nat) reads →
    ∃ chunks,
      (stream_loop limit chat reads output_buffer w).2
      = set_effects (effects w ++ code_messages chat chunks) w
      ∧ Forall (λ c, length c = limit) chunks
      ∧ match (stream_loop limit chat reads output_buffer w).1 with
        | Some remainder =>
            concat chunks ++ remainder = output_buffer ++ concat reads
            ∧ (length remainder < limit)%nat
        | None =>
            (∃ unread, concat chunks ++ unread = output_buffer ++ concat reads)
            ∧ chunks ≠ []
            ∧ api_raises (io w) (length (effects w) + pred (length chunks)) = true
        end.
Proof.
  induction reads as [|r reads IH]; intros buf w Hbuf Hreads.
  { exists []. cbn. rewrite !app_nil_r.
    split; [by destruct w|]. by repeat split. }
  apply Forall_cons in Hreads as [Hr Hreads].
  cbn [stream_loop concat].
  destruct r as [|a r'] eqn:Er.
  { cbn [nonempty]. exact (IH buf w Hbuf Hreads). }
  rewrite <- Er in *. cbn [nonempty].
  replace (nonempty r) with true by (by rewrite Er).
  destruct (Nat.leb_spec limit (length (buf ++ r))) as [Hge|Hlt].
  - rewrite bind_run. unfold send_message.
    change (api_call ?e w) with (negb (api_raises (io w) (length (effects w))),
                                 add_effect e w).
    cbn [fst snd].
    destruct (api_raises (io w) (length (effects w))) eqn:Hraise; cbn [negb].
    + exists [take limit (buf ++ r)]. cbn [ret fst snd].
      split; [reflexivity|]. split.
      { apply Forall_cons. split; [by apply length_take_le | constructor]. }
      split; [|split; [done|]].
      * exists (drop limit (buf ++ r) ++ concat reads). cbn [concat].
        by rewrite app_nil_r, !app_assoc, take_drop.
      * cbn [length pred]. by rewrite Nat.add_0_r.
    + assert (Hdrop : (length (drop limit (buf ++ r)) < limit)%nat).
      { rewrite length_drop, length_app. lia. }
      destruct (IH (drop limit (buf ++ r))
                   (add_effect (Send_message chat (Code_block (take limit (buf ++ r)))) w)
                   Hdrop Hreads) as (cs & H1 & H2 & H3).
      exists (take limit (buf ++ r) :: cs). split; [|split].
      * rewrite H1. cbn [effects add_effect code_messages map set_effects].
        by rewrite <- app_assoc.
      * apply Forall_cons. split; [|done]. by apply length_take_le.
      * destruct (stream_loop _ _ _ _ _).1 as [rest|].
        -- destruct H3 as [H3 H4]. split; [|done].
           cbn [concat]. rewrite <- app_assoc, H3, !app_assoc.
           by rewrite take_drop.
        -- destruct H3 as ([unread H3] & Hne & H4). split; [|split; [done|]].
           ++ exists unread. cbn [concat].
              rewrite <- app_assoc, H3, !app_assoc. by rewrite take_drop.
           ++ cbn [effects add_effect io] in H4.
              rewrite length_app in H4.
              destruct cs as [|c cs]; [done|].
              cbn [length pred] in *.
              replace (length (effects w) + S (length cs))%nat
                with (length (effects w) + 1 + length cs)%nat by lia.
              exact H4.
  - destruct (IH (buf ++ r) w Hlt Hreads) as (cs & H1 & H2 & H3).
    exists cs. split; [done|]. split; [done|].
    destruct (stream_loop _ _ _ _ _).1 as [rest|].
    + destruct H3 as [H3 H4]. split; [|done]. by rewrite H3, app_assoc.
    + destruct H3 as ([unread H3] & H4). split; [|done].
      exists unread. by rewrite H3, app_assoc.
Qed.

Lemma stream_loop_reliable (limit : nat) (chat : Z) (reads : list text)
    (output_buffer : text) (w : world) :
  api_reliable w →
  is_Some (stream_loop limit chat reads output_buffer w).1.
Proof.
  intros Hrel. revert output_buffer w Hrel.
  induction reads as [|r reads IH]; intros buf w Hrel; cbn [stream_loop];
    [by eexists|].
  destruct (nonempty r); [|by apply IH].
  destruct (_ <=? _)%nat; [|by apply IH].
  rewrite bind_run, send_message_reliable by done. cbn [fst snd].
  by apply IH.
Qed.

(** X13. For every flush threshold and every delivery of the output in
    reads no longer than the threshold (1000-character reads against
    3500 in [bot.py], against 4000 in [main.py]), the loop sends
    messages of exactly the threshold size. When no send raises, and
    none does where the chat API is reliable, it sends
    [total / threshold] of them and keeps the last
    [total mod threshold] characters in the buffer; messages and buffer
    together are the output, in order. When a send raises, the loop
    ends with that send, and the messages requested so far are the
    beginning of the output. *)
Theorem stream_loop_div_mod (limit : nat) (chat : Z) (reads : list text) (w : world) :
  (0 < limit)%nat →
  Forall (λ r, (length r ≤ limit)%nat) reads →
  ∃ chunks,
    effects (stream_loop limit chat reads [] w).2
    = effects w ++ code_messages chat chunks
    ∧ Forall (λ c, length c = limit) chunks
    ∧ (api_reliable w → is_Some (stream_loop limit chat reads [] w).1)
    ∧ (∀ output_buffer,
         (stream_loop limit chat reads [] w).1 = Some output_buffer →
         concat chunks ++ output_buffer = concat reads
         ∧ length chunks = (length (concat reads) / limit)%nat
         ∧ length output_buffer = (length (concat reads) mod limit)%nat)
    ∧ ((stream_loop limit chat reads [] w).1 = None →
         (∃ unread, concat chunks ++ unread = concat reads)
         ∧ chunks ≠ []
         ∧ api_raises (io w) (length (effects w) + pred (length chunks)) = true).
Proof.
  intros Hpos Hreads.
  destruct (stream_loop_general limit chat reads [] w) as (cs & H1 & H2 & H3);
    [cbn [length]; lia | done |].
  exists cs. split; [by rewrite H1|]. split; [done|].
  split; [apply stream_loop_reliable|].
  destruct (stream_loop limit chat reads [] w).1 as [rest|]; cbn [app] in H3.
  - split; [|done]. intros buf [= <-]. destruct H3 as [H3 H4].
    split; [done|].
    pose proof (length_concat_uniform _ _ H2) as Hlen.
    assert (Hsum : (length (concat reads) = limit * length cs + length rest)%nat).
    { rewrite <- H3, length_app, Hlen. reflexivity. }
    rewrite Hsum. split.
    + apply (Nat.div_unique _ _ _ _ H4). reflexivity.
    + apply (Nat.mod_unique _ _ (length cs)); [exact H4 | reflexivity].
  - split; [done|]. by intros _.
Qed.

Lemma stream_loop_div_mod_witness :
  ((0 < 4000)%nat ∧ Forall (λ r, (length r ≤ 4000)%nat) nine_thousand)
  ∧ ∃ chunks,
      effects (stream_loop 4000 42 nine_thousand [] running_world).2
      = code_messages 42 chunks
      ∧ Forall (λ c, length c = 4000%nat) chunks.
Proof.
  assert (H1 : (0 < 4000)%nat) by (apply Nat.lt_0_succ).
  assert (H2 : Forall (λ r, (length r ≤ 4000)%nat) nine_thousand).
  { unfold nine_thousand. apply Forall_replicate. rewrite length_replicate.
    apply Nat.leb_le. vm_compute. reflexivity. }
  split; [split; [exact H1 | exact H2]|].
  destruct (stream_loop_div_mod 4000 42 nine_thousand running_world H1 H2)
    as (cs & He & Hc & _).
  exists cs. split; [exact He | exact Hc].
Defined.

(** ** The restore process as a whole *)

Section FrameOfRestore.
Context {X : Type} (f : world → X).
Hypothesis Hev : ∀ ev w, f (add_effect ev w) = f w.
Hypothesis Hout : ∀ l w, f (add_stdout l w) = f w.
Hypothesis Hfs : ∀ g w, f (set_fs g w) = f w.

Lemma preserves_send_message chat t : preserves f (send_message chat t).
Proof. by apply preserves_api_call. Qed.

Lemma preserves_stream_loop limit chat reads buf :
  preserves f (stream_loop limit chat reads buf).
Proof.
  revert buf.
  induction reads as [|r reads IH]; intros buf; cbn [stream_loop];
    [apply preserves_ret|].
  destruct (nonempty r); [|apply IH].
  destruct (_ <=? _)%nat; [|apply IH].
  apply preserves_bind; [apply preserves_send_message|].
  intros []; [apply IH | apply preserves_ret].
Qed.

Lemma preserves_restore_failed path chat : preserves f (restore_failed path chat).
Proof.
  unfold restore_failed.
  apply preserves_bind; [apply preserves_send_message|].
  intros []; [|apply preserves_ret].
  apply preserves_bind; [by apply preserves_os_remove|].
  intros _. apply preserves_ret.
Qed.

Lemma preserves_restore_report path chat buf err rc :
  preserves f (restore_report path chat buf err rc).
Proof.
  unfold restore_report.
  apply preserves_bind.
  { destruct (nonempty buf); [apply preserves_send_message | apply preserves_ret]. }
  intros []; cbn [negb]; [|apply preserves_restore_failed].
  destruct err as [err|]; [|apply preserves_restore_failed].
  apply preserves_bind.
  { destruct (nonempty err); [apply preserves_send_message | apply preserves_ret]. }
  intros []; cbn [negb]; [|apply preserves_restore_failed].
  apply preserves_bind.
  { destruct (rc =? 0); apply preserves_send_message. }
  intros []; cbn [negb]; [|apply preserves_restore_failed].
  apply preserves_bind; [by apply preserves_os_remove|].
  intros removed. apply preserves_bind; [|intros _; apply preserves_ret].
  destruct removed; by apply preserves_print.
Qed.

Lemma preserves_run_restore_process p path chat :
  preserves f (run_restore_process p path chat).
Proof.
  unfold run_restore_process, run_restore_process_with.
  apply preserves_bind; [by apply preserves_emit | intros _].
  destruct p as [|changes reads ending]; [apply preserves_restore_failed|].
  apply preserves_bind; [apply preserves_modify; intros w; apply Hfs | intros _].
  apply preserves_bind; [apply preserves_stream_loop|].
  intros [buf|]; [|apply preserves_restore_failed].
  destruct ending;
    [apply preserves_restore_report | apply preserves_restore_failed
    | apply preserves_ret].
Qed.
End FrameOfRestore.

Lemma fs_after_run_restore_process p path chat w :
  api_reliable w →
  (run_restore_process p path chat w).1 = end_of_thread p
  ∧ fs (run_restore_process p path chat w).2 = files_after_restore p path w.
Proof.
  intros Hrel. unfold files_after_restore.
  unfold run_restore_process, run_restore_process_with.
  rewrite bind_run. cbn [emit modify fst snd].
  destruct p as [|changes reads ending].
  - rewrite restore_failed_reliable by exact Hrel.
    split; [reflexivity|]. cbn [snd]. by rewrite fs_os_remove.
  - rewrite bind_run. cbn [modify fst snd].
    set (w0 := set_fs (changes (fs (add_effect (Popen_restore_script path) w)))
                 (add_effect (Popen_restore_script path) w)).
    rewrite bind_run.
    destruct (stream_loop_reliable FLUSH_THRESHOLD chat reads [] w0 Hrel)
      as [rest Hrest].
    rewrite Hrest.
    set (w1 := (stream_loop FLUSH_THRESHOLD chat reads [] w0).2).
    assert (Hfs1 : fs w1 = changes (fs w)).
    { subst w1. by rewrite (preserves_stream_loop fs). }
    assert (Hio1 : io w1 = io w).
    { subst w1. by rewrite (preserves_stream_loop io). }
    assert (Hrel1 : api_reliable w1).
    { unfold api_reliable. rewrite Hio1. exact Hrel. }
    cbn [end_of_thread files_after_script].
    destruct ending as [stderr_output returncode| |].
    + destruct (restore_report_reliable path chat rest stderr_output
                  returncode w1 Hrel1) as (-> & _ & ->).
      split; [done|]. by rewrite fs_os_remove, Hio1, Hfs1.
    + rewrite restore_failed_reliable by done. split; [done|]. cbn [snd].
      rewrite fs_os_remove. cbn [io fs add_effect]. by rewrite Hio1, Hfs1.
    + split; [done|]. exact Hfs1.
Qed.

(** X14. Where the chat API is reliable, a restore thread whose script
    comes to an end returns, and the files are then those the script
    left, less the file handed to [run_restore_process], unless its
    removal is denied, in which case it stays; a thread whose script
    never ends hangs with the files as the script has them. In every
    case, reliable API or not, neither the configuration (on disk or in
    memory) nor the chat id nor any restore session is touched. *)
Theorem restore_process_cleans_up (p : popen_outcome) (path : string)
    (chat : Z) (w : world) :
  (api_reliable w →
   (run_restore_process p path chat w).1 = end_of_thread p
   ∧ fs (run_restore_process p path chat w).2
     = match end_of_thread p with
       | Thread_returns =>
           if remove_denied (io w) (Fs.resolve path)
           then files_after_script p (fs w)
           else delete (Fs.resolve path) (files_after_script p (fs w))
       | _ => files_after_script p (fs w)
       end)
  ∧ config_file (run_restore_process p path chat w).2 = config_file w
  ∧ config (run_restore_process p path chat w).2 = config w
  ∧ chat_id (run_restore_process p path chat w).2 = chat_id w
  ∧ user_states (run_restore_process p path chat w).2 = user_states w.
Proof.
  split; [apply fs_after_run_restore_process|].
  repeat split; by apply preserves_run_restore_process.
Qed.

(** X15. What a restore thread sends, in order, where the chat API is
    reliable: after the start of the script, the full chunks of 3500
    characters of its output; then, if the script comes to an end, the
    rest of the output if there is any, the error stream if it could be
    read and is not empty, and the verdict, success exactly for exit
    status zero (the exception message if the error stream could not be
    read); the exception message alone if a read of the output raises;
    nothing more if the script never ends. Chunks and rest put end to
    end are exactly the output of the script. When [Popen] itself
    raises, the exception message is all that is sent. *)
Theorem restore_process_relays_output
    (changes : gmap (list string) Fs.file → gmap (list string) Fs.file)
    (reads : list text) (ending : loop_end)
    (path : string) (chat : Z) (w : world) :
  api_reliable w →
  Forall (λ r, (length r ≤ 1000)%nat) reads →
  (∃ chunks remainder,
     effects (run_restore_process (Popen_ran changes reads ending) path chat w).2
     = effects w ++ [Popen_restore_script path] ++ code_messages chat chunks
       ++ after_loop chat remainder ending
     ∧ concat chunks ++ remainder = concat reads
     ∧ Forall (λ c, length c = 3500%nat) chunks
     ∧ (length remainder < 3500)%nat)
  ∧ (∀ remainder stderr_output returncode,
       last (after_loop chat remainder (Loop_eof (Some stderr_output) returncode))
       = Some (Send_message chat (if returncode =? 0 then Restore_success_msg
                                  else Restore_error_msg returncode)))
  ∧ effects (run_restore_process Popen_failed path chat w).2
    = effects w ++ [Popen_restore_script path;
                    Send_message chat Restore_exception_msg].
Proof.
  intros Hrel Hreads. split; [|split].
  - destruct (run_restore_process_effects changes reads ending
                path chat w Hrel Hreads) as (cs & rem & He & _ & Hcs & Hrem & Hcat & _).
    by exists cs, rem.
  - intros remainder stderr_output returncode.
    cbn [after_loop]. unfold closing_messages. by rewrite !app_assoc, last_snoc.
  - unfold run_restore_process, run_restore_process_with.
    rewrite bind_run. cbn [emit modify fst snd].
    rewrite restore_failed_reliable by exact Hrel. cbn [snd].
    rewrite effects_after_os_remove.
    cbn [effects add_effect]. by rewrite <- app_assoc.
Qed.

Lemma restore_process_relays_output_witness :
  (api_reliable running_world
   ∧ Forall (λ r, (length r ≤ 1000)%nat) [["o"; "k"]; []; ["!"]]%char)
  ∧ ∃ chunks remainder,
      effects (run_restore_process
                 (Popen_ran id [["o"; "k"]; []; ["!"]]%char (Loop_eof (Some []) 3))
                 "/tmp/ibsng_restore/dump.bak" 42 running_world).2
      = [Popen_restore_script "/tmp/ibsng_restore/dump.bak"]
        ++ code_messages 42 chunks
        ++ after_loop 42 remainder (Loop_eof (Some []) 3)
      ∧ concat chunks ++ remainder = ["o"; "k"; "!"]%char.
Proof.
  assert (H0 : api_reliable running_world) by (intros k; reflexivity).
  assert (H : Forall (λ r, (length r ≤ 1000)%nat) [["o"; "k"]; []; ["!"]]%char).
  { repeat (apply Forall_cons; split; [cbn [length]; lia|]). constructor. }
  split; [split; [exact H0 | exact H]|].
  destruct (proj1 (restore_process_relays_output id [["o"; "k"]; []; ["!"]]%char
                     (Loop_eof (Some []) 3) "/tmp/ibsng_restore/dump.bak" 42
                     running_world H0 H))
    as (chunks & remainder & He & Hc & _).
  exists chunks, remainder. split; [exact He | exact Hc].
Defined.

(** ** What the handlers leave alone *)

Ltac frame_step :=
  first
    [ apply preserves_ret
    | apply preserves_gets
    | apply preserves_deref
    | apply preserves_bind; [|intros ?]
    | apply preserves_load_config; intros; reflexivity
    | apply preserves_setitem; intros; reflexivity
    | apply preserves_save_config; intros; reflexivity
    | apply preserves_api_call; intros; reflexivity
    | apply preserves_open_write; intros; reflexivity
    | apply preserves_modify; intros ?;
      first [ reflexivity
            | cbn [user_states set_user_states]; by rewrite lookup_insert_ne ]
    | match goal with
      | |- preserves _ (match ?x with _ => _ end) => destruct x
      end ].

Ltac frame :=
  unfold handle_backup_command, handle_status_command, handle_time_command,
    handle_restore_command, handle_cancel_command, handle_document,
    receive_document, reply_to, authorized, waiting, print, emit;
  repeat frame_step.

Lemma sends_only_preserves (P : event → Prop) {A} (m : M A) :
  preserves effects m → sends_only P m.
Proof. intros H w. exists []. rewrite H, app_nil_r. by split. Qed.

Lemma sends_only_emit (P : event → Prop) (ev : event) :
  P ev → sends_only P (emit ev).
Proof. intros H w. exists [ev]. split; [done | by repeat constructor]. Qed.

Lemma sends_only_api_call (P : event → Prop) (ev : event) :
  P ev → sends_only P (api_call ev).
Proof. intros H w. exists [ev]. split; [done | by repeat constructor]. Qed.

Lemma sends_only_bind (P : event → Prop) {A B} (m : M A) (k : A → M B) :
  sends_only P m → (∀ a, sends_only P (k a)) → sends_only P (bind m k).
Proof.
  intros Hm Hk w. rewrite bind_run.
  destruct (Hm w) as (s1 & H1 & F1).
  destruct (Hk (m w).1 (m w).2) as (s2 & H2 & F2).
  exists (s1 ++ s2). split; [by rewrite H2, H1, app_assoc | by apply Forall_app].
Qed.

Ltac sends_step :=
  first
    [ apply sends_only_bind; [|intros ?]
    | apply sends_only_emit; cbn beta;
      first [ left; eexists; reflexivity | right; eexists; reflexivity ]
    | apply sends_only_api_call; cbn beta;
      first [ left; eexists; reflexivity | right; eexists; reflexivity ]
    | apply sends_only_preserves; solve [repeat frame_step]
    | match goal with
      | |- sends_only _ (match ?x with _ => _ end) => destruct x
      end ].

(** X16. A message changes at most the restore session of its own
    chat; only [/time] can change the configuration file or
    [MIN_INTERVAL_HOURS]; only a document can change the file system;
    and no handler runs the backup or the restore script itself. *)
Theorem handlers_stay_in_their_lane (i : inbound) (m : message) (w : world) :
  (∀ chat, chat ≠ msg_chat_id m →
     user_states (dispatch i m w).2 !! chat = user_states w !! chat)
  ∧ (i ≠ Time_command →
     config_file (dispatch i m w).2 = config_file w
     ∧ MIN_INTERVAL_HOURS (dispatch i m w).2 = MIN_INTERVAL_HOURS w)
  ∧ ((∀ download now, i ≠ Document_received download now) →
     fs (dispatch i m w).2 = fs w)
  ∧ (∀ ev, ev ∈ effects (dispatch i m w).2 → ev ∉ effects w →
     (∃ t, ev = Reply_to (msg_chat_id m) t) ∨ (∃ t, ev = Thread_start t)).
Proof.
  split; [|split; [|split]].
  - intros chat Hne.
    revert w. change (preserves (λ w, user_states w !! chat) (dispatch i m)).
    destruct i; cbn [dispatch]; frame.
  - intros Hi. split.
    + revert w. change (preserves config_file (dispatch i m)).
      destruct i; cbn [dispatch]; try done; frame.
    + revert w. change (preserves MIN_INTERVAL_HOURS (dispatch i m)).
      destruct i; cbn [dispatch]; try done; frame.
  - intros Hi. revert w. change (preserves fs (dispatch i m)).
    destruct i; cbn [dispatch]; [frame.. | by destruct (Hi download now)].
  - assert (Hev : sends_only (λ ev, (∃ t, ev = Reply_to (msg_chat_id m) t)
                                     ∨ (∃ t, ev = Thread_start t)) (dispatch i m)).
    { destruct i; cbn [dispatch];
        unfold handle_backup_command, handle_status_command,
          handle_time_command, handle_restore_command,
          handle_cancel_command, handle_document, receive_document,
          reply_to, authorized, waiting;
        repeat sends_step. }
    destruct (Hev w) as (sent & Hsent & HP). rewrite Hsent.
    intros ev Hin Hnot.
    apply elem_of_app in Hin as [Hin|Hin]; [done|].
    rewrite Forall_forall in HP. by apply HP.
Qed.

(** ** Handlers in sequence *)

Lemma authorized_after (m : message) (w w' : world) :
  chat_id w' = chat_id w → (authorized m w').1 = (authorized m w).1.
Proof. unfold authorized, gets. cbn [fst]. by intros ->. Qed.

Lemma handle_restore_command_world (m : message) (w : world) :
  (authorized m w).1 = true →
  (handle_restore_command m w).2
  = add_effect (Reply_to (msg_chat_id m) Guide_msg)
      (set_user_states (<[msg_chat_id m := Waiting_restore]> (user_states w)) w).
Proof.
  intros Ha. unfold handle_restore_command. handler_step. rewrite Ha.
  cbn [negb]. by rewrite !bind_run.
Qed.

Lemma handle_cancel_command_world (m : message) (w : world) :
  (authorized m w).1 = true →
  session_of w (msg_chat_id m) = WaitingForFile →
  (handle_cancel_command m w).2
  = add_effect (Reply_to (msg_chat_id m) Cancel_msg)
      (set_user_states (<[msg_chat_id m := State_None]> (user_states w)) w).
Proof.
  intros Ha Hw%waiting_session. unfold handle_cancel_command.
  handler_step. rewrite Ha. cbn [negb]. handler_step. rewrite Hw.
  by rewrite !bind_run.
Qed.

(** X17. From the authorized chat, [/restore] (the handler of
    [main.py], which [bot.py] repeats with a literal the compiler
    rejects) followed by [/cancel] always ends in [Idle] with the
    guidance and the confirmation requested in that order, whatever the
    session was before and whether or not the replies go through; and a
    repeated [/restore] leaves the sessions exactly as the first one
    did. *)
Theorem restore_then_cancel (m : message) (w : world) :
  (authorized m w).1 = true →
  let w1 := (handle_restore_command m w).2 in
  session_of (handle_cancel_command m w1).2 (msg_chat_id m) = Idle
  ∧ effects (handle_cancel_command m w1).2
    = effects w ++ [Reply_to (msg_chat_id m) Guide_msg;
                    Reply_to (msg_chat_id m) Cancel_msg]
  ∧ user_states (handle_restore_command m w1).2 = user_states w1
  ∧ session_of w1 (msg_chat_id m) = WaitingForFile.
Proof.
  intros Ha w1.
  assert (Hw1 : w1 = _) by exact (handle_restore_command_world m w Ha).
  assert (Ha1 : (authorized m w1).1 = true).
  { rewrite <- Ha. apply authorized_after. by rewrite Hw1. }
  assert (Hs1 : session_of w1 (msg_chat_id m) = WaitingForFile).
  { rewrite Hw1. session_after_insert. }
  rewrite (handle_cancel_command_world m w1 Ha1 Hs1).
  split; [session_after_insert|]. split; [|split; [|exact Hs1]].
  - rewrite Hw1. cbn [effects add_effect set_user_states].
    by rewrite <- app_assoc.
  - rewrite (handle_restore_command_world m w1 Ha1), Hw1.
    cbn [user_states add_effect set_user_states].
    by rewrite insert_insert_eq.
Qed.

Lemma restore_then_cancel_witness :
  (authorized (owner_message "/restore" "") running_world).1 = true
  ∧ session_of
      (handle_cancel_command (owner_message "/restore" "")
         (handle_restore_command (owner_message "/restore" "") running_world).2).2
      42 = Idle.
Proof.
  split; [reflexivity|].
  exact (proj1 (restore_then_cancel (owner_message "/restore" "") running_world
                  eq_refl)).
Defined.

(** X18. Where the chat API is reliable and the file of an accepted
    document can be written, the document and the restore thread it
    starts, taken together, leave the chat in [Idle] and the
    configuration file as it was; once the thread has returned, the
    files are those the restore script left of the files with the
    document written among them, less that document, unless its removal
    is denied. *)
Theorem uploaded_file_is_consumed (data : list Byte.byte) (now : Z)
    (p : popen_outcome) (m : message) (w : world) :
  accepted m w →
  writable_at w (msg_file_name m) →
  api_reliable w →
  let path := Py.os_path_join TEMP_DIR (msg_file_name m) in
  let place := restore_location (msg_file_name m) in
  let w1 := (handle_document (Downloaded data) now m w).2 in
  let w2 := (run_restore_process p path (msg_chat_id m) w1).2 in
  let left := files_after_script p (<[place := Fs.File data now]> (fs w)) in
  last (effects w1) = Some (Thread_start (Run_restore_process path (msg_chat_id m)))
  ∧ fs w2 = match end_of_thread p with
            | Thread_returns =>
                if remove_denied (io w) place then left else delete place left
            | _ => left
            end
  ∧ session_of w2 (msg_chat_id m) = Idle
  ∧ config_file w2 = config_file w.
Proof.
  intros Hacc Hwr Hrel path place w1 w2 left.
  pose proof (receive_document_goes_through data now m w Hwr (Hrel _)) as Hw1.
  assert (Heq : handle_document (Downloaded data) now m w
                = receive_document (Downloaded data) now m w)
    by exact (handle_document_accepted _ _ _ _ Hacc).
  rewrite <- Heq in Hw1. fold w1 in Hw1. clear Heq.
  assert (Hrel1 : api_reliable w1) by (rewrite Hw1; exact Hrel).
  subst w2. split; [|split; [|split]].
  - rewrite Hw1. cbn [effects add_effect]. by rewrite last_snoc.
  - destruct (fs_after_run_restore_process p path (msg_chat_id m) w1 Hrel1)
      as [_ ->].
    unfold files_after_restore. rewrite Hw1.
    cbn [fs io add_effect set_user_states set_fs]. reflexivity.
  - unfold session_of.
    rewrite (preserves_run_restore_process user_states) by reflexivity.
    rewrite Hw1. cbn [user_states add_effect set_user_states set_fs].
    by rewrite lookup_insert_eq.
  - rewrite (preserves_run_restore_process config_file) by reflexivity.
    by rewrite Hw1.
Qed.

Lemma uploaded_file_is_consumed_witness :
  (accepted (owner_message "" "dump.bak") awaiting_world
   ∧ writable_at awaiting_world "dump.bak"
   ∧ api_reliable awaiting_world)
  ∧ fs (run_restore_process Popen_failed "/tmp/ibsng_restore/dump.bak" 42
          (handle_document (Downloaded [Byte.x1f]) 7
             (owner_message "" "dump.bak") awaiting_world).2).2
      !! restore_location "dump.bak" = None.
Proof.
  assert (Hacc : accepted (owner_message "" "dump.bak") awaiting_world)
    by (repeat split).
  assert (Hrel : api_reliable awaiting_world) by (intros k; reflexivity).
  split; [split; [exact Hacc | split; [reflexivity | exact Hrel]]|].
  destruct (uploaded_file_is_consumed [Byte.x1f] 7 Popen_failed
              (owner_message "" "dump.bak") awaiting_world Hacc eq_refl Hrel)
    as (_ & Hfs & _).
  refine (eq_trans (f_equal (λ f, f !! restore_location "dump.bak") Hfs) _).
  apply lookup_delete_eq.
Defined.

(** ** The numeral of [/time] *)

Lemma decimal_value_nonneg (c : N) (d : Z) :
  Py.decimal_value c = Some d → 0 ≤ d.
Proof.
  unfold Py.decimal_value. destruct (List.find _ _); [|discriminate].
  intros [= <-]. lia.
Qed.

Lemma int_go_zero (s : list N) :
  ∀ acc n, 0 ≤ acc → Py.int_go acc s = Some n →
    acc ≤ n
    ∧ (n = 0 ↔ acc = 0 ∧ Forall (λ c, Py.decimal_value c = Some 0) s).
Proof.
  induction s as [|c s IH]; intros acc n Hacc; cbn [Py.int_go].
  { intros [= <-]. split; [lia|]. split; [by split | tauto]. }
  destruct (Py.decimal_value c) as [d|] eqn:Hd; [|discriminate].
  pose proof (decimal_value_nonneg c d Hd) as Hdpos.
  intros Hn. destruct (IH (10 * acc + d) n ltac:(lia) Hn) as [Hle Hiff].
  split; [lia|]. rewrite Hiff, Forall_cons. split.
  - intros [H0 Hzs]. assert (d = 0) by lia. subst d.
    repeat split; [lia | done | done].
  - intros [-> [Hc Hzs]]. rewrite Hd in Hc. injection Hc as ->.
    split; [lia | done].
Qed.

(** X20. The value [int] reads from a numeral, in the decimal digits of
    whatever script, is never negative, and it is zero exactly for a
    numeral made of digits of value zero: the "greater than zero"
    rejection of [/time] is reached by arguments such as [0] and [000]
    and by nothing else. *)
Theorem numeral_value (s : list N) (n : Z) :
  Py.int s = Some n →
  0 ≤ n ∧ (n ≤ 0 ↔ Forall (λ c, Py.decimal_value c = Some 0) s).
Proof.
  unfold Py.int. destruct (_ <? _)%nat; [discriminate|]. intros Hn.
  destruct (int_go_zero s 0 n ltac:(lia) Hn) as [Hle Hiff].
  split; [exact Hle|]. split.
  - intros H. apply Hiff. lia.
  - intros H. assert (n = 0) by (apply Hiff; by split). lia.
Qed.

Lemma numeral_value_witness :
  Py.int (Py.decode "000") = Some 0
  ∧ 0 ≤ 0
  ∧ (0 ≤ 0 ↔ Forall (λ c, Py.decimal_value c = Some 0) (Py.decode "000")).
Proof.
  split; [reflexivity|]. exact (numeral_value (Py.decode "000") 0 eq_refl).
Defined.

(** ** The scheduled thread *)

Lemma wait_loop_steps (flag : nat → bool) (n : nat) :
  ∀ s, ∃ k, (k ≤ n)%nat
    ∧ slept (wait_loop flag n s) = (slept s + k)%nat
    ∧ (∀ j, (j < k)%nat → flag (flag_reads s + j)%nat = false)
    ∧ ((k < n)%nat → flag (flag_reads s + k)%nat = true)
    ∧ flag_reads (wait_loop flag n s)
      = (flag_reads s + k + (if (k <? n)%nat then 1 else 0))%nat
    ∧ sched_world (wait_loop flag n s) = sched_world s
    ∧ checks (wait_loop flag n s) = checks s
    ∧ crashed (wait_loop flag n s) = crashed s.
Proof.
  induction n as [|n IH]; intros s; cbn [wait_loop read_flag].
  { exists 0%nat. rewrite !Nat.add_0_r.
    split; [lia|]. split; [done|]. split; [intros j Hj; lia|].
    split; [intros Hlt; lia|]. done. }
  destruct (flag (flag_reads s)) eqn:Hf.
  - exists 0%nat. cbn [slept flag_reads sched_world checks crashed].
    rewrite !Nat.add_0_r.
    split; [lia|]. split; [done|]. split; [intros j Hj; lia|].
    split; [done|]. split; [|done].
    change (0 <? S n)%nat with true. cbv iota. lia.
  - destruct (IH (time_sleep 1
                    (Sched (sched_world s) (S (flag_reads s)) (slept s)
                       (checks s) (thread_stdout s) (crashed s))))
      as (k & Hk & Hs & Hlow & Hhigh & Hr & Hw & Hc & Hcr).
    cbn [time_sleep slept flag_reads sched_world checks crashed] in *.
    exists (S k). rewrite Hs, Hr, Hw, Hc, Hcr.
    split; [lia|]. split; [lia|]. split.
    { intros [|j] Hj; [by rewrite Nat.add_0_r|].
      replace (flag_reads s + S j)%nat with (S (flag_reads s) + j)%nat by lia.
      apply Hlow. lia. }
    split.
    { intros Hlt. replace (flag_reads s + S k)%nat
        with (S (flag_reads s) + k)%nat by lia. apply Hhigh. lia. }
    split; [|done].
    change (S k <? S n)%nat with (k <? n)%nat. lia.
Qed.

(** X21. The wait between two checks sleeps one second for every look
    at the flag that finds it down, stops at the first look that finds
    it raised, and never sleeps more than the seconds asked for. *)
Theorem wait_loop_stops_at_first_raise (flag : nat → bool) (n : nat) (s : sched) :
  ∃ k, (k ≤ n)%nat
    ∧ slept (wait_loop flag n s) = (slept s + k)%nat
    ∧ (∀ j, (j < k)%nat → flag (flag_reads s + j)%nat = false)
    ∧ ((k < n)%nat → flag (flag_reads s + k)%nat = true)
    ∧ sched_world (wait_loop flag n s) = sched_world s.
Proof.
  destruct (wait_loop_steps flag n s) as (k & H1 & H2 & H3 & H4 & _ & H6 & _).
  by exists k.
Qed.






(** Within the interval of a recorded last backup the check never lets
    the cycle through: it holds it back or ends with an exception. *)
Lemma held_check (e : backup_env) (w : world) (c : cfg) (t : Z) :
  config_file w = Parsed c →
  cfg_last_backup c = Some t → t ≠ 0 →
  now_check e - t < interval_hours c w * 3600 →
  proceeds e false w = false.
Proof.
  intros Hcf Ht Hnz Hlt.
  destruct (proceeds e false w) eqn:Hp; [|done]. exfalso.
  apply proceeds_throttle in Hp. rewrite throttle_unforced in Hp.
  assert (Hl : load_config w
               = (Global_config,
                  set_credentials (cfg_bot_token c) (cfg_chat_id c)
                    (set_config c w))).
  { unfold load_config. by rewrite Hcf. }
  rewrite Hl in Hp. cbn [fst snd] in Hp.
  rewrite check_backup_interval_cases in Hp. cbv zeta in Hp.
  cbn [deref gets fst config set_credentials set_config] in Hp.
  rewrite Ht in Hp. rewrite decide_False in Hp by done.
  unfold interval_hours, interval_setting in *.
  cbn [MIN_INTERVAL_HOURS set_credentials set_config] in Hp.
  destruct (Py.fits_float t); [|done].
  destruct (default (Some (MIN_INTERVAL_HOURS w)) (cfg_min_interval_hours c))
    as [h|]; [|done].
  cbn [default id] in Hlt.
  rewrite decide_True in Hp by done.
  by destruct (Py.fits_float (h * 3600)).
Qed.

(** X23. While the clock of every check stays within the interval of
    the recorded last backup, the scheduled thread does nothing but
    look and wait: however many checks it makes before it ends, the
    file system, the configuration file, the requests sent and the
    restore sessions are what they were. *)
Theorem throttled_thread_is_inert (flag : nat → bool) (cycles : nat → cycle)
    (c : cfg) (t : Z) (fuel : nat) (s s' : sched) :
  config_file (sched_world s) = Parsed c →
  cfg_last_backup c = Some t → t ≠ 0 →
  (∀ i, now_check (cycle_env (cycles i)) - t
        < interval_hours c (sched_world s) * 3600) →
  backup_polling_thread fuel flag cycles s = Some s' →
  fs (sched_world s') = fs (sched_world s)
  ∧ config_file (sched_world s') = config_file (sched_world s)
  ∧ effects (sched_world s') = effects (sched_world s)
  ∧ user_states (sched_world s') = user_states (sched_world s).
Proof.
  intros Hcf Ht Hnz Hheld. revert s Hcf Hheld.
  induction fuel as [|fuel IH]; intros s Hcf Hheld; [discriminate|].
  cbn [backup_polling_thread read_flag].
  destruct (flag (flag_reads s)); [by intros [= <-]|].
  cbn [thread_print begin_check sched_world checks].
  set (e := cycle_env (cycles (checks s))).
  pose proof (held_check e (sched_world s) c t Hcf Ht Hnz (Hheld _)) as Hp.
  rewrite run_backup_process_split. unfold proceeds in Hp.
  set (w' := throttle_world e false (sched_world s)).
  assert (Hfs : fs w' = fs (sched_world s))
    by (by apply throttle_world_keeps).
  assert (Hcf' : config_file w' = config_file (sched_world s))
    by (by apply throttle_world_keeps).
  assert (Hef : effects w' = effects (sched_world s))
    by (by apply throttle_world_keeps).
  assert (Hus : user_states w' = user_states (sched_world s))
    by (by apply throttle_world_keeps).
  assert (Hmi : MIN_INTERVAL_HOURS w' = MIN_INTERVAL_HOURS (sched_world s))
    by (by apply throttle_world_keeps).
  destruct (throttle e false (sched_world s)).1 as [[|]|]; [done| |].
  2:{ intros [= <-]. cbn [crash set_sched_world thread_print sched_world].
      by rewrite Hfs, Hcf', Hef, Hus. }
  match goal with |- backup_polling_thread _ _ _ (wait_loop flag ?n ?s5) = _ → _ =>
    destruct (wait_loop_steps flag n s5) as (k & _ & _ & _ & _ & _ & Hw & _);
    cbn [thread_print set_sched_world sched_world] in Hw;
    intros Hrun; apply IH in Hrun
  end.
  - rewrite Hw in Hrun. by rewrite <- Hfs, <- Hcf', <- Hef, <- Hus.
  - by rewrite Hw, Hcf'.
  - intros i. rewrite Hw. unfold interval_hours, interval_setting in *.
    rewrite Hmi. apply Hheld.
Qed.

Lemma throttled_thread_is_inert_witness :
  (config_file sample_world = Parsed sample_config
   ∧ cfg_last_backup sample_config = Some 1000000 ∧ 1000000 ≠ 0
   ∧ (∀ i, now_check (cycle_env (sample_cycles i)) - 1000000
           < interval_hours sample_config sample_world * 3600))
  ∧ ∃ s', backup_polling_thread 3 (raised_at 2) sample_cycles sample_sched = Some s'
          ∧ effects (sched_world s') = effects sample_world.
Proof.
  assert (H : ∀ i, now_check (cycle_env (sample_cycles i)) - 1000000
                   < interval_hours sample_config sample_world * 3600)
    by (intros i; vm_compute; reflexivity).
  split; [repeat split; (reflexivity || discriminate || exact H)|].
  destruct (backup_polling_thread 3 (raised_at 2) sample_cycles sample_sched)
    as [s'|] eqn:Hrun; [|vm_compute in Hrun; discriminate].
  exists s'. split; [reflexivity|].
  exact (proj1 (proj2 (proj2
    (throttled_thread_is_inert (raised_at 2) sample_cycles sample_config 1000000
       3 sample_sched s' eq_refl eq_refl ltac:(discriminate) H Hrun)))).
Defined.
